(** * A shallow embedding of the ingestion pipeline of youtubemobile.py

    Covered: the time helpers ([to_sql_utc_string], [ensure_sql_utc_string]),
    [parse_duration_iso8601], [try_request], [simulate_sentiment_analysis],
    [db_upsert_videos] over a model of the [videos] table,
    [youtube_search], [chunked], [to_rfc3339_z], the query of
    [db_get_video_ids], [get_video_details] and [get_channel_details] over
    a model of the API's JSON, and the app's input handling: the search
    queries, the de-duplication of the Quick Update, the consolidation of
    the pinned videos and the parsing of the channel watch list. *)

From Stdlib Require Import ZArith Lia List String Ascii Bool.
Import ListNotations.
Open Scope string_scope.
Open Scope Z_scope.

(* ------------------------------------------------------------------ *)
(** ** Python exceptions and a small error monad *)

Inductive exn :=
| OverflowError        (* date value out of range; int/int too large for a float *)
| ZeroDivisionError
| ValueError           (* int() of a string that is not a decimal literal *)
| TypeError
| JSONDecodeError      (* Response.json() on a body that is not JSON *)
| IntegrityError.      (* sqlite3: PRIMARY KEY or UNIQUE constraint violated *)

Inductive res (A : Type) := Ok (a : A) | Err (e : exn).
Arguments Ok {A} a.
Arguments Err {A} e.

Definition bind {A B} (c : res A) (k : A -> res B) : res B :=
  match c with Ok a => k a | Err e => Err e end.

Notation "'let*' x ':=' c 'in' k" := (bind c (fun x => k))
  (at level 200, x name, c at level 100, k at level 200).

(* ------------------------------------------------------------------ *)
(** ** datetime *)

(** A Python [datetime]: its fields and, for an aware value, the
    [utcoffset()] in seconds ([None] for a naive value). *)
Record datetime := mkdt {
  dt_year : Z; dt_month : Z; dt_day : Z;
  dt_hour : Z; dt_minute : Z; dt_second : Z; dt_microsecond : Z;
  dt_utcoffset : option Z
}.

(** Days since 1970-01-01 of a proleptic Gregorian date. *)
Definition days_from_civil (y m d : Z) : Z :=
  let y' := if m <=? 2 then y - 1 else y in
  let era := y' / 400 in
  let yoe := y' - era * 400 in
  let mp := (m + 9) mod 12 in
  let doy := (153 * mp + 2) / 5 + d - 1 in
  let doe := yoe * 365 + yoe / 4 - yoe / 100 + doy in
  era * 146097 + doe - 719468.

(** Year of era, month and day of a day of a 400-year era. *)
Definition civil_of_doe (doe : Z) : Z * Z * Z :=
  let yoe := (doe - doe / 1460 + doe / 36524 - doe / 146096) / 365 in
  let doy := doe - (365 * yoe + yoe / 4 - yoe / 100) in
  let mp := (5 * doy + 2) / 153 in
  let d := doy - (153 * mp + 2) / 5 + 1 in
  let m := if mp <? 10 then mp + 3 else mp - 9 in
  (yoe, m, d).

(** The date of a day number (inverse of [days_from_civil]). *)
Definition civil_from_days (z : Z) : Z * Z * Z :=
  let z' := z + 719468 in
  let era := z' / 146097 in
  let doe := z' - era * 146097 in
  let '(yoe, m, d) := civil_of_doe doe in
  let y := yoe + era * 400 in
  ((if m <=? 2 then y + 1 else y), m, d).

(** [dt.astimezone(UTC)]: a naive value is read in the local zone of the
    machine, whose offset is [local_offset]; a result outside years
    1..9999 raises [OverflowError]. *)
Definition astimezone_utc (local_offset : Z) (dt : datetime) : res datetime :=
  let off := match dt_utcoffset dt with Some o => o | None => local_offset end in
  let t := days_from_civil (dt_year dt) (dt_month dt) (dt_day dt) * 86400
           + dt_hour dt * 3600 + dt_minute dt * 60 + dt_second dt - off in
  let days := t / 86400 in
  let secs := t mod 86400 in
  let '(y, m, d) := civil_from_days days in
  if (1 <=? y) && (y <=? 9999) then
    Ok (mkdt y m d (secs / 3600) ((secs mod 3600) / 60) (secs mod 60)
             (dt_microsecond dt) (Some 0))
  else Err OverflowError.

(** Decimal digits of a non-negative integer, most significant first. *)
Fixpoint digits_aux (fuel : nat) (n : Z) (acc : list ascii) : list ascii :=
  match fuel with
  | O => acc
  | S f =>
      let acc' := ascii_of_nat (48 + Z.to_nat (n mod 10)) :: acc in
      if n <? 10 then acc' else digits_aux f (n / 10) acc'
  end.

Definition digits (n : Z) : list ascii := digits_aux (S (Z.to_nat n)) n [].

(** A zero-padded number: strftime's [%m %d %H %M %S] pad to 2 digits;
    [isoformat] also pads the year to 4 and microseconds to 6. *)
Definition zpad (w : nat) (n : Z) : string :=
  let ds := digits n in
  string_of_list_ascii (repeat "0"%char (w - List.length ds) ++ ds)%list.

(** [str(z)] for an int. *)
Definition int_str (z : Z) : string :=
  if z <? 0 then "-" ++ string_of_list_ascii (digits (- z))
  else string_of_list_ascii (digits z).

(** strftime's [%Y] as glibc writes it (CPython 3.11 on Linux): the
    year's digits, not padded ([5] for the year 5). *)
Definition strftime_Y (y : Z) : string := int_str y.

(** [dt.strftime("%Y-%m-%d %H:%M:%S")]. *)
Definition strftime_sql (dt : datetime) : string :=
  strftime_Y (dt_year dt) ++ "-" ++ zpad 2 (dt_month dt) ++ "-" ++ zpad 2 (dt_day dt)
  ++ " " ++ zpad 2 (dt_hour dt) ++ ":" ++ zpad 2 (dt_minute dt) ++ ":"
  ++ zpad 2 (dt_second dt).

(** [to_sql_utc_string(dt)]. *)
Definition to_sql_utc_string (local_offset : Z) (dt : datetime) : res string :=
  let* u := astimezone_utc local_offset dt in Ok (strftime_sql u).

(** Python values that can sit in a record dict. *)
Inductive pyval :=
| PyNone
| PyStr (s : string)
| PyInt (z : Z)
| PyDatetime (dt : datetime).

(** [ensure_sql_utc_string(val)]; [now] is the value [utcnow()] returns
    at that call. *)
Definition ensure_sql_utc_string (local_offset : Z) (now : datetime) (val : pyval)
  : res string :=
  match val with
  | PyDatetime dt => to_sql_utc_string local_offset dt
  | PyStr s => if String.eqb s "" then to_sql_utc_string local_offset now else Ok s
  | _ => to_sql_utc_string local_offset now
  end.

(** The normalized form [YYYY-MM-DD HH:MM:SS]. *)
Definition is_digit (c : ascii) : bool :=
  let n := nat_of_ascii c in (48 <=? n)%nat && (n <=? 57)%nat.

Definition is_sql_utc_form (s : string) : bool :=
  match list_ascii_of_string s with
  | [y1; y2; y3; y4; dash1; m1; m2; dash2; d1; d2; sp; h1; h2; col1; mi1; mi2; col2; s1; s2] =>
      forallb is_digit [y1; y2; y3; y4; m1; m2; d1; d2; h1; h2; mi1; mi2; s1; s2]
      && Ascii.eqb dash1 "-"%char && Ascii.eqb dash2 "-"%char && Ascii.eqb sp " "%char
      && Ascii.eqb col1 ":"%char && Ascii.eqb col2 ":"%char
  | _ => false
  end.

(* ------------------------------------------------------------------ *)
(** ** Python strings and [int(str)] *)

(** A Python [str] is held as a [string]: the bytes of its UTF-8 encoding.
    [utf8_decode] gives back its code points (it reads bytes that encode
    no [str] as U+FFFD, or leniently). *)
Definition byte_val (b : ascii) : Z := Z.of_nat (nat_of_ascii b).

Definition utf8_cont (b : ascii) : bool :=
  (128 <=? byte_val b) && (byte_val b <? 192).

Fixpoint utf8_decode (bs : list ascii) : list Z :=
  match bs with
  | [] => []
  | b0 :: r =>
      let n0 := byte_val b0 in
      if n0 <? 128 then n0 :: utf8_decode r
      else if (194 <=? n0) && (n0 <? 224) then
        match r with
        | b1 :: r1 =>
            if utf8_cont b1
            then ((n0 - 192) * 64 + (byte_val b1 - 128)) :: utf8_decode r1
            else 65533 :: utf8_decode r
        | [] => [65533]
        end
      else if (224 <=? n0) && (n0 <? 240) then
        match r with
        | b1 :: b2 :: r2 =>
            if utf8_cont b1 && utf8_cont b2
            then ((n0 - 224) * 4096 + (byte_val b1 - 128) * 64 + (byte_val b2 - 128))
                 :: utf8_decode r2
            else 65533 :: utf8_decode r
        | _ => 65533 :: utf8_decode r
        end
      else if (240 <=? n0) && (n0 <? 245) then
        match r with
        | b1 :: b2 :: b3 :: r3 =>
            if utf8_cont b1 && utf8_cont b2 && utf8_cont b3
            then ((n0 - 240) * 262144 + (byte_val b1 - 128) * 4096
                  + (byte_val b2 - 128) * 64 + (byte_val b3 - 128))
                 :: utf8_decode r3
            else 65533 :: utf8_decode r
        | _ => 65533 :: utf8_decode r
        end
      else 65533 :: utf8_decode r
  end.

(** [str.isspace()] of one code point (Unicode whitespace). *)
Definition py_isspace (c : Z) : bool :=
  ((9 <=? c) && (c <=? 13)) || ((28 <=? c) && (c <=? 32)) || (c =? 133) || (c =? 160)
  || (c =? 5760) || ((8192 <=? c) && (c <=? 8202)) || (c =? 8232) || (c =? 8233)
  || (c =? 8239) || (c =? 8287) || (c =? 12288).

(** The digit zero of each of the 66 runs of Unicode decimal digits
    (category Nd, Unicode 14.0 as in CPython 3.11); a run holds the digits
    0 to 9 at consecutive code points. *)
Definition decimal_zeros : list Z :=
  [48; 1632; 1776; 1984; 2406; 2534; 2662; 2790; 2918; 3046; 3174; 3302; 3430;
   3558; 3664; 3792; 3872; 4160; 4240; 6112; 6160; 6470; 6608; 6784; 6800; 6992;
   7088; 7232; 7248; 42528; 43216; 43264; 43472; 43504; 43600; 44016; 65296;
   66720; 68912; 69734; 69872; 69942; 70096; 70384; 70736; 70864; 71248; 71360;
   71472; 71904; 72016; 72784; 73040; 73120; 92768; 92864; 93008; 120782; 120792;
   120802; 120812; 120822; 123200; 123632; 125264; 130032].

(** [Py_UNICODE_TODECIMAL]: the value of a decimal digit. *)
Definition py_decimal (c : Z) : option Z :=
  match find (fun z => (z <=? c) && (c <? z + 10)) decimal_zeros with
  | Some z => Some (c - z)
  | None => None
  end.

(** [str.isdecimal()] of one code point; [\d] of a [str] pattern. *)
Definition is_decimal (c : Z) : bool :=
  match py_decimal c with Some _ => true | None => false end.

(** [_PyUnicode_TransformDecimalAndSpaceToASCII], one code point: ASCII is
    kept, whitespace becomes a space, a decimal digit its ASCII digit, and
    anything else ['?']. *)
Definition to_ascii_for_int (c : Z) : Z :=
  if c <? 127 then c
  else if py_isspace c then 32
  else match py_decimal c with Some d => 48 + d | None => 63 end.

(** [Py_ISSPACE]: the ASCII whitespace [PyLong_FromString] skips. *)
Definition c_isspace (c : Z) : bool := (c =? 32) || ((9 <=? c) && (c <=? 13)).

Fixpoint skip_c_space (s : list Z) : list Z :=
  match s with
  | c :: s' => if c_isspace c then skip_c_space s' else s
  | [] => []
  end.

Definition ascii_digit (c : Z) : bool := (48 <=? c) && (c <=? 57).

(** The digit scan of [PyLong_FromString] in base 10: digits with single
    underscores between them; [prev] is the character before.  It gives
    the digit values and the rest, or fails on a doubled or final
    underscore. *)
Fixpoint scan_digits (prev : Z) (s : list Z) : option (list Z * list Z) :=
  match s with
  | c :: s' =>
      if ascii_digit c then
        match scan_digits c s' with
        | Some (ds, rest) => Some ((c - 48) :: ds, rest)
        | None => None
        end
      else if c =? 95 then (if prev =? 95 then None else scan_digits 95 s')
      else if prev =? 95 then None else Some ([], s)
  | [] => if prev =? 95 then None else Some ([], [])
  end.

(** [sys.get_int_max_str_digits()], by default. *)
Definition int_max_str_digits : nat := 4300.

Definition digits_value (ds : list Z) : Z := fold_left (fun acc d => acc * 10 + d) ds 0.

(** [int(s)] of a [str] given by its code points ([PyLong_FromUnicodeObject]
    in base 10, CPython 3.11): whitespace around, an optional sign, then
    digits with single underscores between them; every failure is a
    [ValueError]. *)
Definition int_of_code_points (cs : list Z) : res Z :=
  let s := skip_c_space (map to_ascii_for_int cs) in
  let '(sign, s) := match s with
                    | c :: s' => if c =? 43 then (1, s')
                                 else if c =? 45 then (-1, s') else (1, s)
                    | [] => (1, s)
                    end in
  if match s with c :: _ => c =? 95 | [] => false end then Err ValueError
  else
    match scan_digits 0 s with
    | None => Err ValueError
    | Some (ds, rest) =>
        if (List.length ds =? 0)%nat || (int_max_str_digits <? List.length ds)%nat
        then Err ValueError
        else match skip_c_space rest with
             | [] => Ok (sign * digits_value ds)
             | _ :: _ => Err ValueError
             end
    end.

(** [int(s)] of a [str]. *)
Definition int_of_string (s : string) : res Z :=
  int_of_code_points (utf8_decode (list_ascii_of_string s)).

(* ------------------------------------------------------------------ *)
(** ** parse_duration_iso8601 *)

(** The regular expression [^PT(?:(\d+)H)?(?:(\d+)M)?(?:(\d+)S)?$] run
    by [re.match] with Python's backtracking order: a greedy [\d+] tries
    its longest run first, an optional group tries to match before it is
    skipped, and [$] matches at the end of the string or before a final
    newline.  It runs over the code points of the string, where [\d] is a
    Unicode decimal digit ([is_decimal]). *)

(** [\d*] at the start of [s]: every split (digits, rest), longest first. *)
Fixpoint star_digits (s : list Z) : list (list Z * list Z) :=
  match s with
  | [] => [([], [])]
  | x :: s' =>
      if is_decimal x
      then map (fun p => (x :: fst p, snd p)) (star_digits s') ++ [([], s)]
      else [([], s)]
  end.

(** [\d+]. *)
Definition plus_digits (s : list Z) : list (list Z * list Z) :=
  match s with
  | x :: s' => if is_decimal x then map (fun p => (x :: fst p, snd p)) (star_digits s') else []
  | [] => []
  end.

(** [(?:(\d+)c)?]: the ways to match, in the order they are tried. *)
Definition opt_group (c : Z) (s : list Z) : list (option (list Z) * list Z) :=
  flat_map (fun p =>
              match snd p with
              | y :: r => if y =? c then [(Some (fst p), r)] else []
              | [] => []
              end) (plus_digits s)
  ++ [(None, s)].

(** [$] (without MULTILINE). *)
Definition dollar (s : list Z) : bool :=
  match s with
  | [] => true
  | [x] => x =? 10
  | _ => false
  end.

Definition groups := (option (list Z) * option (list Z) * option (list Z))%type.

(** All successful matches, the first one being the one [re.match] returns
    (the letters [P T H M S] are the code points 80, 84, 72, 77, 83). *)
Definition duration_matches (s : list Z) : list groups :=
  match s with
  | p :: t :: s1 =>
      if (p =? 80) && (t =? 84) then
        flat_map (fun gh =>
          flat_map (fun gm =>
            flat_map (fun gs =>
              if dollar (snd gs) then [(fst gh, fst gm, fst gs)] else [])
            (opt_group 83 (snd gm)))
          (opt_group 77 (snd gh)))
        (opt_group 72 s1)
      else []
  | _ => []
  end.

(** [int(m.group(i) or 0)]. *)
Definition group_value (g : option (list Z)) : res Z :=
  match g with Some ds => int_of_code_points ds | None => Ok 0 end.

(** [parse_duration_iso8601(duration)]; [None] stands for [duration or ""]
    with a falsy [duration]. *)
Definition parse_duration_iso8601 (duration : option string) : res Z :=
  let s := match duration with Some d => d | None => "" end in
  match duration_matches (utf8_decode (list_ascii_of_string s)) with
  | [] => Ok 0
  | (gh, gm, gs) :: _ =>
      let* h := group_value gh in
      let* m := group_value gm in
      let* sec := group_value gs in
      Ok (h * 3600 + m * 60 + sec)
  end.

(* ------------------------------------------------------------------ *)
(** ** HTTP and try_request *)

(** The JSON of a search page: for each item, [item["id"]["videoId"]] when
    the id has a [videoId] key, and [nextPageToken] ([None] when absent
    or null). *)
Record search_page := mkpage {
  items : list (option string);
  nextPageToken : option string
}.

Inductive body :=
| BJson (p : search_page)
| BText (s : string).   (* a body that does not decode as JSON *)

Record response := mkresp {
  status_code : Z;
  reason : string;
  content : body
}.

(** A request: the url and the [params] dict, in insertion order. *)
Record request := mkreq { req_url : string; req_params : list (string * pyval) }.

(** What [requests.get] does: a response, or a [RequestException]
    (connection error, timeout, ...) with its message. *)
Inductive outcome :=
| Got (r : response)
| RequestException (msg : string).

(** [p[k] = v] on a dict: an existing key keeps its place. *)
Fixpoint dict_set (d : list (string * pyval)) (k : string) (v : pyval)
  : list (string * pyval) :=
  match d with
  | [] => [(k, v)]
  | (k', v') :: d' => if String.eqb k k' then (k, v) :: d' else (k', v') :: dict_set d' k v
  end.

Fixpoint dict_get (d : list (string * pyval)) (k : string) : option pyval :=
  match d with
  | [] => None
  | (k', v) :: d' => if String.eqb k k' then Some v else dict_get d' k
  end.

(** The response built in the [except requests.exceptions.RequestException]
    branch. *)
Definition exception_response (msg : string) : response :=
  mkresp 500 "Request Exception" (BText msg).

(** The request sent with credential [key]. *)
Definition keyed_request (url : string) (params : list (string * pyval)) (key : string)
  : request :=
  mkreq url (dict_set params "key" (PyStr key)).

Section TryRequest.

(** The network: the outcome of [requests.get] for a request. *)
Variable send : request -> outcome.

(** The [for key in API_KEYS] loop of [try_request], with [last_response];
    it also returns the requests sent, in order. *)
Fixpoint try_request_loop (url : string) (params : list (string * pyval))
    (keys : list string) (last_response : option response)
  : option response * list request :=
  match keys with
  | [] => (last_response, [])
  | key :: keys' =>
      let req := keyed_request url params key in
      match send req with
      | Got r =>
          if status_code r =? 200 then (Some r, [req])
          else let '(res, log) := try_request_loop url params keys' (Some r) in
               (res, req :: log)
      | RequestException msg =>
          let '(res, log) :=
            try_request_loop url params keys' (Some (exception_response msg)) in
          (res, req :: log)
      end
  end.

(** [try_request(url, params)] with [API_KEYS = keys]. *)
Definition try_request (keys : list string) (url : string) (params : list (string * pyval))
  : option response * list request :=
  try_request_loop url params keys None.

End TryRequest.

(* ------------------------------------------------------------------ *)
(** ** youtube_search *)

Definition YOUTUBE_SEARCH_URL := "https://www.googleapis.com/youtube/v3/search".

(** [{"videoId": ..., "sourceKeyword": query}]. *)
Record tagged := mktag { tag_videoId : string; tag_sourceKeyword : string }.

(** Python truthiness of a [Response]: [Response.__bool__] is [self.ok]. *)
Definition response_truthy (r : response) : bool := status_code r <? 400.

(** Python truthiness of a page token. *)
Definition token_truthy (t : option string) : bool :=
  match t with Some s => negb (String.eqb s "") | None => false end.

(** The [for item in data.get("items", [])] loop. *)
Definition tag_items (query : string) (its : list (option string)) : list tagged :=
  flat_map (fun it => match it with Some v => [mktag v query] | None => [] end) its.

(** [{"part": ..., "q": query, ..., **kwargs}]. *)
Definition search_params (query : string) (kwargs : list (string * pyval))
  : list (string * pyval) :=
  fold_left (fun d kv => dict_set d (fst kv) (snd kv)) kwargs
    [("part", PyStr "snippet"); ("q", PyStr query); ("type", PyStr "video");
     ("maxResults", PyInt 50); ("order", PyStr "date")].

(** [if page_token: params["pageToken"] = page_token]. *)
Definition with_page_token (params : list (string * pyval)) (page_token : option string)
  : list (string * pyval) :=
  match page_token with
  | Some t => if token_truthy page_token then dict_set params "pageToken" (PyStr t) else params
  | None => params
  end.

Section Search.

Variable send : request -> outcome.
Variable API_KEYS : list string.
Variable query : string.

(** One turn of the [while True] loop and the rest of the loop, with at
    most [fuel] turns ([None] when the fuel runs out).  The loop state is
    [params] (mutated in place by Python), [page_token] and the
    accumulator; the result carries the [params] of every [try_request]
    call, in order. *)
Fixpoint search_loop (fuel : nat) (params : list (string * pyval))
    (page_token : option string) (acc : list tagged)
  : option (res (list tagged) * list (list (string * pyval))) :=
  match fuel with
  | O => None
  | S fuel' =>
      let params := with_page_token params page_token in
      match fst (try_request send API_KEYS YOUTUBE_SEARCH_URL params) with
      | None => Some (Ok acc, [params])
      | Some r =>
          if negb (response_truthy r) || negb (status_code r =? 200)
          then Some (Ok acc, [params])
          else
            match content r with
            | BText _ => Some (Err JSONDecodeError, [params])
            | BJson data =>
                let acc := (acc ++ tag_items query (items data))%list in
                let page_token := nextPageToken data in
                if negb (token_truthy page_token) then Some (Ok acc, [params])
                else
                  let stop :=
                    match dict_get params "maxResults" with
                    | Some (PyInt n) => Ok (n <=? Z.of_nat (List.length acc))
                    | Some _ => Err TypeError   (* int >= non-int *)
                    | None => Ok (50 <=? Z.of_nat (List.length acc))
                    end in
                  match stop with
                  | Err e => Some (Err e, [params])
                  | Ok true => Some (Ok acc, [params])
                  | Ok false =>
                      match search_loop fuel' params page_token acc with
                      | Some (res, log) => Some (res, params :: log)
                      | None => None
                      end
                  end
            end
      end
  end.

(** [youtube_search(query, **kwargs)]. *)
Definition youtube_search (fuel : nat) (kwargs : list (string * pyval))
  : option (res (list tagged) * list (list (string * pyval))) :=
  search_loop fuel (search_params query kwargs) None [].

End Search.

(* ------------------------------------------------------------------ *)
(** ** simulate_sentiment_analysis *)

(** A finite binary64 value [f_mant * 2 ^ f_exp]. *)
Record float64 := mkf { f_mant : Z; f_exp : Z }.

(** [n / d] rounded to the nearest integer, ties to even ([0 <= n], [0 < d]). *)
Definition round_half_even (n d : Z) : Z :=
  let q := n / d in
  let r := n mod d in
  match Z.compare (2 * r) d with
  | Lt => q
  | Gt => q + 1
  | Eq => if Z.even q then q else q + 1
  end.

(** [(n, d)] with [n / d = a / b * 2 ^ (- e)]. *)
Definition scale (a b e : Z) : Z * Z :=
  if e <=? 0 then (a * 2 ^ (- e), b) else (a, b * 2 ^ e).

(** The exponent of the last mantissa bit of [a / b] ([0 < a], [0 < b]):
    [a / b * 2 ^ (- e)] lies in [[2^52, 2^53)], or [e = -1074] (subnormal). *)
Definition binary64_exponent (a b : Z) : Z :=
  let e0 := Z.log2 a - Z.log2 b - 52 in
  let '(n, d) := scale a b e0 in
  let e1 := if n / d <? 2 ^ 52 then e0 - 1 else e0 in
  Z.max e1 (-1074).

(** Python's [int / int]: the correctly rounded binary64 quotient,
    [ZeroDivisionError] for a zero divisor, [OverflowError] when the
    rounded result is not finite. *)
Definition int_true_div (a b : Z) : res float64 :=
  if b =? 0 then Err ZeroDivisionError
  else
    let sg := Z.sgn a * Z.sgn b in
    let a' := Z.abs a in
    let b' := Z.abs b in
    if a' =? 0 then Ok (mkf 0 0)
    else
      let e := binary64_exponent a' b' in
      let '(n, d) := scale a' b' e in
      let m := round_half_even n d in
      if (0 <=? e) && (2 ^ 1024 <=? m * 2 ^ e) then Err OverflowError
      else Ok (mkf (sg * m) e).

(** [x > k] and [x < k] for a float [x] and an int [k]. *)
Definition float_gt_int (x : float64) (k : Z) : bool :=
  if 0 <=? f_exp x then k <? f_mant x * 2 ^ f_exp x
  else k * 2 ^ (- f_exp x) <? f_mant x.

Definition float_lt_int (x : float64) (k : Z) : bool :=
  if 0 <=? f_exp x then f_mant x * 2 ^ f_exp x <? k
  else f_mant x <? k * 2 ^ (- f_exp x).

(** [simulate_sentiment_analysis(likes, comments)]. *)
Definition simulate_sentiment_analysis (likes comments : Z) : res string :=
  if (likes =? 0) && (comments =? 0) then Ok "Neutral"
  else
    let* ratio := int_true_div likes (comments + 1) in
    if float_gt_int ratio 10 then Ok "Positive"
    else if float_lt_int ratio 1 then Ok "Negative"
    else Ok "Neutral".

(* ------------------------------------------------------------------ *)
(** ** The [videos] table and db_upsert_videos *)

(** SQLite values. *)
Inductive sqlval := SNull | SText (s : string) | SInt (z : Z).

(** A row of [videos]; [serial] holds the integers this code writes. *)
Record row := mkrow {
  videoId : string;
  title : sqlval; channel : sqlval; channelId : sqlval;
  publishedAt : sqlval;
  views : sqlval; likes : sqlval; comments : sqlval;
  category : sqlval; duration : sqlval; liveStatus : sqlval;
  url : sqlval; thumbnail : sqlval;
  firstSeenSource : sqlval; lastUpdated : sqlval;
  sentiment : sqlval; sourceKeyword : sqlval;
  serial : Z
}.

(** The table, in rowid order. *)
Definition table := list row.

(** [dt.isoformat(" ")], the text sqlite3's default adapter binds for a
    [datetime]. *)
Definition isoformat_sp (dt : datetime) : string :=
  zpad 4 (dt_year dt) ++ "-" ++ zpad 2 (dt_month dt) ++ "-" ++ zpad 2 (dt_day dt)
  ++ " " ++ zpad 2 (dt_hour dt) ++ ":" ++ zpad 2 (dt_minute dt) ++ ":"
  ++ zpad 2 (dt_second dt)
  ++ (if dt_microsecond dt =? 0 then "" else "." ++ zpad 6 (dt_microsecond dt))
  ++ match dt_utcoffset dt with
     | None => ""
     | Some o =>
         let a := Z.abs o in
         (if o <? 0 then "-" else "+") ++ zpad 2 (a / 3600) ++ ":"
         ++ zpad 2 ((a mod 3600) / 60)
         ++ (if a mod 60 =? 0 then "" else ":" ++ zpad 2 (a mod 60))
     end.

(** A Python value bound to a [?] placeholder. *)
Definition bind_param (v : pyval) : sqlval :=
  match v with
  | PyNone => SNull
  | PyStr s => SText s
  | PyInt z => SInt z
  | PyDatetime dt => SText (isoformat_sp dt)
  end.

(** Storing into a TEXT column: an integer becomes its decimal text. *)
Definition text_affinity (v : sqlval) : sqlval :=
  match v with SInt z => SText (int_str z) | _ => v end.

(** [int(x or 0)]. *)
Definition int_or0 (v : pyval) : res Z :=
  match v with
  | PyNone => Ok 0
  | PyInt z => Ok z
  | PyStr s => if String.eqb s "" then Ok 0 else int_of_string s
  | PyDatetime _ => Err TypeError
  end.

(** A batch record: [r["videoId"]] and the rest of the dict. *)
Record video_in := mkin { in_videoId : string; in_fields : list (string * pyval) }.

(** [r.get(k, default)]. *)
Definition rget (r : video_in) (k : string) (default : pyval) : pyval :=
  match dict_get (in_fields r) k with Some v => v | None => default end.

(** The parameters shared by the UPDATE and the INSERT, evaluated left to
    right as in the Python tuples. *)
Record written := mkw {
  w_title : sqlval; w_channel : sqlval; w_channelId : sqlval;
  w_publishedAt : string;
  w_views : Z; w_likes : Z; w_comments : Z;
  w_category : sqlval; w_duration : Z;
  w_liveStatus : sqlval; w_url : sqlval; w_thumbnail : sqlval;
  w_sentiment : sqlval; w_sourceKeyword : sqlval
}.

(** sqlite3 binds a Python int as a 64-bit INTEGER: [execute] raises
    [OverflowError] for one outside [-2^63, 2^63), before the statement
    runs. *)
Definition in_int64 (z : Z) : bool := (- 2 ^ 63 <=? z) && (z <? 2 ^ 63).

Definition param_ok (v : sqlval) : bool :=
  match v with SInt z => in_int64 z | _ => true end.

(** The parameters of [written] bind. *)
Definition written_ok (w : written) : bool :=
  forallb param_ok
    [w_title w; w_channel w; w_channelId w; SInt (w_views w); SInt (w_likes w);
     SInt (w_comments w); w_category w; SInt (w_duration w); w_liveStatus w;
     w_url w; w_thumbnail w; w_sentiment w; w_sourceKeyword w].

Section Upsert.

(** The machine's local UTC offset and the time [utcnow()] returns during
    the call. *)
Variable local_offset : Z.
Variable now : datetime.

Definition eval_written (r : video_in) : res written :=
  let* pub := ensure_sql_utc_string local_offset now (rget r "publishedAt" PyNone) in
  let* vws := int_or0 (rget r "views" (PyInt 0)) in
  let* lks := int_or0 (rget r "likes" (PyInt 0)) in
  let* cms := int_or0 (rget r "comments" (PyInt 0)) in
  let* dur := int_or0 (rget r "duration" (PyInt 0)) in
  Ok (mkw (bind_param (rget r "title" (PyStr ""))) (bind_param (rget r "channel" (PyStr "")))
          (bind_param (rget r "channelId" (PyStr ""))) pub vws lks cms
          (bind_param (rget r "category" (PyStr ""))) dur
          (bind_param (rget r "liveStatus" (PyStr ""))) (bind_param (rget r "url" (PyStr "")))
          (bind_param (rget r "thumbnail" (PyStr "")))
          (bind_param (rget r "sentiment" PyNone))
          (bind_param (rget r "sourceKeyword" PyNone))).

(** [UPDATE videos SET ... sourceKeyword=COALESCE(sourceKeyword, ?) WHERE videoId=?]. *)
Definition update_row (vid : string) (now_str : string) (w : written) (x : row) : row :=
  if String.eqb (videoId x) vid then
    mkrow (videoId x) (text_affinity (w_title w)) (text_affinity (w_channel w))
      (text_affinity (w_channelId w)) (SText (w_publishedAt w))
      (SInt (w_views w)) (SInt (w_likes w)) (SInt (w_comments w))
      (text_affinity (w_category w)) (SInt (w_duration w))
      (text_affinity (w_liveStatus w)) (text_affinity (w_url w))
      (text_affinity (w_thumbnail w))
      (firstSeenSource x) (SText now_str) (text_affinity (w_sentiment w))
      (match sourceKeyword x with
       | SNull => text_affinity (w_sourceKeyword w)
       | k => k
       end)
      (serial x)
  else x.

(** [SELECT COALESCE(MAX(serial), 0) FROM videos]. *)
Definition max_serial (t : table) : Z :=
  match t with
  | [] => 0
  | x :: t' => fold_left (fun m y => Z.max m (serial y)) t' (serial x)
  end.

(** [INSERT INTO videos ...]: the PRIMARY KEY on [videoId] and UNIQUE on
    [serial] are checked. *)
Definition insert_row (t : table) (x : row) : res table :=
  if existsb (fun y => String.eqb (videoId y) (videoId x)) t
     || existsb (fun y => serial y =? serial x) t
  then Err IntegrityError
  else Ok (t ++ [x])%list.

(** The row of the [INSERT INTO videos (...) VALUES (...)]. *)
Definition insert_values (now_str : string) (r : video_in) (w : written) (serial : Z) : row :=
  mkrow (in_videoId r) (text_affinity (w_title w)) (text_affinity (w_channel w))
    (text_affinity (w_channelId w)) (SText (w_publishedAt w))
    (SInt (w_views w)) (SInt (w_likes w)) (SInt (w_comments w))
    (text_affinity (w_category w)) (SInt (w_duration w))
    (text_affinity (w_liveStatus w)) (text_affinity (w_url w))
    (text_affinity (w_thumbnail w))
    (text_affinity (bind_param (rget r "sourceKeyword" (PyStr "pull"))))
    (SText now_str) (text_affinity (w_sentiment w))
    (text_affinity (w_sourceKeyword w)) serial.

(** The body of [for r in rows]. *)
Definition upsert_one (now_str : string) (existing_ids : list string) (t : table)
    (r : video_in) : res table :=
  let vid := in_videoId r in
  if existsb (String.eqb vid) existing_ids then
    let* w := eval_written r in
    if written_ok w then Ok (map (update_row vid now_str w) t) else Err OverflowError
  else
    let serial := max_serial t + 1 in
    let* w := eval_written r in
    if written_ok w && param_ok (bind_param (rget r "sourceKeyword" (PyStr "pull")))
       && in_int64 serial
    then insert_row t (insert_values now_str r w serial)
    else Err OverflowError.

Fixpoint upsert_loop (now_str : string) (existing_ids : list string) (t : table)
    (rows : list video_in) : res table :=
  match rows with
  | [] => Ok t
  | r :: rows' =>
      let* t' := upsert_one now_str existing_ids t r in
      upsert_loop now_str existing_ids t' rows'
  end.

(** [SELECT videoId FROM videos WHERE videoId IN (...)]. *)
Definition existing_ids_of (t : table) (rows : list video_in) : list string :=
  filter (fun v => existsb (String.eqb v) (map in_videoId rows)) (map videoId t).

(** [db_upsert_videos(conn, rows)]: the table after [conn.commit()], or the
    exception that escapes (nothing is committed then). *)
Definition db_upsert_videos (t : table) (rows : list video_in) : res table :=
  let* now_str := to_sql_utc_string local_offset now in
  upsert_loop now_str (existing_ids_of t rows) t rows.

End Upsert.

Definition now_ex : datetime := mkdt 2025 1 2 3 4 5 0 (Some 0).
Definition rec_ex (v : string) (n : Z) : video_in :=
  mkin v [("publishedAt", PyStr "2024-05-01T10:00:00Z"); ("views", PyInt n);
          ("sourceKeyword", PyStr "cisf")].

(* ------------------------------------------------------------------ *)
(** ** The credential rotation contract *)

(** The response or failure descriptor a credential's attempt yields. *)
Definition outcome_response (o : outcome) : response :=
  match o with Got r => r | RequestException msg => exception_response msg end.

Definition outcome_ok (o : outcome) : bool :=
  match o with Got r => status_code r =? 200 | RequestException _ => false end.

(* ------------------------------------------------------------------ *)
(** ** The sentiment rule, in the spec's words *)

(** The classification by the exact ratio [likes / (comments + 1)]:
    [ratio > 10] is [10 * (comments + 1) < likes] and [ratio < 1] is
    [likes < comments + 1]. *)
Definition claimed_sentiment (likes comments : Z) : string :=
  if (likes =? 0) && (comments =? 0) then "Neutral"
  else if 10 * (comments + 1) <? likes then "Positive"
  else if likes <? comments + 1 then "Negative"
  else "Neutral".

(* ------------------------------------------------------------------ *)
(** ** The pagination contract of the search, in the spec's words *)

Section SearchSpec.

Variable send : request -> outcome.
Variable API_KEYS : list string.
Variable query : string.

(** The search page fetched with [params]. *)
Definition fetch_page (params : list (string * pyval)) : option response :=
  fst (try_request send API_KEYS YOUTUBE_SEARCH_URL params).

(** [search_spec params acc ids]: starting from the page requested with
    [params] and the ids [acc] accumulated so far, the search returns
    [ids]: it stops with [acc] on a failing response; otherwise it adds
    the page's tagged ids, and stops when there is no next-page token or
    the count reached 50, else follows the token. *)
Inductive search_spec : list (string * pyval) -> list tagged -> list tagged -> Prop :=
| search_fail : forall params acc,
    match fetch_page params with Some r => status_code r <> 200 | None => True end ->
    search_spec params acc acc
| search_stop : forall params acc r data,
    fetch_page params = Some r -> status_code r = 200 -> content r = BJson data ->
    (token_truthy (nextPageToken data) = false
     \/ (50 <= List.length (acc ++ tag_items query (items data)))%nat) ->
    search_spec params acc (acc ++ tag_items query (items data))%list
| search_next : forall params acc r data t ids,
    fetch_page params = Some r -> status_code r = 200 -> content r = BJson data ->
    nextPageToken data = Some t -> t <> "" ->
    (List.length (acc ++ tag_items query (items data)) < 50)%nat ->
    search_spec (dict_set params "pageToken" (PyStr t)) (acc ++ tag_items query (items data))%list ids ->
    search_spec params acc ids.

End SearchSpec.

(* ------------------------------------------------------------------ *)
(** ** Concrete inputs *)

Definition res_table (x : res table) : table := match x with Ok t => t | Err _ => [] end.

Definition blank_row : row :=
  mkrow "" SNull SNull SNull SNull SNull SNull SNull SNull SNull SNull SNull SNull SNull
    SNull SNull SNull 0.

Definition batch_ex : list video_in := [rec_ex "A" 1; rec_ex "B" 2; rec_ex "C" 3].

(** The table after ingesting [A, B, C] into an empty table. *)
Definition table_ex : table :=
  Eval vm_compute in res_table (db_upsert_videos 0 now_ex [] batch_ex).

(** A refresh of [B] without a keyword. *)
Definition refresh_B : list video_in :=
  [mkin "B" [("publishedAt", PyStr "2024-05-01T10:00:00Z"); ("views", PyInt 9);
             ("sourceKeyword", PyNone)]].

Definition table_ex_B : table :=
  Eval vm_compute in res_table (db_upsert_videos 0 now_ex table_ex refresh_B).

Definition row_B : row := Eval vm_compute in nth 1 table_ex blank_row.

Definition now_str_ex : string := "2025-01-02 03:04:05".

Definition table_ex_B1 : table :=
  Eval vm_compute in res_table (upsert_one 0 now_ex now_str_ex ["B"] table_ex
                                  (mkin "B" [("publishedAt", PyStr "2021-06-01 00:00:00")])).

Definition dt_ex : datetime := mkdt 2024 3 5 1 2 3 0 (Some 19800).

Definition table_ex_D : table :=
  Eval vm_compute in res_table (upsert_one 0 now_ex now_str_ex [] table_ex
                                  (mkin "D" [("publishedAt", PyDatetime dt_ex)])).

(** Three credentials: the first two answer 403, the third 200. *)
Definition resp_403 : response := mkresp 403 "Forbidden" (BText "quotaExceeded").

Definition resp_200 : response := mkresp 200 "OK" (BJson (mkpage [Some "v1"] None)).

Definition send_rotation_ex (req : request) : outcome :=
  match dict_get (req_params req) "key" with
  | Some (PyStr k) => if String.eqb k "k3" then Got resp_200 else Got resp_403
  | _ => RequestException "no key"
  end.

(** One search page of ten items and no next-page token. *)
Definition vids10 : list string := ["a"; "b"; "c"; "d"; "e"; "f"; "g"; "h"; "i"; "j"].

Definition resp_page10 : response :=
  mkresp 200 "OK" (BJson (mkpage (map Some vids10) None)).

Definition send_page10 (req : request) : outcome := Got resp_page10.

(* ================================================================== *)
(** [range(start, stop, step)]: [ValueError] for a zero step; the length
    is CPython's [compute_range_length]. *)
Definition py_range (start stop step : Z) : res (list Z) :=
  if step =? 0 then Err ValueError
  else
    let len := if 0 <? step then (if start <? stop then 1 + (stop - 1 - start) / step else 0)
               else (if stop <? start then 1 + (start - 1 - stop) / (- step) else 0) in
    Ok (map (fun k => start + Z.of_nat k * step) (seq 0 (Z.to_nat len))).

(** A slice bound [i] of a sequence of length [L]: a negative bound counts
    from the end, and the result is clamped to [0..L]. *)
Definition slice_bound (L i : Z) : Z :=
  if i <? 0 then Z.max 0 (i + L) else Z.min i L.

(** [xs[a:b]]. *)
Definition py_slice {A} (xs : list A) (a b : Z) : list A :=
  let L := Z.of_nat (List.length xs) in
  let a' := slice_bound L a in
  let b' := slice_bound L b in
  firstn (Z.to_nat (b' - a')) (skipn (Z.to_nat a') xs).

(** [chunked(iterable, n)], with all its batches collected (the callers
    run through the whole generator). *)
Definition chunked {A} (iterable : list A) (n : Z) : res (list (list A)) :=
  let* is := py_range 0 (Z.of_nat (List.length iterable)) n in
  Ok (map (fun i => py_slice iterable i (i + n)) is).

(** [dt.strftime("%Y-%m-%dT%H:%M:%SZ")]. *)
Definition strftime_rfc (dt : datetime) : string :=
  strftime_Y (dt_year dt) ++ "-" ++ zpad 2 (dt_month dt) ++ "-" ++ zpad 2 (dt_day dt)
  ++ "T" ++ zpad 2 (dt_hour dt) ++ ":" ++ zpad 2 (dt_minute dt) ++ ":"
  ++ zpad 2 (dt_second dt) ++ "Z".

(** [to_rfc3339_z(dt)]. *)
Definition to_rfc3339_z (local_offset : Z) (dt : datetime) : res string :=
  let* u := astimezone_utc local_offset dt in Ok (strftime_rfc u).

(** Seconds since 1970-01-01 00:00 of the wall-clock fields. *)
Definition epoch_seconds (dt : datetime) : Z :=
  days_from_civil (dt_year dt) (dt_month dt) (dt_day dt) * 86400
  + dt_hour dt * 3600 + dt_minute dt * 60 + dt_second dt.

(** The UTC offset [astimezone] reads a datetime with. *)
Definition offset_of (local_offset : Z) (dt : datetime) : Z :=
  match dt_utcoffset dt with Some o => o | None => local_offset end.

(** The day of the era of a year of era, month and day. *)
Definition doe_of (yoe m d : Z) : Z :=
  yoe * 365 + yoe / 4 - yoe / 100 + (153 * ((m + 9) mod 12) + 2) / 5 + d - 1.

(** The RFC 3339 text of a [%Y-%m-%d %H:%M:%S] string: the space
    becomes [T] and [Z] is appended. *)
Definition sp_to_T (c : ascii) : ascii := if Ascii.eqb c " "%char then "T"%char else c.

Definition rfc_of_sql (s : string) : string :=
  string_of_list_ascii (map sp_to_T (list_ascii_of_string s)) ++ "Z".

(** A component [nc] of [PT[nH][nM][nS]]: [n] given as its code points. *)
Definition dur_part (g : option (list Z)) (c : Z) : list Z :=
  match g with Some ds => (ds ++ [c])%list | None => [] end.

(** An optional part is absent, or a run of 1 to 4300 decimal digits. *)
Definition digits_ok (g : option (list Z)) : bool :=
  match g with
  | Some ds => negb (List.length ds =? 0)%nat && (List.length ds <=? int_max_str_digits)%nat
               && forallb is_decimal ds
  | None => true
  end.

(** The number a part stands for: its digits' decimal values, read in
    base 10 (0 when absent). *)
Definition dec_value (g : option (list Z)) : Z :=
  match g with
  | Some ds => digits_value (map (fun c => match py_decimal c with Some d => d | None => 0 end) ds)
  | None => 0
  end.

(** What may follow an absent component [c]: nothing, or a run of digits
    ended by another code point. *)
Definition after_ok (c : Z) (t : list Z) : Prop :=
  t = [] \/ exists ds y r, t = (ds ++ y :: r)%list /\ forallb is_decimal ds = true
                           /\ is_decimal y = false /\ y <> c.

(** Quick Update: [[obj for obj in latest_video_objs if obj['videoId'] not
    in seen_ids and not seen_ids.add(obj['videoId'])]], with the set
    [seen_ids] threaded through the comprehension. *)
Fixpoint unique_latest (seen_ids : list string) (objs : list tagged) : list tagged :=
  match objs with
  | [] => []
  | obj :: objs' =>
      if existsb (String.eqb (tag_videoId obj)) seen_ids
      then unique_latest seen_ids objs'
      else obj :: unique_latest (tag_videoId obj :: seen_ids) objs'
  end.

(** Order-preserving sublists. *)
Inductive subseq {A : Type} : list A -> list A -> Prop :=
| subseq_nil : subseq [] []
| subseq_skip x l l' : subseq l l' -> subseq l (x :: l')
| subseq_keep x l l' : subseq l l' -> subseq (x :: l) (x :: l').

(** Text typed into the app: a Python [str], as its code points. *)
Definition text := list Z.

Fixpoint lstrip (s : text) : text :=
  match s with
  | [] => []
  | c :: s' => if py_isspace c then lstrip s' else s
  end.

(** [s.strip()]. *)
Definition strip (s : text) : text := rev (lstrip (rev (lstrip s))).

(** [s.split(sep)] for a one-character separator. *)
Fixpoint split_on (sep : Z) (s : text) : list text :=
  match s with
  | [] => [[]]
  | c :: s' =>
      if c =? sep then [] :: split_on sep s'
      else match split_on sep s' with
           | p :: ps => (c :: p) :: ps
           | [] => [[c]]
           end
  end.

(** [[q.strip() for q in queries.split(',') if q.strip()]]. *)
Definition parse_queries (queries : text) : list text :=
  map strip (filter (fun q => negb (List.length (strip q) =? 0)%nat) (split_on 44 queries)).

(** Exceptions of the API helpers and of the app code besides [exn]. *)
Inductive pyexc :=
| Raised (e : exn)
| KeyError          (* d[k] on a dict without k *)
| AttributeError    (* x.get(...) on a value that is not a dict *)
| IndexError.       (* xs[0] on an empty list *)

Inductive pres (A : Type) := POk (a : A) | PErr (e : pyexc).
Arguments POk {A} a.
Arguments PErr {A} e.

Definition pbind {A B} (c : pres A) (k : A -> pres B) : pres B :=
  match c with POk a => k a | PErr e => PErr e end.

Notation "'let%' x ':=' c 'in' k" := (pbind c (fun x => k))
  (at level 200, x name, c at level 100, k at level 200).

Definition lift {A} (c : res A) : pres A :=
  match c with Ok a => POk a | Err e => PErr (Raised e) end.

Definition text_eqb (a b : text) : bool :=
  if list_eq_dec Z.eq_dec a b then true else false.

(** [s.add(x)] on a set of strings, kept as a list without repetition. *)
Definition set_add (x : text) (s : list text) : list text :=
  if existsb (text_eqb x) s then s else (s ++ [x])%list.

(** [set(xs)]. *)
Definition set_of (xs : list text) : list text := fold_left (fun s x => set_add x s) xs [].

(** The class [[a-zA-Z0-9_\-]] and the class [[a-zA-Z0-9_.-]]. *)
Definition is_id_char (c : Z) : bool :=
  ((97 <=? c) && (c <=? 122)) || ((65 <=? c) && (c <=? 90)) || ((48 <=? c) && (c <=? 57))
  || (c =? 95) || (c =? 45).

Definition is_handle_char (c : Z) : bool := is_id_char c || (c =? 46).

(** [n] characters of the class [[a-zA-Z0-9_\-]] at the start of [s]. *)
Definition id_run (n : nat) (s : text) : bool :=
  (n <=? List.length s)%nat && forallb is_id_char (firstn n s).

(** [re.search(r'(UC[a-zA-Z0-9_\-]{22})', entry)]: group 1 of the leftmost
    match. *)
Fixpoint uc_search (s : text) : option text :=
  match s with
  | [] => None
  | c :: s' =>
      if (c =? 85) && match s' with d :: r => (d =? 67) && id_run 22 r | [] => false end
      then Some (firstn 24 s)
      else uc_search s'
  end.

Fixpoint take_while (p : Z -> bool) (s : text) : text :=
  match s with [] => [] | c :: s' => if p c then c :: take_while p s' else [] end.

(** [re.search(r'@([a-zA-Z0-9_.-]+)', entry)]: group 1 of the leftmost
    match, as long as the greedy [+] makes it. *)
Fixpoint handle_search (s : text) : option text :=
  match s with
  | [] => None
  | c :: s' =>
      if (c =? 64) && match s' with d :: _ => is_handle_char d | [] => false end
      then Some (take_while is_handle_char s')
      else handle_search s'
  end.

(** [entry.startswith("UC")]. *)
Definition starts_UC (s : text) : bool :=
  match s with a :: b :: _ => (a =? 85) && (b =? 67) | _ => false end.

(** The shape of a channel id: [UC] and 22 characters of the class. *)
Definition is_channel_id (s : text) : bool :=
  (List.length s =? 24)%nat && starts_UC s && forallb is_id_char (skipn 2 s).

Section Watchlist.

(** [get_channel_id_from_handle(handle)]: a channel id, [None], or the
    exception it raises. *)
Variable get_channel_id_from_handle : text -> pres (option text).

(** One pass of [for entry in current_watchlist_entries] on the pair
    [(watchlist_ids, unparsed_entries)]. *)
Definition watch_entry (acc : list text * list text) (entry : text)
  : pres (list text * list text) :=
  let (watchlist_ids, unparsed_entries) := acc in
  let entry := strip entry in
  if (List.length entry =? 0)%nat then POk acc
  else
    let uc_match := uc_search entry in
    let handle_match := handle_search entry in
    match uc_match with
    | Some g => POk (set_add g watchlist_ids, unparsed_entries)
    | None =>
        match handle_match with
        | Some handle =>
            let% channel_id := get_channel_id_from_handle handle in
            match channel_id with
            | Some c =>
                if negb (List.length c =? 0)%nat then POk (set_add c watchlist_ids, unparsed_entries)
                else POk (watchlist_ids, (unparsed_entries ++ [entry])%list)
            | None => POk (watchlist_ids, (unparsed_entries ++ [entry])%list)
            end
        | None =>
            if (List.length entry =? 24)%nat && starts_UC entry
            then POk (set_add entry watchlist_ids, unparsed_entries)
            else POk (watchlist_ids, (unparsed_entries ++ [entry])%list)
        end
    end.

Fixpoint watch_loop (acc : list text * list text) (entries : list text)
  : pres (list text * list text) :=
  match entries with
  | [] => POk acc
  | e :: es => let% acc' := watch_entry acc e in watch_loop acc' es
  end.

(** The watch list tab: [(watchlist_ids, unparsed_entries)] from the
    entries. *)
Definition parse_watchlist (entries : list text) : pres (list text * list text) :=
  watch_loop ([], []) entries.

End Watchlist.

(** [re.search(r"(?:v=|/)([a-zA-Z0-9_-]{11})", part)]: group 1 of the
    leftmost match. *)
Fixpoint pin_search (s : text) : option text :=
  match s with
  | [] => None
  | c :: s' =>
      if (c =? 118) && match s' with d :: r => (d =? 61) && id_run 11 r | [] => false end
      then Some (firstn 11 (tl s'))
      else if (c =? 47) && id_run 11 s' then Some (firstn 11 s')
      else pin_search s'
  end.

(** The body of [for part in st.session_state.pinned_inputs]. *)
Definition pin_part (manual_pins : list text) (part : text) : list text :=
  let part := strip part in
  if (List.length part =? 0)%nat then manual_pins
  else
    let video_id_to_add :=
      match pin_search part with
      | Some g => Some g
      | None => if (List.length part =? 11)%nat then Some part else None
      end in
    match video_id_to_add with
    | Some v => if negb (List.length v =? 0)%nat then set_add v manual_pins else manual_pins
    | None => manual_pins
    end.

(** The consolidation of the pins typed in the settings into
    [st.session_state.pinned_video_ids]. *)
Definition consolidate_pins (pinned_video_ids pinned_inputs : list text) : list text :=
  fold_left pin_part pinned_inputs (set_of pinned_video_ids).

Section WatchlistSpec.

Variable R : text -> pres (option text).

(** Where an id of the watch list comes from. *)
Definition id_source (E : list text) (id : text) : Prop :=
  exists e, In e E /\
    ((uc_search (strip e) = Some id /\ is_channel_id id = true)
     \/ (uc_search (strip e) = None
         /\ exists h, handle_search (strip e) = Some h /\ R h = POk (Some id) /\ id <> [])
     \/ (id = strip e /\ uc_search (strip e) = None /\ handle_search (strip e) = None
         /\ List.length id = 24%nat /\ starts_UC id = true /\ is_channel_id id = false)).

Definition unparsed_source (E : list text) (u : text) : Prop :=
  u <> [] /\ exists e, In e E /\ u = strip e.

Definition watch_inv (E : list text) (acc : list text * list text) : Prop :=
  NoDup (fst acc) /\ Forall (id_source E) (fst acc) /\ Forall (unparsed_source E) (snd acc).

End WatchlistSpec.

(** A pin taken from one of the inputs: 11 characters of a stripped input. *)
Definition pin_from (pinned_inputs : list text) (v : text) : Prop :=
  List.length v = 11%nat
  /\ exists part, In part pinned_inputs /\ exists p q, strip part = (p ++ v ++ q)%list.

(** A JSON value as [json.loads] returns it (the API's numbers are
    integers). *)
#[warnings="-register-all"]
Inductive json :=
| JNull
| JBool (b : bool)
| JInt (z : Z)
| JStr (s : string)
| JArr (l : list json)
| JObj (kv : list (string * json)).

(** [bool(x)]. *)
Definition json_truthy (j : json) : bool :=
  match j with
  | JNull => false
  | JBool b => b
  | JInt z => negb (z =? 0)
  | JStr s => negb (String.eqb s "")
  | JArr l => negb (List.length l =? 0)%nat
  | JObj kv => negb (List.length kv =? 0)%nat
  end.

(** The value of key [k] of a decoded object: the last one given. *)
Definition jlookup (kv : list (string * json)) (k : string) : option json :=
  fold_left (fun acc '(k', v) => if String.eqb k k' then Some v else acc) kv None.

(** [d.get(k, default)]. *)
Definition jget (d : json) (k : string) (default : json) : pres json :=
  match d with
  | JObj kv => POk (match jlookup kv k with Some v => v | None => default end)
  | _ => PErr AttributeError
  end.

(** [d[k]] on a dict. *)
Definition jindex (kv : list (string * json)) (k : string) : pres json :=
  match jlookup kv k with Some v => POk v | None => PErr KeyError end.

(** [k in x] for a string [k]. *)
Definition jcontains (x : json) (k : string) : pres bool :=
  match x with
  | JObj kv => POk (existsb (fun '(k', _) => String.eqb k k') kv)
  | JArr l => POk (existsb (fun y => match y with JStr s => String.eqb s k | _ => false end) l)
  | JStr s =>
      POk ((fix sub (t : string) : bool :=
              String.prefix k t || match t with EmptyString => false | String _ t' => sub t' end) s)
  | _ => PErr (Raised TypeError)
  end.

(** [int(x or 0)]. *)
Definition int_json (x : json) : pres Z :=
  if json_truthy x then
    match x with
    | JInt z => POk z
    | JBool _ => POk 1
    | JStr s => lift (int_of_string s)
    | _ => PErr (Raised TypeError)
    end
  else POk 0.

(** [parse_duration_iso8601(x)]: [re.match] raises [TypeError] on a
    truthy value that is not a string. *)
Definition duration_json (x : json) : pres Z :=
  if json_truthy x then
    match x with
    | JStr s => lift (parse_duration_iso8601 (Some s))
    | _ => PErr (Raised TypeError)
    end
  else lift (parse_duration_iso8601 None).

(** [repr(s)] of a string: single quotes unless it holds a single quote
    and no double quote. *)
Definition str_repr (s : string) : string :=
  let cs := list_ascii_of_string s in
  let q := if existsb (fun c => Ascii.eqb c "'"%char) cs
              && negb (existsb (fun c => Ascii.eqb c (ascii_of_nat 34)) cs)
           then ascii_of_nat 34 else "'"%char in
  let hex (n : nat) : ascii :=
    if (n <? 10)%nat then ascii_of_nat (48 + n) else ascii_of_nat (87 + n) in
  let esc (c : ascii) : list ascii :=
    let n := nat_of_ascii c in
    if Ascii.eqb c q || Ascii.eqb c "\"%char then ["\"%char; c]
    else if (n =? 9)%nat then ["\"%char; "t"%char]
    else if (n =? 10)%nat then ["\"%char; "n"%char]
    else if (n =? 13)%nat then ["\"%char; "r"%char]
    else if (n <? 32)%nat || (n =? 127)%nat
    then ["\"%char; "x"%char; hex (n / 16)%nat; hex (n mod 16)%nat]
    else [c] in
  string_of_list_ascii (q :: List.concat (map esc cs) ++ [q])%list.

(** The entries of the dict [json.loads] builds from an object: a key
    keeps the place of its first occurrence and takes its last value. *)
Definition dict_entries {V} (kv : list (string * V)) : list (string * V) :=
  fold_left (fun acc '(k, v) =>
               if existsb (fun '(k', _) => String.eqb k k') acc
               then map (fun '(k', v') => if String.eqb k k' then (k', v) else (k', v')) acc
               else (acc ++ [(k, v)])%list) kv [].

(** [repr(x)] of a decoded JSON value. *)
Fixpoint py_repr (x : json) : string :=
  match x with
  | JNull => "None"
  | JBool true => "True"
  | JBool false => "False"
  | JInt z => int_str z
  | JStr s => str_repr s
  | JArr l => "[" ++ String.concat ", " (map py_repr l) ++ "]"
  | JObj kv =>
      "{" ++ String.concat ", "
               (map (fun '(k, r) => str_repr k ++ ": " ++ r)
                    (dict_entries (map (fun '(k, v) => (k, py_repr v)) kv))) ++ "}"
  end.

(** [f"{x}"]: a string as it is, any other value as its [repr]. *)
Definition json_str (x : json) : string :=
  match x with JStr s => s | _ => py_repr x end.

(** [for item in x]: the items of a list; a string yields its characters
    and a dict its keys, strings on which [item.get] raises. *)
Definition json_iter (x : json) : pres (list json) :=
  match x with
  | JArr l => POk l
  | JStr s => POk (map (fun c => JStr (String c EmptyString)) (list_ascii_of_string s))
  | JObj kv => POk (map (fun '(k, _) => JStr k) kv)
  | _ => PErr (Raised TypeError)
  end.

(** A response of [try_request]: its status and its body decoded as JSON
    ([None] when [r.json()] raises). *)
Record api_response := mkapi { api_status : Z; api_json : option json }.

(** [r.json()]. *)
Definition response_json (r : api_response) : pres json :=
  match api_json r with Some j => POk j | None => PErr (Raised JSONDecodeError) end.

Definition YOUTUBE_VIDEO_URL := "https://www.googleapis.com/youtube/v3/videos".
Definition YOUTUBE_CHANNEL_URL := "https://www.googleapis.com/youtube/v3/channels".
Definition SHORTS_MAX_DURATION := 60.

(** An element of [video_objs]: [v['videoId']] and [v.get('sourceKeyword')]. *)
Record video_obj := mkvo { vo_videoId : string; vo_sourceKeyword : option string }.

(** A dict appended to [results] by [get_video_details]. *)
Record video_detail := mkvd {
  vd_videoId : json; vd_title : json; vd_channel : json; vd_channelId : json;
  vd_publishedAt : json; vd_views : Z; vd_likes : Z; vd_comments : Z;
  vd_category : string; vd_duration : Z; vd_liveStatus : string; vd_url : string;
  vd_thumbnail : json; vd_sourceKeyword : option string; vd_sentiment : string
}.

(** [source_keywords = {v['videoId']: v.get('sourceKeyword') for v in video_objs}]:
    a later object overwrites an earlier one with the same id. *)
Definition source_keywords (video_objs : list video_obj) (v : string) : option (option string) :=
  fold_left (fun acc o => if String.eqb (vo_videoId o) v then Some (vo_sourceKeyword o) else acc)
    video_objs None.

(** [source_keywords.get(x)]: the keys are strings, and an unhashable key
    raises [TypeError]. *)
Definition source_keywords_get (video_objs : list video_obj) (x : json) : pres (option string) :=
  match x with
  | JStr v => POk (match source_keywords video_objs v with Some k => k | None => None end)
  | JArr _ | JObj _ => PErr (Raised TypeError)
  | _ => POk None
  end.

(** The [params] of a batch of [get_video_details]. *)
Definition video_params (batch_ids : list string) : list (string * pyval) :=
  [("part", PyStr "snippet,statistics,liveStreamingDetails,contentDetails");
   ("id", PyStr (String.concat "," batch_ids))].

(** The body of [for item in data.get("items", [])] in [get_video_details]. *)
Definition video_item (video_objs : list video_obj) (item : json) : pres video_detail :=
  let% snippet := jget item "snippet" (JObj []) in
  let% stats := jget item "statistics" (JObj []) in
  let% live := jget item "liveStreamingDetails" (JObj []) in
  let% content := jget item "contentDetails" (JObj []) in
  let% d := jget content "duration" (JStr "PT0S") in
  let% duration := duration_json d in
  let category := if duration <=? SHORTS_MAX_DURATION then "Short" else "Video" in
  let% lc := jget stats "likeCount" (JInt 0) in
  let% likes := int_json lc in
  let% cc := jget stats "commentCount" (JInt 0) in
  let% comments := int_json cc in
  let% vid := match item with JObj kv => jindex kv "id" | _ => PErr AttributeError end in
  let% title := jget snippet "title" JNull in
  let% channel := jget snippet "channelTitle" JNull in
  let% channelId := jget snippet "channelId" JNull in
  let% publishedAt := jget snippet "publishedAt" JNull in
  let% vc := jget stats "viewCount" (JInt 0) in
  let% views := int_json vc in
  let% is_live := jcontains live "actualStartTime" in
  let% liveStatus :=
    if is_live then POk "LIVE"
    else let% is_up := jcontains live "scheduledStartTime" in
         POk (if is_up then "UPCOMING" else "NORMAL") in
  let url := "https://www.youtube.com/watch?v=" ++ json_str vid in
  let% th := jget snippet "thumbnails" (JObj []) in
  let% th_high := jget th "high" (JObj []) in
  let% thumbnail := jget th_high "url" JNull in
  let% kw := source_keywords_get video_objs vid in
  let% sentiment := lift (simulate_sentiment_analysis likes comments) in
  POk (mkvd vid title channel channelId publishedAt views likes comments category duration
            liveStatus url thumbnail kw sentiment).

(** A dict appended to [results] by [get_channel_details]. *)
Record channel_detail := mkcd {
  cd_channelId : json; cd_channelName : json; cd_description : json; cd_thumbnail : json;
  cd_subscriberCount : Z; cd_videoCount : Z; cd_url : string
}.

(** The params of a batch of [get_channel_details]. *)
Definition channel_params (batch_ids : list string) : list (string * pyval) :=
  [("part", PyStr "snippet,statistics"); ("id", PyStr (String.concat "," batch_ids))].

(** The body of [for item in data.get("items", [])] in [get_channel_details]. *)
Definition channel_item (item : json) : pres channel_detail :=
  let% snippet := jget item "snippet" (JObj []) in
  let% stats := jget item "statistics" (JObj []) in
  let% channelId := jget item "id" JNull in
  let% channelName := jget snippet "title" JNull in
  let% description := jget snippet "description" JNull in
  let% th := jget snippet "thumbnails" (JObj []) in
  let% th_default := jget th "default" (JObj []) in
  let% thumbnail := jget th_default "url" JNull in
  let% sc := jget stats "subscriberCount" (JInt 0) in
  let% subscriberCount := int_json sc in
  let% vc := jget stats "videoCount" (JInt 0) in
  let% videoCount := int_json vc in
  let% id := jget item "id" JNull in
  POk (mkcd channelId channelName description thumbnail subscriberCount videoCount
            ("https://www.youtube.com/channel/" ++ json_str id)).

(** [for item in items: results.append(...)]. *)
Fixpoint append_items {D} (item_fn : json -> pres D) (items : list json) (results : list D)
  : pres (list D) :=
  match items with
  | [] => POk results
  | item :: items' =>
      let% d := item_fn item in
      append_items item_fn items' (results ++ [d])%list
  end.

(** [data = r.json()] and the loop over [data.get("items", [])] of a
    response with status 200. *)
Definition append_response {D} (item_fn : json -> pres D) (r : api_response)
    (results : list D) : pres (list D) :=
  let% data := response_json r in
  let% its := jget data "items" (JArr []) in
  let% items := json_iter its in
  append_items item_fn items results.

Section Batches.

(** [try_request(url, params)]: a response, or [None] when there is no
    response at all. *)
Variable try_request_api : string -> list (string * pyval) -> option api_response.

(** [if not r or r.status_code != 200: continue]. *)
Definition api_ok (r : option api_response) : option api_response :=
  match r with Some r' => if api_status r' =? 200 then Some r' else None | None => None end.

(** The [for batch_ids in chunked(..., 50)] loop shared by
    [get_video_details] and [get_channel_details], with the params of the
    requests made, in order. *)
Fixpoint api_batches {D} (url : string) (params_of : list string -> list (string * pyval))
    (item_fn : json -> pres D) (bs : list (list string)) (results : list D)
  : pres (list D) * list (list (string * pyval)) :=
  match bs with
  | [] => (POk results, [])
  | batch_ids :: bs' =>
      let params := params_of batch_ids in
      match api_ok (try_request_api url params) with
      | None =>
          let '(res, log) := api_batches url params_of item_fn bs' results in
          (res, params :: log)
      | Some r =>
          match append_response item_fn r results with
          | POk results' =>
              let '(res, log) := api_batches url params_of item_fn bs' results' in
              (res, params :: log)
          | PErr e => (PErr e, [params])
          end
      end
  end.

(** [get_video_details(video_objs)] and the params of its requests. *)
Definition get_video_details (video_objs : list video_obj)
  : pres (list video_detail) * list (list (string * pyval)) :=
  let video_ids := map vo_videoId video_objs in
  match chunked video_ids 50 with
  | Ok bs => api_batches YOUTUBE_VIDEO_URL video_params (video_item video_objs) bs []
  | Err e => (PErr (Raised e), [])
  end.

(** [list(set(channel_ids))]: its order is the one of the set's hash
    table. *)
Variable list_of_set : list string -> list string.

(** [get_channel_details(channel_ids)] and the params of its requests. *)
Definition get_channel_details (channel_ids : list string)
  : pres (list channel_detail) * list (list (string * pyval)) :=
  match channel_ids with
  | [] => (POk [], [])
  | _ =>
      match chunked (list_of_set channel_ids) 50 with
      | Ok bs => api_batches YOUTUBE_CHANNEL_URL channel_params channel_item bs []
      | Err e => (PErr (Raised e), [])
      end
  end.

End Batches.

(** What every record of [get_video_details] satisfies. *)
Definition video_detail_ok (video_objs : list video_obj) (d : video_detail) : Prop :=
  (vd_category d = "Short" <-> vd_duration d <= SHORTS_MAX_DURATION)
  /\ simulate_sentiment_analysis (vd_likes d) (vd_comments d) = Ok (vd_sentiment d)
  /\ (vd_liveStatus d = "LIVE" \/ vd_liveStatus d = "UPCOMING" \/ vd_liveStatus d = "NORMAL")
  /\ vd_sourceKeyword d
     = match vd_videoId d with
       | JStr v =>
           match find (fun o => String.eqb (vo_videoId o) v) (rev video_objs) with
           | Some o => vo_sourceKeyword o
           | None => None
           end
       | _ => None
       end.

(** [db_get_video_ids(conn, published_after, limit, order_by_published)]:
    the query and the parameters it executes ([published_after] is
    [None] or a datetime, which is always truthy; a [limit] of 0 is
    falsy). *)
Definition db_get_video_ids_query (local_offset : Z) (published_after : option datetime)
    (limit : option Z) (order_by_published : bool) : res (string * list pyval) :=
  let query := "SELECT videoId FROM videos" in
  let* qp :=
    match published_after with
    | Some dt =>
        let* s := to_sql_utc_string local_offset dt in
        Ok (query ++ " WHERE datetime(publishedAt) >= datetime(?)", [PyStr s])
    | None => Ok (query, [])
    end in
  let (query, params) := qp in
  let query := if order_by_published then query ++ " ORDER BY datetime(publishedAt) DESC" else query in
  match limit with
  | Some l => if negb (l =? 0) then Ok (query ++ " LIMIT ?", (params ++ [PyInt l])%list)
              else Ok (query, params)
  | None => Ok (query, params)
  end.

(** The number of [?] placeholders in an SQL text. *)
Definition placeholders (s : string) : nat :=
  List.length (filter (fun c => Ascii.eqb c "?"%char) (list_ascii_of_string s)).

(** Inputs of the examples below. *)
Definition now_ex2 : datetime := mkdt 2025 2 3 4 5 6 0 (Some 0).
Definition batch_ex2 : list video_in := [rec_ex "A" 5; rec_ex "D" 4].

(** Watch list entries: a channel id after a space, a handle the lookup
    resolves, a handle it does not, a blank entry, and a 24-character
    entry starting with [UC] that is not a channel id. *)
Definition uc_a : text := ([85; 67] ++ repeat 97 22)%list.
Definition uc_b : text := ([85; 67] ++ repeat 98 22)%list.
Definition uc_bang : text := ([85; 67; 33] ++ repeat 97 21)%list.
Definition entries_ex : list text :=
  [32 :: uc_a; [64; 104; 105]; [64; 122; 122]; [9; 32]; uc_bang].
Definition resolver_ex (h : text) : pres (option text) :=
  if text_eqb h [104; 105] then POk (Some uc_b) else POk None.

(** A [try_request] that answers every request with one video item. *)
Definition videos_api_ex (url : string) (params : list (string * pyval)) : option api_response :=
  Some (mkapi 200 (Some (JObj [("items", JArr [JObj [("id", JStr "a");
    ("contentDetails", JObj [("duration", JStr "PT30S")]);
    ("statistics", JObj [("likeCount", JStr "25"); ("commentCount", JInt 1)])]])]))).
Definition video_objs_ex : list video_obj := [mkvo "a" (Some "cisf"); mkvo "b" None].

Definition table_ex2 : table :=
  Eval vm_compute in
    match db_upsert_videos 0 now_ex2 table_ex batch_ex2 with Ok t => t | Err _ => [] end.
Definition video_details_ex : list video_detail :=
  Eval vm_compute in
    match fst (get_video_details videos_api_ex video_objs_ex) with POk ds => ds | PErr _ => [] end.

(** A [try_request] that never gets a response. *)
Definition no_api_ex (url : string) (params : list (string * pyval)) : option api_response :=
  None.


(** * Proofs *)

Open Scope list_scope.

(** ** Evaluations on sample inputs *)

Example strftime_sql_ex :
  to_sql_utc_string 0 (mkdt 2024 3 5 1 2 3 0 (Some 19800)) = Ok "2024-03-04 19:32:03".
Proof. reflexivity. Qed.
Example parse_duration_ex1 : parse_duration_iso8601 (Some "PT1H2M3S") = Ok 3723.
Proof. reflexivity. Qed.
Example parse_duration_ex2 : parse_duration_iso8601 (Some "PT10M") = Ok 600.
Proof. reflexivity. Qed.
Example parse_duration_ex3 : parse_duration_iso8601 (Some "P1D") = Ok 0.
Proof. reflexivity. Qed.
Example parse_duration_ex4 : parse_duration_iso8601 (Some "PT5S
") = Ok 5.
Proof. reflexivity. Qed.
(** [\d] matches the Arabic-Indic digit five (U+0665, UTF-8 [D9 A5]). *)
Example parse_duration_ex5 :
  parse_duration_iso8601 (Some ("PT" ++ String "217"%char (String "165"%char "S"))%string) = Ok 5.
Proof. vm_compute. reflexivity. Qed.
Example strftime_sql_ex2 :
  to_sql_utc_string 0 (mkdt 5 1 1 0 0 0 0 (Some 0)) = Ok "5-01-01 00:00:00".
Proof. reflexivity. Qed.
Example int_of_string_ex1 : int_of_string " 7" = Ok 7 /\ int_of_string "1_000" = Ok 1000
  /\ int_of_string "	-3 
" = Ok (-3) /\ int_of_string "1__0" = Err ValueError
  /\ int_of_string "+" = Err ValueError.
Proof. vm_compute. repeat split. Qed.
(** The counts go through [int()]: surrounding whitespace and
    underscores between digits are accepted; a count outside the 64-bit
    range makes sqlite3 raise [OverflowError]. *)
Example upsert_counts_ex :
  map views (res_table (db_upsert_videos 0 now_ex []
    [mkin "F" [("views", PyStr " 7"); ("likes", PyStr "1_000")]])) = [SInt 7]
  /\ map likes (res_table (db_upsert_videos 0 now_ex []
    [mkin "F" [("views", PyStr " 7"); ("likes", PyStr "1_000")]])) = [SInt 1000]
  /\ db_upsert_videos 0 now_ex [] [mkin "F" [("views", PyInt (2 ^ 63))]] = Err OverflowError
  /\ db_upsert_videos 0 now_ex [] [mkin "F" [("views", PyStr "7 7")]] = Err ValueError.
Proof. vm_compute. repeat split. Qed.

Example sentiment_ex1 : simulate_sentiment_analysis 100 1 = Ok "Positive".
Proof. reflexivity. Qed.
Example sentiment_ex2 : simulate_sentiment_analysis 1 10 = Ok "Negative".
Proof. reflexivity. Qed.
Example sentiment_ex3 : simulate_sentiment_analysis 5 5 = Ok "Negative".
Proof. reflexivity. Qed.
Example sentiment_ex4 : simulate_sentiment_analysis 10 0 = Ok "Neutral".
Proof. reflexivity. Qed.
Example sentiment_ex5 : simulate_sentiment_analysis 11 0 = Ok "Positive".
Proof. reflexivity. Qed.
Example int_true_div_ex : int_true_div 1 3 = Ok (mkf 6004799503160661 (-54)).
Proof. vm_compute. reflexivity. Qed.
Example upsert_ex :
  match db_upsert_videos 0 now_ex [] [rec_ex "A" 1; rec_ex "B" 2; rec_ex "C" 3] with
  | Ok t =>
      map serial t = [1; 2; 3] /\
      match db_upsert_videos 0 now_ex t [rec_ex "B" 7] with
      | Ok t' => map serial t' = [1; 2; 3] /\ map views t' = [SInt 1; SInt 7; SInt 3]
      | Err _ => False
      end
  | Err _ => False
  end.
Proof. vm_compute. auto. Qed.

(** ** Exhaustive checks over ranges of integers *)

Fixpoint all_from (P : Z -> bool) (z : Z) (n : nat) : bool :=
  match n with
  | O => true
  | S k => P z && all_from P (z + 1) k
  end.

Lemma all_from_spec (P : Z -> bool) (n : nat) :
  forall z, all_from P z n = true -> forall x, z <= x < z + Z.of_nat n -> P x = true.
Proof.
  induction n as [|n IH]; intros z H x Hx; simpl in *; [lia|].
  apply andb_true_iff in H as [H1 H2].
  destruct (Z.eq_dec x z) as [->|Hne]; [assumption|].
  apply (IH (z + 1)); [assumption|lia].
Qed.

Lemma all_from_Z (P : Z -> bool) (z n : Z) :
  0 <= n -> all_from P z (Z.to_nat n) = true -> forall x, z <= x < z + n -> P x = true.
Proof.
  intros Hn H x Hx. apply (all_from_spec P _ z H). rewrite Z2Nat.id; lia.
Qed.

Definition two_digits (s : string) : bool :=
  match list_ascii_of_string s with [a; b] => is_digit a && is_digit b | _ => false end.

Definition four_digits (s : string) : bool :=
  match list_ascii_of_string s with
  | [a; b; c; d] => is_digit a && is_digit b && is_digit c && is_digit d
  | _ => false
  end.

Lemma zpad2_check : all_from (fun n => two_digits (zpad 2 n)) 0 (Z.to_nat 100) = true.
Proof. vm_compute. reflexivity. Qed.

Lemma year_check4 : all_from (fun n => four_digits (strftime_Y n)) 1000 (Z.to_nat 9000) = true.
Proof. vm_compute. reflexivity. Qed.

Lemma year_check_short :
  all_from (fun n => (String.length (strftime_Y n) <? 4)%nat) 1 (Z.to_nat 999) = true.
Proof. vm_compute. reflexivity. Qed.

Lemma civil_of_doe_check :
  all_from (fun doe => let '(_, m, d) := civil_of_doe doe in
                       (1 <=? m) && (m <=? 12) && (1 <=? d) && (d <=? 31)) 0 (Z.to_nat 146097) = true.
Proof. vm_compute. reflexivity. Qed.

Lemma zpad2_shape (n : Z) :
  0 <= n < 100 ->
  exists a b, zpad 2 n = String a (String b EmptyString)
              /\ is_digit a = true /\ is_digit b = true.
Proof.
  intros Hn.
  pose proof (all_from_Z _ 0 100 ltac:(lia) zpad2_check n ltac:(lia)) as H.
  unfold two_digits in H.
  rewrite <- (string_of_list_ascii_of_string (zpad 2 n)).
  destruct (list_ascii_of_string (zpad 2 n)) as [|a [|b [|c l]]]; try discriminate.
  apply andb_true_iff in H as [Ha Hb]. exists a, b. auto.
Qed.

Lemma year_shape (n : Z) :
  1000 <= n < 10000 ->
  exists a b c d, strftime_Y n = String a (String b (String c (String d EmptyString)))
                  /\ is_digit a = true /\ is_digit b = true
                  /\ is_digit c = true /\ is_digit d = true.
Proof.
  intros Hn.
  pose proof (all_from_Z _ 1000 9000 ltac:(lia) year_check4 n ltac:(lia)) as H.
  unfold four_digits in H.
  rewrite <- (string_of_list_ascii_of_string (strftime_Y n)).
  destruct (list_ascii_of_string (strftime_Y n)) as [|a [|b [|c [|d [|e l]]]]]; try discriminate.
  repeat rewrite andb_true_iff in H. destruct H as [[[Ha Hb] Hc] Hd].
  exists a, b, c, d. auto.
Qed.

Lemma year_short (n : Z) : 1 <= n < 1000 -> (String.length (strftime_Y n) < 4)%nat.
Proof.
  intros Hn. apply Nat.ltb_lt.
  exact (all_from_Z _ 1 999 ltac:(lia) year_check_short n ltac:(lia)).
Qed.

Lemma string_length_app (a b : string) :
  String.length (a ++ b) = (String.length a + String.length b)%nat.
Proof. induction a as [|c a IH]; simpl; auto. Qed.

Lemma string_length_list (s : string) : String.length s = List.length (list_ascii_of_string s).
Proof. induction s as [|c s IH]; simpl; auto. Qed.

Lemma is_sql_utc_form_length (s : string) :
  is_sql_utc_form s = true -> String.length s = 19%nat.
Proof.
  intros H. rewrite string_length_list. unfold is_sql_utc_form in H.
  destruct (list_ascii_of_string s) as [|c l]; [discriminate|].
  do 18 (destruct l as [|? l]; [discriminate|]).
  destruct l; [reflexivity|discriminate].
Qed.

Lemma civil_from_days_range (z : Z) :
  let '(_, m, d) := civil_from_days z in 1 <= m <= 12 /\ 1 <= d <= 31.
Proof.
  unfold civil_from_days.
  set (z' := z + 719468).
  assert (Hdoe : 0 <= z' - z' / 146097 * 146097 < 146097).
  { pose proof (Z.mod_pos_bound z' 146097 ltac:(lia)).
    rewrite (Z.mod_eq z' 146097) in H by lia. lia. }
  pose proof (all_from_Z _ 0 146097 ltac:(lia) civil_of_doe_check (z' - z' / 146097 * 146097) Hdoe) as H.
  cbn beta in H.
  destruct (civil_of_doe (z' - z' / 146097 * 146097)) as [[yoe m] d].
  cbn beta iota in H |- *.
  repeat rewrite andb_true_iff in H. destruct H as [[[H1 H2] H3] H4].
  apply Z.leb_le in H1, H2, H3, H4. lia.
Qed.

(** Fields of a value returned by [astimezone(UTC)]. *)
Definition utc_fields_in_range (u : datetime) : Prop :=
  1 <= dt_year u <= 9999 /\ 1 <= dt_month u <= 12 /\ 1 <= dt_day u <= 31
  /\ 0 <= dt_hour u < 24 /\ 0 <= dt_minute u < 60 /\ 0 <= dt_second u < 60.

Lemma astimezone_utc_range (lo : Z) (dt u : datetime) :
  astimezone_utc lo dt = Ok u -> utc_fields_in_range u.
Proof.
  unfold astimezone_utc.
  set (t := _ - _).
  pose proof (civil_from_days_range (t / 86400)) as Hc.
  destruct (civil_from_days (t / 86400)) as [[y m] d].
  destruct ((1 <=? y) && (y <=? 9999)) eqn:Hy; [|discriminate].
  intros Heq; injection Heq as <-.
  apply andb_true_iff in Hy as [Hy1 Hy2]. apply Z.leb_le in Hy1, Hy2.
  pose proof (Z.mod_pos_bound t 86400 ltac:(lia)) as Hs.
  set (s := t mod 86400) in *.
  pose proof (Z.mod_pos_bound s 3600 ltac:(lia)).
  pose proof (Z.mod_pos_bound s 60 ltac:(lia)).
  unfold utc_fields_in_range; simpl.
  repeat split; try lia.
  - apply Z.div_pos; lia.
  - apply Z.div_lt_upper_bound; lia.
  - apply Z.div_pos; lia.
  - apply Z.div_lt_upper_bound; lia.
Qed.

Lemma strftime_sql_length (u : datetime) :
  utc_fields_in_range u ->
  String.length (strftime_sql u) = (String.length (strftime_Y (dt_year u)) + 15)%nat.
Proof.
  intros (Hy & Hm & Hd & Hh & Hmi & Hs).
  destruct (zpad2_shape (dt_month u) ltac:(lia)) as (m1 & m2 & Em & _).
  destruct (zpad2_shape (dt_day u) ltac:(lia)) as (d1 & d2 & Ed & _).
  destruct (zpad2_shape (dt_hour u) ltac:(lia)) as (h1 & h2 & Eh & _).
  destruct (zpad2_shape (dt_minute u) ltac:(lia)) as (i1 & i2 & Ei & _).
  destruct (zpad2_shape (dt_second u) ltac:(lia)) as (s1 & s2 & Es & _).
  unfold strftime_sql. rewrite Em, Ed, Eh, Ei, Es, string_length_app. simpl. lia.
Qed.

(** [%Y-%m-%d %H:%M:%S] of a UTC value has the form [YYYY-MM-DD HH:MM:SS]
    exactly when its year has four digits. *)
Lemma strftime_sql_form (u : datetime) :
  utc_fields_in_range u -> is_sql_utc_form (strftime_sql u) = true <-> 1000 <= dt_year u.
Proof.
  intros Hu. split.
  - intros H. destruct (Z.le_gt_cases 1000 (dt_year u)) as [|Hlt]; [assumption|].
    apply is_sql_utc_form_length in H. rewrite (strftime_sql_length u Hu) in H.
    destruct Hu as (Hy & _). pose proof (year_short (dt_year u) ltac:(lia)). lia.
  - intros H1000. destruct Hu as (Hy & Hm & Hd & Hh & Hmi & Hs).
    destruct (year_shape (dt_year u) ltac:(lia)) as (y1 & y2 & y3 & y4 & Ey & Dy1 & Dy2 & Dy3 & Dy4).
    destruct (zpad2_shape (dt_month u) ltac:(lia)) as (m1 & m2 & Em & Dm1 & Dm2).
    destruct (zpad2_shape (dt_day u) ltac:(lia)) as (d1 & d2 & Ed & Dd1 & Dd2).
    destruct (zpad2_shape (dt_hour u) ltac:(lia)) as (h1 & h2 & Eh & Dh1 & Dh2).
    destruct (zpad2_shape (dt_minute u) ltac:(lia)) as (i1 & i2 & Ei & Di1 & Di2).
    destruct (zpad2_shape (dt_second u) ltac:(lia)) as (s1 & s2 & Es & Ds1 & Ds2).
    unfold strftime_sql. rewrite Ey, Em, Ed, Eh, Ei, Es.
    unfold is_sql_utc_form. simpl.
    rewrite Dy1, Dy2, Dy3, Dy4, Dm1, Dm2, Dd1, Dd2, Dh1, Dh2, Di1, Di2, Ds1, Ds2.
    reflexivity.
Qed.

(** [p] is [%Y-%m-%d %H:%M:%S] of [dt] converted to UTC; it has the form
    [YYYY-MM-DD HH:MM:SS] exactly when that UTC year is at least 1000. *)
Definition utc_text (lo : Z) (dt : datetime) (p : string) : Prop :=
  exists u, astimezone_utc lo dt = Ok u /\ p = strftime_sql u
            /\ (is_sql_utc_form p = true <-> 1000 <= dt_year u).

Lemma to_sql_utc_string_form (lo : Z) (dt : datetime) (s : string) :
  to_sql_utc_string lo dt = Ok s -> utc_text lo dt s.
Proof.
  unfold to_sql_utc_string, bind.
  destruct (astimezone_utc lo dt) as [u|e] eqn:Hu; [|discriminate].
  intros Heq; injection Heq as <-.
  exists u. split; [exact Hu|]. split; [reflexivity|].
  apply strftime_sql_form, (astimezone_utc_range lo dt), Hu.
Qed.

(** ** Timestamps *)

Lemma append_char_nonempty (a b : string) (c : ascii) : (a ++ String c b)%string <> "".
Proof. destruct a; discriminate. Qed.

Lemma to_sql_utc_string_nonempty (lo : Z) (dt : datetime) (s : string) :
  to_sql_utc_string lo dt = Ok s -> s <> "".
Proof.
  unfold to_sql_utc_string, bind.
  destruct (astimezone_utc lo dt); [|discriminate].
  intros Heq; injection Heq as <-. unfold strftime_sql. apply append_char_nonempty.
Qed.

Lemma ensure_sql_utc_string_nonempty (lo : Z) (now : datetime) (v : pyval) (s : string) :
  ensure_sql_utc_string lo now v = Ok s -> s <> "".
Proof.
  destruct v as [|s'| |dt]; simpl; try apply to_sql_utc_string_nonempty.
  destruct (String.eqb_spec s' ""); [apply to_sql_utc_string_nonempty|].
  intros Heq; injection Heq as <-. assumption.
Qed.

Lemma upsert_one_cases (lo : Z) (now : datetime) (now_str : string) (existing : list string)
    (t : table) (r : video_in) (t' : table) :
  upsert_one lo now now_str existing t r = Ok t' ->
  exists w, eval_written lo now r = Ok w /\
    ((existsb (String.eqb (in_videoId r)) existing = true
      /\ t' = map (update_row (in_videoId r) now_str w) t)
     \/ (existsb (String.eqb (in_videoId r)) existing = false
         /\ existsb (fun y => String.eqb (videoId y) (in_videoId r)) t = false
         /\ existsb (fun y => serial y =? max_serial t + 1) t = false
         /\ t' = (t ++ [insert_values now_str r w (max_serial t + 1)])%list)).
Proof.
  unfold upsert_one, bind.
  destruct (existsb (String.eqb (in_videoId r)) existing) eqn:He;
    destruct (eval_written lo now r) as [w|e]; try discriminate.
  - destruct (written_ok w); [|discriminate].
    intros Heq; injection Heq as <-. exists w. split; [reflexivity|]. left. auto.
  - destruct (_ && _ && _); [|discriminate].
    unfold insert_row. simpl.
    destruct (existsb (fun y => String.eqb (videoId y) (in_videoId r)) t) eqn:H1;
      destruct (existsb (fun y => serial y =? max_serial t + 1) t) eqn:H2;
      try discriminate.
    intros Heq; injection Heq as <-. exists w. split; [reflexivity|]. right. auto.
Qed.

Lemma eval_written_publishedAt (lo : Z) (now : datetime) (r : video_in) (w : written) :
  eval_written lo now r = Ok w ->
  ensure_sql_utc_string lo now (rget r "publishedAt" PyNone) = Ok (w_publishedAt w).
Proof.
  unfold eval_written, bind.
  destruct (ensure_sql_utc_string lo now (rget r "publishedAt" PyNone)); [|discriminate].
  repeat match goal with
         | |- context [match ?c with Ok _ => _ | Err _ => _ end] => destruct c
         end; try discriminate.
  intros Heq; injection Heq as <-. reflexivity.
Qed.

Lemma ensure_sql_utc_string_shape (lo : Z) (now : datetime) (v : pyval) (p : string) :
  ensure_sql_utc_string lo now v = Ok p ->
  match v with
  | PyStr s => if String.eqb s "" then utc_text lo now p else p = s
  | PyDatetime dt => utc_text lo dt p
  | _ => utc_text lo now p
  end.
Proof.
  destruct v as [|s| |dt]; simpl; try apply to_sql_utc_string_form.
  destruct (String.eqb s ""); [apply to_sql_utc_string_form|].
  intros Heq; injection Heq as <-. reflexivity.
Qed.

Lemma update_row_videoId (vid now_str : string) (w : written) (x : row) :
  videoId (update_row vid now_str w x) = videoId x.
Proof. unfold update_row. destruct (String.eqb (videoId x) vid); reflexivity. Qed.

(** Every row carrying the record's [videoId] after an upsert step holds
    the value [ensure_sql_utc_string] returned for the record. *)
Lemma upsert_one_publishedAt (lo : Z) (now : datetime) (now_str : string)
    (existing : list string) (t : table) (r : video_in) (t' : table) :
  upsert_one lo now now_str existing t r = Ok t' ->
  exists p, ensure_sql_utc_string lo now (rget r "publishedAt" PyNone) = Ok p
    /\ (forall x, In x t' -> videoId x = in_videoId r -> publishedAt x = SText p).
Proof.
  intros H.
  destruct (upsert_one_cases _ _ _ _ _ _ _ H) as (w & Hw & [(He & ->) | (He & Hid & Hs & ->)]);
    exists (w_publishedAt w); split; try apply eval_written_publishedAt, Hw.
  - intros x Hx Hvid. apply in_map_iff in Hx as (y & <- & Hy).
    rewrite update_row_videoId in Hvid.
    unfold update_row. rewrite Hvid, String.eqb_refl. reflexivity.
  - intros x Hx Hvid. apply in_app_or in Hx as [Hx|[<-|[]]].
    + exfalso. assert (existsb (fun y => String.eqb (videoId y) (in_videoId r)) t = true)
        by (apply existsb_exists; exists x; rewrite Hvid, String.eqb_refl; auto).
      congruence.
    + reflexivity.
Qed.

(** ** The upsert loop *)

(** What an upsert step keeps of a row: its key, its serial, its
    first-seen source and a non-null source keyword. *)
Definition row_kept (x x' : row) : Prop :=
  videoId x' = videoId x /\ serial x' = serial x
  /\ firstSeenSource x' = firstSeenSource x
  /\ (sourceKeyword x <> SNull -> sourceKeyword x' = sourceKeyword x).

(** Every row of [t] is still at its position in [t'], kept. *)
Definition prefix_kept (t t' : table) : Prop :=
  forall i x, nth_error t i = Some x -> exists x', nth_error t' i = Some x' /\ row_kept x x'.

Lemma prefix_kept_refl (t : table) : prefix_kept t t.
Proof. intros i x H. exists x. unfold row_kept. auto. Qed.

Lemma prefix_kept_trans (t1 t2 t3 : table) :
  prefix_kept t1 t2 -> prefix_kept t2 t3 -> prefix_kept t1 t3.
Proof.
  intros H12 H23 i x Hx.
  destruct (H12 i x Hx) as (y & Hy & Hy1 & Hy2 & Hy3 & Hy4).
  destruct (H23 i y Hy) as (z & Hz & Hz1 & Hz2 & Hz3 & Hz4).
  exists z. split; [assumption|].
  unfold row_kept. repeat split; try congruence.
  intros Hk. assert (Ey := Hy4 Hk). rewrite Hz4; [exact Ey|rewrite Ey; exact Hk].
Qed.

Lemma prefix_kept_length (t t' : table) :
  prefix_kept t t' -> (List.length t <= List.length t')%nat.
Proof.
  intros H. destruct (Nat.le_gt_cases (List.length t) (List.length t')) as [|Hlt]; [assumption|].
  destruct (nth_error t (List.length t') ) as [x|] eqn:Hx.
  - destruct (H _ _ Hx) as (x' & Hx' & _).
    assert (nth_error t' (List.length t') <> None) by congruence.
    apply nth_error_Some in H0. lia.
  - apply nth_error_None in Hx. lia.
Qed.

Lemma prefix_kept_ids (t t' : table) (v : string) :
  prefix_kept t t' -> In v (map videoId t) -> In v (map videoId t').
Proof.
  intros H Hv. apply in_map_iff in Hv as (x & <- & Hx).
  apply In_nth_error in Hx as (i & Hi).
  destruct (H i x Hi) as (x' & Hx' & Hk & _).
  apply in_map_iff. exists x'. split; [assumption|]. eapply nth_error_In; eassumption.
Qed.

Lemma update_row_kept (vid now_str : string) (w : written) (x : row) :
  row_kept x (update_row vid now_str w x).
Proof.
  unfold update_row, row_kept.
  destruct (String.eqb (videoId x) vid); simpl; [|auto].
  repeat split; [].
  intros Hk. destruct (sourceKeyword x); congruence.
Qed.

Lemma prefix_kept_map (t : table) (f : row -> row) :
  (forall x, row_kept x (f x)) -> prefix_kept t (map f t).
Proof.
  intros Hf i x Hx. exists (f x). split; [|apply Hf].
  rewrite nth_error_map, Hx. reflexivity.
Qed.

Lemma prefix_kept_app (t t2 : table) : prefix_kept t (t ++ t2).
Proof.
  intros i x Hx. exists x. split; [|unfold row_kept; auto].
  rewrite nth_error_app1; [assumption|]. apply nth_error_Some. congruence.
Qed.

Lemma upsert_one_kept (lo : Z) (now : datetime) (now_str : string) (existing : list string)
    (t : table) (r : video_in) (t' : table) :
  upsert_one lo now now_str existing t r = Ok t' -> prefix_kept t t'.
Proof.
  intros H.
  destruct (upsert_one_cases _ _ _ _ _ _ _ H) as (w & _ & [(_ & ->) | (_ & _ & _ & ->)]).
  - apply prefix_kept_map. apply update_row_kept.
  - apply prefix_kept_app.
Qed.

Lemma upsert_loop_kept (lo : Z) (now : datetime) (now_str : string) (existing : list string) :
  forall rows t t', upsert_loop lo now now_str existing t rows = Ok t' -> prefix_kept t t'.
Proof.
  induction rows as [|r rows IH]; intros t t' H; simpl in H.
  - injection H as <-. apply prefix_kept_refl.
  - unfold bind in H. destruct (upsert_one lo now now_str existing t r) as [t1|e] eqn:H1;
      [|discriminate].
    eapply prefix_kept_trans; [eapply upsert_one_kept; eassumption|]. eapply IH; eassumption.
Qed.

Lemma upsert_loop_app (lo : Z) (now : datetime) (now_str : string) (existing : list string)
    (l1 l2 : list video_in) :
  forall t, upsert_loop lo now now_str existing t (l1 ++ l2)
            = bind (upsert_loop lo now now_str existing t l1)
                   (fun t1 => upsert_loop lo now now_str existing t1 l2).
Proof.
  induction l1 as [|r l1 IH]; intros t; simpl; [reflexivity|].
  unfold bind at 1 3. destruct (upsert_one lo now now_str existing t r); [apply IH|reflexivity].
Qed.

Lemma existing_ids_of_sub (t : table) (rows : list video_in) (v : string) :
  existsb (String.eqb v) (existing_ids_of t rows) = true -> In v (map videoId t).
Proof.
  intros H. apply existsb_exists in H as (v' & Hin & Heq).
  apply String.eqb_eq in Heq. subst v'.
  unfold existing_ids_of in Hin. apply filter_In in Hin. tauto.
Qed.

Lemma max_serial_map (f : row -> row) :
  (forall x, serial (f x) = serial x) -> forall t, max_serial (map f t) = max_serial t.
Proof.
  intros Hf [|x t]; simpl; [reflexivity|].
  rewrite Hf. generalize (serial x). induction t as [|y t IH]; intros m; simpl; [reflexivity|].
  rewrite Hf. apply IH.
Qed.

(** Rows from position [n0] on carry one more than the largest serial
    before them. *)
Definition serial_ok (n0 : nat) (t : table) : Prop :=
  forall i x, (n0 <= i)%nat -> nth_error t i = Some x -> serial x = max_serial (firstn i t) + 1.

Lemma serial_ok_init (t : table) : serial_ok (List.length t) t.
Proof. intros i x Hi Hx. apply nth_error_None in Hi. congruence. Qed.

Lemma serial_ok_map (n0 : nat) (t : table) (f : row -> row) :
  (forall x, serial (f x) = serial x) -> serial_ok n0 t -> serial_ok n0 (map f t).
Proof.
  intros Hf H i x' Hi Hx'.
  rewrite nth_error_map in Hx'. destruct (nth_error t i) as [x|] eqn:Hx; [|discriminate].
  injection Hx' as <-. rewrite Hf, (H i x Hi Hx), firstn_map, max_serial_map by assumption.
  reflexivity.
Qed.

Lemma serial_ok_snoc (n0 : nat) (t : table) (y : row) :
  serial y = max_serial t + 1 -> serial_ok n0 t -> serial_ok n0 (t ++ [y]).
Proof.
  intros Hy H i x Hi Hx.
  destruct (Nat.lt_ge_cases i (List.length t)) as [Hlt|Hge].
  - rewrite nth_error_app1 in Hx by assumption.
    rewrite firstn_app. replace (i - List.length t)%nat with O by lia.
    rewrite app_nil_r. apply H; assumption.
  - rewrite nth_error_app2 in Hx by assumption.
    destruct (i - List.length t)%nat as [|k] eqn:Hk; [|destruct k; discriminate].
    injection Hx as <-. replace i with (List.length t) by lia.
    rewrite firstn_app, firstn_all, Nat.sub_diag, app_nil_r. assumption.
Qed.

Lemma upsert_one_serial_ok (lo : Z) (now : datetime) (now_str : string) (existing : list string)
    (t : table) (r : video_in) (t' : table) (n0 : nat) :
  serial_ok n0 t -> upsert_one lo now now_str existing t r = Ok t' -> serial_ok n0 t'.
Proof.
  intros Hs H.
  destruct (upsert_one_cases _ _ _ _ _ _ _ H) as (w & _ & [(_ & ->) | (_ & _ & _ & ->)]).
  - apply serial_ok_map; [|assumption].
    intros x. apply (update_row_kept (in_videoId r) now_str w x).
  - apply serial_ok_snoc; [reflexivity|assumption].
Qed.

Lemma upsert_loop_serial_ok (lo : Z) (now : datetime) (now_str : string)
    (existing : list string) (n0 : nat) :
  forall rows t t', serial_ok n0 t ->
  upsert_loop lo now now_str existing t rows = Ok t' -> serial_ok n0 t'.
Proof.
  induction rows as [|r rows IH]; intros t t' Hs H; simpl in H.
  - injection H as <-. assumption.
  - unfold bind in H. destruct (upsert_one lo now now_str existing t r) as [t1|e] eqn:H1;
      [|discriminate].
    eapply IH; [eapply upsert_one_serial_ok|]; eassumption.
Qed.

(** A record whose key is not among the existing ids ends up in a row
    appended after the rows the loop started from. *)
Lemma upsert_loop_inserts (lo : Z) (now : datetime) (now_str : string)
    (existing : list string) :
  forall rows t t', upsert_loop lo now now_str existing t rows = Ok t' ->
  forall r, In r rows -> existsb (String.eqb (in_videoId r)) existing = false ->
  exists i x', (List.length t <= i)%nat /\ nth_error t' i = Some x' /\ videoId x' = in_videoId r.
Proof.
  induction rows as [|r0 rows IH]; intros t t' H r Hr Hnew; [destruct Hr|].
  simpl in H. unfold bind in H.
  destruct (upsert_one lo now now_str existing t r0) as [t1|e] eqn:H1; [|discriminate].
  pose proof (upsert_loop_kept _ _ _ _ _ _ _ H) as Hk.
  destruct Hr as [<-|Hr].
  - destruct (upsert_one_cases _ _ _ _ _ _ _ H1) as (w & _ & [(He & _) | (_ & _ & _ & ->)]);
      [congruence|].
    destruct (Hk (List.length t) (insert_values now_str r0 w (max_serial t + 1))) as (x' & Hx' & Hid & _).
    { rewrite nth_error_app2, Nat.sub_diag by lia. reflexivity. }
    exists (List.length t), x'. repeat split; [lia|assumption|assumption].
  - destruct (IH _ _ H r Hr Hnew) as (i & x' & Hi & Hx' & Hid).
    pose proof (prefix_kept_length _ _ (upsert_one_kept _ _ _ _ _ _ _ H1)).
    exists i, x'. repeat split; [lia|assumption|assumption].
Qed.

(* ================================================================== *)
(** * Claims *)

(** C1: after a successful [db_upsert_videos], every row that was in the
    table is still at its position with the same [videoId], [serial] and
    [firstSeenSource]; every record whose [videoId] was not in the table
    has a row appended after the old rows; and every appended row's
    [serial] is one more than the largest serial of the rows before it,
    i.e. [max(existing serial) + 1] at the time of its INSERT. *)
Theorem db_upsert_videos_serial_assignment (lo : Z) (now : datetime) (t : table)
    (rows : list video_in) (t' : table) :
  db_upsert_videos lo now t rows = Ok t' ->
  (forall i x, nth_error t i = Some x ->
     exists x', nth_error t' i = Some x' /\ videoId x' = videoId x
                /\ serial x' = serial x /\ firstSeenSource x' = firstSeenSource x)
  /\ (forall r, In r rows -> ~ In (in_videoId r) (map videoId t) ->
        exists i x', (List.length t <= i)%nat /\ nth_error t' i = Some x'
                     /\ videoId x' = in_videoId r)
  /\ (forall i x', (List.length t <= i)%nat -> nth_error t' i = Some x' ->
        serial x' = max_serial (firstn i t') + 1).
Proof.
  unfold db_upsert_videos, bind.
  destruct (to_sql_utc_string lo now) as [now_str|e]; [|discriminate].
  intros H. split; [|split].
  - intros i x Hx. destruct (upsert_loop_kept _ _ _ _ _ _ _ H i x Hx) as (x' & Hx' & K1 & K2 & K3 & _).
    exists x'. auto.
  - intros r Hr Hnew. eapply upsert_loop_inserts; [eassumption|assumption|].
    destruct (existsb (String.eqb (in_videoId r)) (existing_ids_of t rows)) eqn:E; [|reflexivity].
    exfalso. apply Hnew. eapply existing_ids_of_sub; eassumption.
  - apply (upsert_loop_serial_ok _ _ _ _ _ _ _ _ (serial_ok_init t) H).
Qed.

(** C2: a row that holds a non-null [sourceKeyword] keeps it through a
    successful [db_upsert_videos], whatever keyword (null or not) the
    batch carries for its [videoId]. *)
Theorem db_upsert_videos_sourceKeyword_sticky (lo : Z) (now : datetime) (t : table)
    (rows : list video_in) (t' : table) (i : nat) (x : row) :
  db_upsert_videos lo now t rows = Ok t' ->
  nth_error t i = Some x -> sourceKeyword x <> SNull ->
  exists x', nth_error t' i = Some x' /\ videoId x' = videoId x
             /\ sourceKeyword x' = sourceKeyword x.
Proof.
  unfold db_upsert_videos, bind.
  destruct (to_sql_utc_string lo now) as [now_str|e]; [|discriminate].
  intros H Hx Hk.
  destruct (upsert_loop_kept _ _ _ _ _ _ _ H i x Hx) as (x' & Hx' & K1 & _ & _ & K4).
  exists x'. auto.
Qed.

(** C3 (amended): the UPDATE of an existing row overwrites its
    [publishedAt] with [ensure_sql_utc_string] of the incoming value (the
    current time when the record has none). *)
Theorem upsert_update_sets_publishedAt (lo : Z) (now : datetime) (now_str : string)
    (existing : list string) (t : table) (r : video_in) (t' : table) :
  existsb (String.eqb (in_videoId r)) existing = true ->
  upsert_one lo now now_str existing t r = Ok t' ->
  exists p, ensure_sql_utc_string lo now (rget r "publishedAt" PyNone) = Ok p
    /\ (forall i x, nth_error t i = Some x -> videoId x = in_videoId r ->
          exists x', nth_error t' i = Some x' /\ videoId x' = videoId x
                     /\ publishedAt x' = SText p).
Proof.
  intros He H.
  destruct (upsert_one_cases _ _ _ _ _ _ _ H) as (w & Hw & [(_ & ->) | (He' & _)]);
    [|congruence].
  exists (w_publishedAt w). split; [apply eval_written_publishedAt, Hw|].
  intros i x Hx Hvid. exists (update_row (in_videoId r) now_str w x).
  rewrite nth_error_map, Hx. split; [reflexivity|].
  unfold update_row. rewrite Hvid, String.eqb_refl. simpl. auto.
Qed.

(** C4 (amended): a row written by an upsert step (UPDATE or INSERT)
    holds [ensure_sql_utc_string] of the record's [publishedAt]: a
    non-empty string verbatim; for a [datetime] (else the current time,
    for no value, an empty string or a non-string) its UTC conversion as
    [%Y-%m-%d %H:%M:%S], which has the form [YYYY-MM-DD HH:MM:SS] exactly
    when the UTC year is at least 1000. *)
Theorem upsert_publishedAt_written (lo : Z) (now : datetime) (now_str : string)
    (existing : list string) (t : table) (r : video_in) (t' : table) :
  upsert_one lo now now_str existing t r = Ok t' ->
  exists p, (forall x, In x t' -> videoId x = in_videoId r -> publishedAt x = SText p)
    /\ match rget r "publishedAt" PyNone with
       | PyStr s => if String.eqb s "" then utc_text lo now p else p = s
       | PyDatetime dt => utc_text lo dt p
       | _ => utc_text lo now p
       end.
Proof.
  intros H. destruct (upsert_one_publishedAt _ _ _ _ _ _ _ H) as (p & Hp & Hrows).
  exists p. split; [assumption|]. apply (ensure_sql_utc_string_shape lo now), Hp.
Qed.

(** C7: [ensure_sql_utc_string] is idempotent: feeding its result back
    (even at another [utcnow()]) returns that result, and an input on
    which it raises raises in both. *)
Theorem ensure_sql_utc_string_idempotent (lo : Z) (now1 now2 : datetime) (x : pyval) :
  bind (ensure_sql_utc_string lo now1 x) (fun s => ensure_sql_utc_string lo now2 (PyStr s))
  = ensure_sql_utc_string lo now1 x.
Proof.
  destruct (ensure_sql_utc_string lo now1 x) as [s|e] eqn:E; simpl; [|reflexivity].
  apply ensure_sql_utc_string_nonempty in E.
  destruct (String.eqb_spec s ""); [contradiction|reflexivity].
Qed.

(** C10: [existing_ids] is computed once before the loop, so a batch with
    two records of one [videoId] absent from the table sends both down the
    INSERT path and [db_upsert_videos] raises. *)
Theorem db_upsert_videos_duplicate_new_id_raises (lo : Z) (now : datetime) (t : table)
    (pre mid post : list video_in) (r1 r2 : video_in) :
  in_videoId r1 = in_videoId r2 -> ~ In (in_videoId r1) (map videoId t) ->
  exists e, db_upsert_videos lo now t (pre ++ r1 :: mid ++ r2 :: post) = Err e.
Proof.
  intros Hsame Hnew.
  unfold db_upsert_videos. destruct (to_sql_utc_string lo now) as [now_str|e]; cbn [bind];
    [|eauto].
  set (existing := existing_ids_of t (pre ++ r1 :: mid ++ r2 :: post)).
  assert (Hex : existsb (String.eqb (in_videoId r1)) existing = false).
  { destruct (existsb (String.eqb (in_videoId r1)) existing) eqn:E; [|reflexivity].
    exfalso. apply Hnew. eapply existing_ids_of_sub; exact E. }
  rewrite upsert_loop_app.
  destruct (upsert_loop lo now now_str existing t pre) as [t1|e]; cbn [bind]; [|eauto].
  cbn [upsert_loop]. unfold bind at 1.
  destruct (upsert_one lo now now_str existing t1 r1) as [t2|e] eqn:H2; [|eauto].
  assert (In2 : In (in_videoId r1) (map videoId t2)).
  { destruct (upsert_one_cases _ _ _ _ _ _ _ H2) as (w & _ & [(He & _) | (_ & _ & _ & ->)]);
      [congruence|].
    rewrite map_app. apply in_or_app. right. left. reflexivity. }
  rewrite upsert_loop_app.
  destruct (upsert_loop lo now now_str existing t2 mid) as [t3|e] eqn:H3; cbn [bind]; [|eauto].
  pose proof (prefix_kept_ids _ _ _ (upsert_loop_kept _ _ _ _ _ _ _ H3) In2) as In3.
  cbn [upsert_loop]. unfold bind.
  destruct (upsert_one lo now now_str existing t3 r2) as [t4|e] eqn:H4; [|eauto].
  exfalso.
  destruct (upsert_one_cases _ _ _ _ _ _ _ H4) as (w & _ & [(He & _) | (_ & Hid & _)]);
    [congruence|].
  rewrite <- Hsame in Hid.
  apply in_map_iff in In3 as (x & Hx1 & Hx2).
  assert (existsb (fun y => String.eqb (videoId y) (in_videoId r1)) t3 = true)
    by (apply existsb_exists; exists x; rewrite Hx1, String.eqb_refl; auto).
  congruence.
Qed.

(** ** Witnesses and counterexamples of the upsert claims *)

Lemma db_upsert_videos_serial_assignment_witness :
  db_upsert_videos 0 now_ex [] batch_ex = Ok table_ex
  /\ map serial table_ex = [1; 2; 3]
  /\ (forall i x', (0 <= i)%nat -> nth_error table_ex i = Some x' ->
        serial x' = max_serial (firstn i table_ex) + 1).
Proof.
  assert (H : db_upsert_videos 0 now_ex [] batch_ex = Ok table_ex) by (vm_compute; reflexivity).
  split; [exact H|]. split; [vm_compute; reflexivity|].
  exact (proj2 (proj2 (db_upsert_videos_serial_assignment 0 now_ex [] batch_ex table_ex H))).
Defined.

Lemma db_upsert_videos_sourceKeyword_sticky_witness :
  db_upsert_videos 0 now_ex table_ex refresh_B = Ok table_ex_B
  /\ nth_error table_ex 1 = Some row_B /\ sourceKeyword row_B = SText "cisf"
  /\ exists x', nth_error table_ex_B 1 = Some x' /\ videoId x' = "B"
                /\ sourceKeyword x' = SText "cisf".
Proof.
  assert (H1 : db_upsert_videos 0 now_ex table_ex refresh_B = Ok table_ex_B)
    by (vm_compute; reflexivity).
  assert (H2 : nth_error table_ex 1 = Some row_B) by (vm_compute; reflexivity).
  assert (H3 : sourceKeyword row_B = SText "cisf") by (vm_compute; reflexivity).
  split; [exact H1|]. split; [exact H2|]. split; [exact H3|].
  destruct (db_upsert_videos_sourceKeyword_sticky 0 now_ex table_ex refresh_B table_ex_B 1 row_B
              H1 H2 ltac:(rewrite H3; discriminate)) as (x' & Hx' & Hid & Hk).
  exists x'. rewrite Hid, Hk, H3. auto.
Defined.

(** C3: an upsert of an existing id with another [publishedAt], or with
    none, changes the stored [publishedAt]. *)
Lemma upsert_changes_publishedAt :
  map publishedAt table_ex = [SText "2024-05-01T10:00:00Z"; SText "2024-05-01T10:00:00Z";
                              SText "2024-05-01T10:00:00Z"]
  /\ map publishedAt (res_table (db_upsert_videos 0 now_ex table_ex
                                  [mkin "B" [("publishedAt", PyStr "2021-06-01 00:00:00")]]))
     = [SText "2024-05-01T10:00:00Z"; SText "2021-06-01 00:00:00"; SText "2024-05-01T10:00:00Z"]
  /\ map publishedAt (res_table (db_upsert_videos 0 now_ex table_ex [mkin "B" []]))
     = [SText "2024-05-01T10:00:00Z"; SText "2025-01-02 03:04:05"; SText "2024-05-01T10:00:00Z"].
Proof. vm_compute. auto. Qed.

Lemma upsert_update_sets_publishedAt_witness :
  existsb (String.eqb "B") ["B"] = true
  /\ upsert_one 0 now_ex now_str_ex ["B"] table_ex
       (mkin "B" [("publishedAt", PyStr "2021-06-01 00:00:00")]) = Ok table_ex_B1
  /\ exists x', nth_error table_ex_B1 1 = Some x'
                /\ publishedAt x' = SText "2021-06-01 00:00:00".
Proof.
  assert (H : upsert_one 0 now_ex now_str_ex ["B"] table_ex
                (mkin "B" [("publishedAt", PyStr "2021-06-01 00:00:00")]) = Ok table_ex_B1)
    by (vm_compute; reflexivity).
  destruct (upsert_update_sets_publishedAt 0 now_ex now_str_ex ["B"] table_ex
              (mkin "B" [("publishedAt", PyStr "2021-06-01 00:00:00")]) _ eq_refl H)
    as (p & Hp & Hrows).
  vm_compute in Hp. injection Hp as <-.
  split; [reflexivity|]. split; [exact H|].
  destruct (Hrows 1%nat row_B ltac:(vm_compute; reflexivity) ltac:(vm_compute; reflexivity))
    as (x' & Hx' & _ & Hpub).
  exists x'. auto.
Defined.

(** C4: a record whose [publishedAt] is the API's RFC 3339 string is
    stored verbatim, not in the [YYYY-MM-DD HH:MM:SS] form; nor is a
    [datetime] of the year 5, stored as [5-01-01 00:00:00]. *)
Lemma upsert_stores_string_verbatim :
  map publishedAt (res_table (db_upsert_videos 0 now_ex [] [rec_ex "A" 1]))
  = [SText "2024-05-01T10:00:00Z"]
  /\ is_sql_utc_form "2024-05-01T10:00:00Z" = false
  /\ map publishedAt (res_table (db_upsert_videos 0 now_ex []
        [mkin "E" [("publishedAt", PyDatetime (mkdt 5 1 1 0 0 0 0 (Some 0)))]]))
     = [SText "5-01-01 00:00:00"]
  /\ is_sql_utc_form "5-01-01 00:00:00" = false.
Proof. vm_compute. auto. Qed.

Lemma upsert_publishedAt_written_witness :
  upsert_one 0 now_ex now_str_ex [] table_ex (mkin "D" [("publishedAt", PyDatetime dt_ex)])
    = Ok table_ex_D
  /\ exists p, (forall x, In x table_ex_D -> videoId x = "D" -> publishedAt x = SText p)
               /\ utc_text 0 dt_ex p.
Proof.
  assert (H : upsert_one 0 now_ex now_str_ex [] table_ex
                (mkin "D" [("publishedAt", PyDatetime dt_ex)]) = Ok table_ex_D)
    by (vm_compute; reflexivity).
  split; [exact H|].
  exact (upsert_publishedAt_written 0 now_ex now_str_ex [] table_ex _ _ H).
Defined.

Lemma db_upsert_videos_duplicate_new_id_raises_witness :
  in_videoId (rec_ex "A" 1) = in_videoId (rec_ex "A" 2)
  /\ ~ In "A" (map videoId [])
  /\ db_upsert_videos 0 now_ex [] [rec_ex "A" 1; rec_ex "B" 5; rec_ex "A" 2] = Err IntegrityError.
Proof.
  split; [reflexivity|]. split; [simpl; tauto|].
  destruct (db_upsert_videos_duplicate_new_id_raises 0 now_ex [] [] [rec_ex "B" 5] []
              (rec_ex "A" 1) (rec_ex "A" 2) eq_refl ltac:(simpl; tauto)) as (e & He).
  vm_compute. reflexivity.
Defined.

(** ** try_request *)

Lemma try_request_loop_spec (send : request -> outcome) (url : string)
    (params : list (string * pyval)) :
  forall keys last_response,
  (exists pre k post, keys = pre ++ k :: post
     /\ Forall (fun k' => outcome_ok (send (keyed_request url params k')) = false) pre
     /\ outcome_ok (send (keyed_request url params k)) = true
     /\ try_request_loop send url params keys last_response
        = (Some (outcome_response (send (keyed_request url params k))),
           map (keyed_request url params) (pre ++ [k])))
  \/ (Forall (fun k' => outcome_ok (send (keyed_request url params k')) = false) keys
      /\ try_request_loop send url params keys last_response
         = (match keys with
            | [] => last_response
            | _ => Some (outcome_response (send (keyed_request url params (last keys ""))))
            end, map (keyed_request url params) keys)).
Proof.
  induction keys as [|k keys IH]; intros last_response.
  - right. split; [constructor|reflexivity].
  - cbn [try_request_loop].
    destruct (send (keyed_request url params k)) as [r|msg] eqn:Hs.
    + destruct (status_code r =? 200) eqn:H200.
      * left. exists [], k, keys. rewrite Hs. simpl. rewrite H200. auto.
      * destruct (IH (Some r)) as [(pre & k' & post & -> & Hpre & Hk' & Heq)|(Hall & Heq)];
          rewrite Heq.
        -- left. exists (k :: pre), k', post.
           split; [reflexivity|]. split; [|split; [assumption|reflexivity]].
           constructor; [rewrite Hs; simpl; assumption|assumption].
        -- right. split; [constructor; [rewrite Hs; simpl; assumption|assumption]|].
           destruct keys as [|k2 keys]; simpl; [rewrite Hs|]; reflexivity.
    + destruct (IH (Some (exception_response msg)))
        as [(pre & k' & post & -> & Hpre & Hk' & Heq)|(Hall & Heq)]; rewrite Heq.
      * left. exists (k :: pre), k', post.
        split; [reflexivity|]. split; [|split; [assumption|reflexivity]].
        constructor; [rewrite Hs; reflexivity|assumption].
      * right. split; [constructor; [rewrite Hs; reflexivity|assumption]|].
        destruct keys as [|k2 keys]; simpl; [rewrite Hs|]; reflexivity.
Qed.

(** C8: [try_request] sends one request per credential, in the configured
    order, each with the credential as its [key] parameter; it returns the
    first response with status 200 at once; when every credential fails it
    returns the last failure (the error response, or the descriptor built
    for a [RequestException]); it is total, so it raises nothing.  With
    three credentials answering 403, 403 and 200 it makes exactly those
    three requests and returns the 200 response. *)
Theorem try_request_rotation :
  (forall (send : request -> outcome) (keys : list string) (url : string)
          (params : list (string * pyval)),
     keys <> [] ->
     (exists pre k post, keys = pre ++ k :: post
        /\ Forall (fun k' => outcome_ok (send (keyed_request url params k')) = false) pre
        /\ outcome_ok (send (keyed_request url params k)) = true
        /\ try_request send keys url params
           = (Some (outcome_response (send (keyed_request url params k))),
              map (keyed_request url params) (pre ++ [k])))
     \/ (Forall (fun k' => outcome_ok (send (keyed_request url params k')) = false) keys
         /\ try_request send keys url params
            = (Some (outcome_response (send (keyed_request url params (last keys "")))),
               map (keyed_request url params) keys)))
  /\ (forall (send : request -> outcome) (url : string) (params : list (string * pyval))
             (k1 k2 k3 : string) (r1 r2 r3 : response),
        send (keyed_request url params k1) = Got r1 -> status_code r1 = 403 ->
        send (keyed_request url params k2) = Got r2 -> status_code r2 = 403 ->
        send (keyed_request url params k3) = Got r3 -> status_code r3 = 200 ->
        try_request send [k1; k2; k3] url params
        = (Some r3, [keyed_request url params k1; keyed_request url params k2;
                     keyed_request url params k3])).
Proof.
  split.
  - intros send keys url params Hne. unfold try_request.
    destruct (try_request_loop_spec send url params keys None) as [H|(Hall & Heq)];
      [left; exact H|right; split; [exact Hall|]].
    rewrite Heq. destruct keys; [contradiction|reflexivity].
  - intros send url params k1 k2 k3 r1 r2 r3 H1 S1 H2 S2 H3 S3.
    unfold try_request. simpl. rewrite H1, S1. simpl. rewrite H2, S2. simpl.
    rewrite H3, S3. reflexivity.
Qed.

Lemma try_request_rotation_witness :
  try_request send_rotation_ex ["k1"; "k2"; "k3"] YOUTUBE_SEARCH_URL []
  = (Some resp_200, [keyed_request YOUTUBE_SEARCH_URL [] "k1";
                     keyed_request YOUTUBE_SEARCH_URL [] "k2";
                     keyed_request YOUTUBE_SEARCH_URL [] "k3"])
  /\ ["k1"; "k2"; "k3"] <> []
  /\ exists pre k post, ["k1"; "k2"; "k3"] = pre ++ k :: post
     /\ Forall (fun k' => outcome_ok (send_rotation_ex (keyed_request YOUTUBE_SEARCH_URL [] k'))
                         = false) pre
     /\ outcome_ok (send_rotation_ex (keyed_request YOUTUBE_SEARCH_URL [] k)) = true
     /\ try_request send_rotation_ex ["k1"; "k2"; "k3"] YOUTUBE_SEARCH_URL []
        = (Some (outcome_response (send_rotation_ex (keyed_request YOUTUBE_SEARCH_URL [] k))),
           map (keyed_request YOUTUBE_SEARCH_URL []) (pre ++ [k])).
Proof.
  split; [apply ((proj2 try_request_rotation) send_rotation_ex YOUTUBE_SEARCH_URL [] "k1" "k2" "k3"
                   resp_403 resp_403 resp_200); reflexivity|].
  assert (Hne : ["k1"; "k2"; "k3"] <> []) by discriminate.
  split; [exact Hne|].
  destruct ((proj1 try_request_rotation) send_rotation_ex ["k1"; "k2"; "k3"]
              YOUTUBE_SEARCH_URL [] Hne) as [H|(Hall & _)].
  - exact H.
  - exfalso. inversion Hall as [|? ? _ Hall2]. inversion Hall2 as [|? ? _ Hall3].
    inversion Hall3 as [|? ? H3 _]. discriminate H3.
Defined.

(* ------------------------------------------------------------------ *)
(** ** youtube_search *)

Lemma dict_get_set (d : list (string * pyval)) (k k' : string) (v : pyval) :
  dict_get (dict_set d k v) k' = if String.eqb k' k then Some v else dict_get d k'.
Proof.
  induction d as [|(k0, v0) d IH]; simpl.
  - reflexivity.
  - destruct (String.eqb k k0) eqn:E1; simpl.
    + apply String.eqb_eq in E1. subst k0. destruct (String.eqb k' k); reflexivity.
    + rewrite IH. destruct (String.eqb k' k) eqn:E2; [|reflexivity].
      apply String.eqb_eq in E2. subst k'. rewrite E1. reflexivity.
Qed.

Lemma search_params_maxResults (query : string) (kwargs : list (string * pyval)) :
  ~ In "maxResults" (map fst kwargs) ->
  dict_get (search_params query kwargs) "maxResults" = Some (PyInt 50).
Proof.
  unfold search_params.
  assert (G : forall d, ~ In "maxResults" (map fst kwargs) ->
            dict_get (fold_left (fun d kv => dict_set d (fst kv) (snd kv)) kwargs d) "maxResults"
            = dict_get d "maxResults").
  { induction kwargs as [|(k, v) kw IH]; intros d Hn; simpl; [reflexivity|].
    rewrite IH by (intro; apply Hn; right; assumption).
    rewrite dict_get_set. destruct (String.eqb "maxResults" k) eqn:E; [|reflexivity].
    apply String.eqb_eq in E. exfalso. apply Hn. left. simpl. congruence. }
  intros Hn. rewrite G by exact Hn. reflexivity.
Qed.

Lemma with_page_token_maxResults (params : list (string * pyval)) (tok : option string) :
  dict_get (with_page_token params tok) "maxResults" = dict_get params "maxResults".
Proof.
  unfold with_page_token. destruct tok as [t|]; [|reflexivity].
  destruct (token_truthy (Some t)); [|reflexivity].
  rewrite dict_get_set. reflexivity.
Qed.

Lemma search_loop_spec (send : request -> outcome) (API_KEYS : list string) (query : string) :
  forall fuel params tok acc ids log,
    dict_get params "maxResults" = Some (PyInt 50) ->
    search_loop send API_KEYS query fuel params tok acc = Some (Ok ids, log) ->
    search_spec send API_KEYS query (with_page_token params tok) acc ids.
Proof.
  induction fuel as [|fuel IH]; intros params tok acc ids log Hmax H; [discriminate|].
  simpl in H.
  assert (Hmax' : dict_get (with_page_token params tok) "maxResults" = Some (PyInt 50))
    by (rewrite with_page_token_maxResults; exact Hmax).
  revert H Hmax'. generalize (with_page_token params tok) as p. intros p H Hmax'.
  destruct (fst (try_request send API_KEYS YOUTUBE_SEARCH_URL p)) as [r|] eqn:Hr.
  2:{ injection H as <- _. apply search_fail. unfold fetch_page. rewrite Hr. exact I. }
  destruct (negb (response_truthy r) || negb (status_code r =? 200)) eqn:Hbad.
  { injection H as <- _. apply search_fail. unfold fetch_page. rewrite Hr.
    intros E. unfold response_truthy in Hbad. rewrite E in Hbad. discriminate Hbad. }
  assert (Hs : status_code r = 200).
  { apply Bool.orb_false_iff in Hbad. destruct Hbad as [_ Hb].
    apply Bool.negb_false_iff, Z.eqb_eq in Hb. exact Hb. }
  destruct (content r) as [data|txt] eqn:Hc; [|discriminate H].
  destruct (token_truthy (nextPageToken data)) eqn:Ht; simpl in H.
  2:{ injection H as <- _. eapply search_stop; [unfold fetch_page; exact Hr|exact Hs|exact Hc|].
      left. exact Ht. }
  rewrite Hmax' in H.
  destruct (50 <=? Z.of_nat (List.length (acc ++ tag_items query (items data)))) eqn:Hl.
  { injection H as <- _. eapply search_stop; [unfold fetch_page; exact Hr|exact Hs|exact Hc|].
    right. apply Z.leb_le in Hl. lia. }
  destruct (search_loop send API_KEYS query fuel p (nextPageToken data)
              (acc ++ tag_items query (items data))) as [(res0, log0)|] eqn:Hrec;
    [|discriminate H].
  injection H as E _. subst res0.
  specialize (IH _ _ _ _ _ Hmax' Hrec).
  destruct (nextPageToken data) as [t|] eqn:Ht'; [|discriminate Ht].
  eapply search_next; [unfold fetch_page; exact Hr|exact Hs|exact Hc|exact Ht'| | |].
  - intros E. subst t. discriminate Ht.
  - apply Z.leb_gt in Hl. lia.
  - unfold with_page_token in IH. rewrite Ht in IH. exact IH.
Qed.

(** Claim C9: with the page size left at its default of 50 (no
    [maxResults] among the keyword arguments), every result of
    [youtube_search] is the one of the pagination contract: a failing
    response stops the search with the ids accumulated so far; an
    accepted page adds its ids, tagged with the query, and the search
    stops when no next-page token is returned or 50 ids are reached, and
    otherwise follows the token.  A single page of ten items and no token
    ends the search after that one request, with the ten ids tagged with
    the query. *)
Theorem youtube_search_pagination :
  (forall (send : request -> outcome) (API_KEYS : list string) (query : string)
          (fuel : nat) (kwargs : list (string * pyval)) (ids : list tagged) log,
     ~ In "maxResults" (map fst kwargs) ->
     youtube_search send API_KEYS query fuel kwargs = Some (Ok ids, log) ->
     search_spec send API_KEYS query (search_params query kwargs) [] ids)
  /\ (forall (send : request -> outcome) (API_KEYS : list string) (query : string)
             (fuel : nat) (kwargs : list (string * pyval)) (vids : list string) (r : response),
        fetch_page send API_KEYS (search_params query kwargs) = Some r ->
        status_code r = 200 ->
        content r = BJson (mkpage (map Some vids) None) ->
        List.length vids = 10%nat ->
        youtube_search send API_KEYS query (S fuel) kwargs
        = Some (Ok (map (fun v => mktag v query) vids), [search_params query kwargs])
        /\ List.length (map (fun v => mktag v query) vids) = 10%nat
        /\ Forall (fun x => tag_sourceKeyword x = query) (map (fun v => mktag v query) vids)).
Proof.
  split.
  - intros send API_KEYS query fuel kwargs ids log Hn H.
    apply (search_loop_spec send API_KEYS query fuel _ None [] ids log);
      [apply search_params_maxResults; exact Hn|exact H].
  - intros send API_KEYS query fuel kwargs vids r Hr Hs Hc Hlen.
    split; [|split].
    + unfold youtube_search. simpl. unfold fetch_page in Hr. unfold response_truthy.
      rewrite Hr, Hs, Hc. simpl.
      f_equal. f_equal. f_equal. unfold tag_items. clear.
      induction vids as [|v vs IH]; simpl; [reflexivity|]. rewrite IH. reflexivity.
    + rewrite length_map. exact Hlen.
    + clear. induction vids as [|v vs IH]; constructor; [reflexivity|exact IH].
Qed.

Lemma youtube_search_pagination_witness :
  youtube_search send_page10 ["k1"] "cisf" 1%nat [("publishedAfter", PyStr "2025-01-01T00:00:00Z")]
  = Some (Ok (map (fun v => mktag v "cisf") vids10),
          [search_params "cisf" [("publishedAfter", PyStr "2025-01-01T00:00:00Z")]])
  /\ search_spec send_page10 ["k1"] "cisf"
       (search_params "cisf" [("publishedAfter", PyStr "2025-01-01T00:00:00Z")]) []
       (map (fun v => mktag v "cisf") vids10).
Proof.
  assert (Hs : youtube_search send_page10 ["k1"] "cisf" 1%nat
                 [("publishedAfter", PyStr "2025-01-01T00:00:00Z")]
               = Some (Ok (map (fun v => mktag v "cisf") vids10),
                       [search_params "cisf" [("publishedAfter", PyStr "2025-01-01T00:00:00Z")]])).
  { apply (proj2 youtube_search_pagination send_page10 ["k1"] "cisf" 0%nat
             [("publishedAfter", PyStr "2025-01-01T00:00:00Z")] vids10 resp_page10);
      reflexivity. }
  split; [exact Hs|].
  apply (proj1 youtube_search_pagination send_page10 ["k1"] "cisf" 1%nat
           [("publishedAfter", PyStr "2025-01-01T00:00:00Z")] _
           [search_params "cisf" [("publishedAfter", PyStr "2025-01-01T00:00:00Z")]]).
  - simpl. intros [E|[]]. discriminate E.
  - exact Hs.
Defined.

(* ------------------------------------------------------------------ *)
(** ** simulate_sentiment_analysis *)

Lemma round_half_even_cases (n d : Z) : 0 < d ->
  (round_half_even n d = n / d /\ 2 * (n mod d) <= d)
  \/ (round_half_even n d = n / d + 1 /\ d <= 2 * (n mod d)).
Proof.
  intros Hd. unfold round_half_even. cbv zeta.
  destruct (Z.compare_spec (2 * (n mod d)) d) as [E|E|E].
  - destruct (Z.even (n / d)); [left|right]; split; lia.
  - left; split; lia.
  - right; split; lia.
Qed.

Lemma round_half_even_le (n d T : Z) : 0 < d -> n <= T * d -> round_half_even n d <= T.
Proof.
  intros Hd H.
  pose proof (Z.div_mod n d ltac:(lia)) as Hm. pose proof (Z.mod_pos_bound n d Hd) as Hr.
  destruct (round_half_even_cases n d Hd) as [[-> _]|[-> Hc]]; nia.
Qed.

Lemma round_half_even_ge (n d T : Z) : 0 < d -> T * d <= n -> T <= round_half_even n d.
Proof.
  intros Hd H.
  pose proof (Z.div_mod n d ltac:(lia)) as Hm. pose proof (Z.mod_pos_bound n d Hd) as Hr.
  destruct (round_half_even_cases n d Hd) as [[-> _]|[-> Hc]]; nia.
Qed.

Lemma round_half_even_gt (n d T : Z) : 0 < d -> (2 * T + 1) * d < 2 * n ->
  T + 1 <= round_half_even n d.
Proof.
  intros Hd H.
  pose proof (Z.div_mod n d ltac:(lia)) as Hm. pose proof (Z.mod_pos_bound n d Hd) as Hr.
  destruct (round_half_even_cases n d Hd) as [[-> Hc]|[-> Hc]]; nia.
Qed.

Lemma round_half_even_lt (n d T : Z) : 0 < d -> 2 * n < (2 * T - 1) * d ->
  round_half_even n d <= T - 1.
Proof.
  intros Hd H.
  pose proof (Z.div_mod n d ltac:(lia)) as Hm. pose proof (Z.mod_pos_bound n d Hd) as Hr.
  destruct (round_half_even_cases n d Hd) as [[-> Hc]|[-> Hc]]; nia.
Qed.

Lemma scale_pos (a b e : Z) : 0 < a -> 0 < b ->
  0 < fst (scale a b e) /\ 0 < snd (scale a b e).
Proof.
  intros Ha Hb. unfold scale. destruct (Z.leb_spec e 0); simpl.
  - split; [apply Z.mul_pos_pos; [lia|apply Z.pow_pos_nonneg; lia]|lia].
  - split; [lia|apply Z.mul_pos_pos; [lia|apply Z.pow_pos_nonneg; lia]].
Qed.

Lemma scale_pred (a b e : Z) :
  fst (scale a b (e - 1)) * snd (scale a b e) = 2 * fst (scale a b e) * snd (scale a b (e - 1)).
Proof.
  unfold scale. destruct (Z.leb_spec (e - 1) 0), (Z.leb_spec e 0); cbn [fst snd].
  - replace (- (e - 1)) with (- e + 1) by lia. rewrite Z.pow_add_r by lia. ring.
  - replace e with 1 by lia. cbn -[Z.mul]. ring.
  - lia.
  - replace e with (e - 1 + 1) at 1 by lia. rewrite Z.pow_add_r by lia. ring.
Qed.

Lemma scale_e0 (a b : Z) : 0 < a -> 0 < b ->
  2 ^ 51 * snd (scale a b (Z.log2 a - Z.log2 b - 52)) < fst (scale a b (Z.log2 a - Z.log2 b - 52))
  < 2 ^ 53 * snd (scale a b (Z.log2 a - Z.log2 b - 52)).
Proof.
  intros Ha Hb.
  destruct (Z.log2_spec a Ha) as [Ha1 Ha2]. destruct (Z.log2_spec b Hb) as [Hb1 Hb2].
  rewrite Z.pow_succ_r in Ha2, Hb2 by (apply Z.log2_nonneg).
  pose proof (Z.log2_nonneg a). pose proof (Z.log2_nonneg b).
  set (la := Z.log2 a) in *. set (lb := Z.log2 b) in *.
  unfold scale. destruct (Z.leb_spec (la - lb - 52) 0); cbn [fst snd].
  - assert (Hk : 2 ^ la * 2 ^ (- (la - lb - 52)) = 2 ^ 51 * (2 * 2 ^ lb)).
    { rewrite <- Z.pow_add_r by lia. rewrite <- (Z.pow_succ_r 2 lb) by lia.
      rewrite <- Z.pow_add_r by lia. f_equal. lia. }
    assert (0 < 2 ^ (- (la - lb - 52))) by (apply Z.pow_pos_nonneg; lia).
    set (k := 2 ^ (- (la - lb - 52))) in *.
    assert (2 ^ la * k <= a * k) by (apply Z.mul_le_mono_nonneg_r; lia).
    assert (a * k < 2 * 2 ^ la * k) by (apply Z.mul_lt_mono_pos_r; lia).
    split; lia.
  - assert (Hk : 2 ^ la = 2 ^ 51 * (2 * 2 ^ lb) * 2 ^ (la - lb - 52)).
    { rewrite <- (Z.pow_succ_r 2 lb) by lia.
      rewrite <- !Z.pow_add_r by lia. f_equal. lia. }
    assert (0 < 2 ^ (la - lb - 52)) by (apply Z.pow_pos_nonneg; lia).
    set (k := 2 ^ (la - lb - 52)) in *.
    assert (b * k < 2 * 2 ^ lb * k) by (apply Z.mul_lt_mono_pos_r; lia).
    assert (2 ^ lb * k <= b * k) by (apply Z.mul_le_mono_nonneg_r; lia).
    split; lia.
Qed.

Lemma binary64_exponent_normal (a b : Z) : 0 < a -> 0 < b -> b < 2 ^ 50 ->
  Z.log2 a - Z.log2 b - 53 <= binary64_exponent a b
  /\ 2 ^ 52 * snd (scale a b (binary64_exponent a b)) <= fst (scale a b (binary64_exponent a b))
  /\ fst (scale a b (binary64_exponent a b)) < 2 ^ 53 * snd (scale a b (binary64_exponent a b)).
Proof.
  intros Ha Hb Hb50.
  pose proof (scale_e0 a b Ha Hb) as H0.
  pose proof (Z.log2_nonneg a) as Hla.
  assert (Hlb : Z.log2 b < 50) by (apply Z.log2_lt_pow2; lia).
  set (e0 := Z.log2 a - Z.log2 b - 52) in *.
  assert (He0 : e0 = Z.log2 a - Z.log2 b - 52) by reflexivity.
  assert (He : binary64_exponent a b
               = Z.max (if fst (scale a b e0) / snd (scale a b e0) <? 2 ^ 52 then e0 - 1 else e0)
                       (-1074))
    by (unfold binary64_exponent; destruct (scale a b _); reflexivity).
  destruct (scale_pos a b e0 Ha Hb) as [Hn0 Hd0].
  set (n0 := fst (scale a b e0)) in *. set (d0 := snd (scale a b e0)) in *.
  destruct (Z.ltb_spec (n0 / d0) (2 ^ 52)) as [Hq|Hq].
  - rewrite Z.max_l in He by lia. rewrite He.
    pose proof (Z.mul_succ_div_gt n0 d0 Hd0) as Hup.
    assert (Hlt : n0 < 2 ^ 52 * d0) by nia.
    pose proof (scale_pred a b e0) as Hp. fold n0 d0 in Hp.
    destruct (scale_pos a b (e0 - 1) Ha Hb) as [Hn1 Hd1].
    set (n1 := fst (scale a b (e0 - 1))) in *. set (d1 := snd (scale a b (e0 - 1))) in *.
    split; [lia|split].
    + apply (Z.mul_le_mono_pos_r _ _ d0 Hd0). nia.
    + apply (Z.mul_lt_mono_pos_r d0 _ _ Hd0). nia.
  - rewrite Z.max_l in He by lia. rewrite He. fold n0 d0.
    pose proof (Z.mul_div_le n0 d0 Hd0) as Hlow.
    split; [lia|split]; nia.
Qed.

Lemma round_compare (a b P K : Z) : 0 < b -> 0 < P -> b < 2 * P -> 0 <= a ->
  (K * P <? round_half_even (a * P) b) = (K * b <? a)
  /\ (round_half_even (a * P) b <? K * P) = (a <? K * b).
Proof.
  intros Hb HP H2P Ha. split.
  - destruct (Z.ltb_spec (K * b) a) as [H|H].
    + assert (K * P + 1 <= round_half_even (a * P) b)
        by (apply round_half_even_gt; [exact Hb|nia]).
      apply Z.ltb_lt. lia.
    + assert (round_half_even (a * P) b <= K * P)
        by (apply round_half_even_le; [exact Hb|nia]).
      apply Z.ltb_ge. lia.
  - destruct (Z.ltb_spec a (K * b)) as [H|H].
    + assert (round_half_even (a * P) b <= K * P - 1)
        by (apply round_half_even_lt; [exact Hb|nia]).
      apply Z.ltb_lt. lia.
    + assert (K * P <= round_half_even (a * P) b)
        by (apply round_half_even_ge; [exact Hb|nia]).
      apply Z.ltb_ge. lia.
Qed.

(** Claim C6 (amended): for [0 <= likes < 2 ^ 1023], [0 <= comments] and
    [comments + 1 < 2 ^ 50], the float quotient [likes / (comments + 1)]
    is finite and on the same side of 10 and of 1 as the exact ratio, so
    the sentiment is the one of the exact-ratio rule: Neutral when both
    counts are 0, Positive when the ratio exceeds 10, Negative when it is
    below 1, Neutral otherwise. *)
Theorem simulate_sentiment_analysis_exact_ratio (likes comments : Z) :
  0 <= likes < 2 ^ 1023 -> 0 <= comments -> comments + 1 < 2 ^ 50 ->
  simulate_sentiment_analysis likes comments = Ok (claimed_sentiment likes comments).
Proof.
  intros Hl Hc Hc50.
  unfold simulate_sentiment_analysis, claimed_sentiment, int_true_div.
  replace (comments + 1 =? 0) with false by (symmetry; apply Z.eqb_neq; lia).
  destruct (Z.eqb_spec likes 0) as [->|Hl0].
  - destruct (Z.eqb_spec comments 0) as [->|Hc0]; [reflexivity|].
    cbn -[Z.mul Z.pow Z.ltb].
    replace (10 * (comments + 1) <? 0) with false by (symmetry; apply Z.ltb_ge; lia).
    replace (0 <? comments + 1) with true by (symmetry; apply Z.ltb_lt; lia).
    reflexivity.
  - replace (Z.abs likes =? 0) with false by (symmetry; apply Z.eqb_neq; lia).
    rewrite (Z.abs_eq likes), (Z.abs_eq (comments + 1)) by lia.
    rewrite (Z.sgn_pos likes), (Z.sgn_pos (comments + 1)) by lia.
    destruct (binary64_exponent_normal likes (comments + 1) ltac:(lia) ltac:(lia) Hc50)
      as (_ & Hlo & Hhi).
    set (e := binary64_exponent likes (comments + 1)) in *.
    destruct (scale likes (comments + 1) e) as [n d] eqn:Hs.
    cbn [fst snd] in Hlo, Hhi.
    cbn -[Z.mul Z.pow Z.ltb Z.leb round_half_even].
    replace (1 * 1 * round_half_even n d) with (round_half_even n d) by ring.
    assert (Hd : 0 < d).
    { unfold scale in Hs. destruct (Z.leb_spec e 0); injection Hs as <- <-; [lia|].
      apply Z.mul_pos_pos; [lia|apply Z.pow_pos_nonneg; lia]. }
    assert (Hm52 : 2 ^ 52 <= round_half_even n d) by (apply round_half_even_ge; lia).
    assert (Hm53 : round_half_even n d <= 2 ^ 53) by (apply round_half_even_le; lia).
    set (m := round_half_even n d) in *.
    unfold float_gt_int, float_lt_int. cbn [f_mant f_exp].
    destruct (Z.leb_spec 0 e) as [He|He].
    + (* e >= 0: the ratio is at least 2 ^ 52 *)
      assert (HX : 1 <= 2 ^ e) by (apply (Z.pow_le_mono_r 2 0 e); lia).
      assert (Hn : n = likes /\ 2 ^ 52 * (comments + 1) * 2 ^ e <= likes).
      { unfold scale in Hs. destruct (Z.leb_spec e 0); injection Hs as <- <-.
        - replace e with 0 in * by lia. cbn in Hlo |- *. lia.
        - split; [reflexivity|lia]. }
      destruct Hn as [-> Hn].
      assert (HX971 : 2 ^ e < 2 ^ 971) by nia.
      replace (0 <=? e) with true by (symmetry; apply Z.leb_le; lia).
      replace (2 ^ 1024 <=? m * 2 ^ e) with false by (symmetry; apply Z.leb_gt; nia).
      cbn [andb bind f_mant f_exp].
      replace (0 <=? e) with true by (symmetry; apply Z.leb_le; lia). cbv beta iota.
      replace (10 <? m * 2 ^ e) with true by (symmetry; apply Z.ltb_lt; nia).
      replace (10 * (comments + 1) <? likes) with true by (symmetry; apply Z.ltb_lt; nia).
      reflexivity.
    + (* e < 0: the ratio is [likes / (comments + 1) * 2 ^ (- e)] *)
      assert (HP : 0 < 2 ^ (- e)) by (apply Z.pow_pos_nonneg; lia).
      assert (Hn : n = likes * 2 ^ (- e) /\ d = comments + 1).
      { unfold scale in Hs. destruct (Z.leb_spec e 0); [|lia]. injection Hs as <- <-. split; reflexivity. }
      destruct Hn as [Hn ->].
      replace (0 <=? e) with false by (symmetry; apply Z.leb_gt; lia).
      cbn [andb bind f_mant f_exp].
      replace (0 <=? e) with false by (symmetry; apply Z.leb_gt; lia). cbv beta iota.
      destruct (Z.le_gt_cases 49 (- e)) as [Hp|Hp].
      * assert (H2P : comments + 1 < 2 * 2 ^ (- e)).
        { assert (2 ^ 49 <= 2 ^ (- e)) by (apply Z.pow_le_mono_r; lia). lia. }
        subst n.
        destruct (round_compare likes (comments + 1) (2 ^ (- e)) 10 ltac:(lia) HP H2P ltac:(lia))
          as [E1 _].
        destruct (round_compare likes (comments + 1) (2 ^ (- e)) 1 ltac:(lia) HP H2P ltac:(lia))
          as [_ E2].
        fold m in E1, E2. rewrite E1, E2, !Z.mul_1_l.
        destruct (10 * (comments + 1) <? likes); [reflexivity|].
        destruct (likes <? comments + 1); reflexivity.
      * assert (HP48 : 2 ^ (- e) <= 2 ^ 48) by (apply Z.pow_le_mono_r; lia).
        replace (10 * 2 ^ (- e) <? m) with true by (symmetry; apply Z.ltb_lt; lia).
        replace (10 * (comments + 1) <? likes) with true by (symmetry; apply Z.ltb_lt; nia).
        reflexivity.
Qed.

(** The ratio [10 + 2 ^ -50] is above 10, but its float quotient rounds
    (to even) to [10.0], so the sentiment is Neutral, not Positive; and
    [likes = 2 ^ 1024] raises [OverflowError]. *)
Lemma sentiment_float_rounding :
  simulate_sentiment_analysis (10 * 2 ^ 50 + 1) (2 ^ 50 - 1) = Ok "Neutral"
  /\ claimed_sentiment (10 * 2 ^ 50 + 1) (2 ^ 50 - 1) = "Positive"
  /\ simulate_sentiment_analysis (2 ^ 1024) 0 = Err OverflowError.
Proof. split; [|split]; vm_compute; reflexivity. Qed.

Lemma simulate_sentiment_analysis_exact_ratio_witness :
  (0 <= 100 < 2 ^ 1023 /\ 0 <= 1 /\ 1 + 1 < 2 ^ 50)
  /\ simulate_sentiment_analysis 100 1 = Ok (claimed_sentiment 100 1).
Proof.
  split; [split; [lia|split; lia]|].
  apply simulate_sentiment_analysis_exact_ratio; lia.
Defined.

(* ------------------------------------------------------------------ *)
(** ** parse_duration_iso8601 *)

(** Claim C5: ["PT5S\n"], with a trailing newline, is not of the form
    [PT[nH][nM][nS]], yet [parse_duration_iso8601] returns 5 for it, not 0:
    the [$] of the pattern also matches before a final newline. *)
Theorem parse_duration_trailing_newline :
  parse_duration_iso8601 (Some ("PT5S" ++ String "010"%char EmptyString)%string) = Ok 5
  /\ parse_duration_iso8601 (Some ("PT1H2M3S" ++ String "010"%char EmptyString)%string) = Ok 3723.
Proof. split; vm_compute; reflexivity. Qed.

Lemma firstn_add {A} (a b : nat) (l : list A) :
  firstn (a + b) l = firstn a l ++ firstn b (skipn a l).
Proof.
  revert l. induction a as [|a IH]; intros l; [reflexivity|].
  destruct l as [|x l]; simpl; [destruct b; reflexivity|]. rewrite IH. reflexivity.
Qed.

Lemma py_slice_chunk {A} (xs : list A) (n : nat) (k : nat) :
  (0 < n)%nat ->
  py_slice xs (Z.of_nat (k * n)) (Z.of_nat (k * n) + Z.of_nat n) = firstn n (skipn (k * n) xs).
Proof.
  intros Hn. unfold py_slice, slice_bound.
  set (L := List.length xs).
  replace (Z.of_nat (k * n) <? 0) with false by (symmetry; apply Z.ltb_ge; lia).
  replace (Z.of_nat (k * n) + Z.of_nat n <? 0) with false by (symmetry; apply Z.ltb_ge; lia).
  destruct (Nat.le_gt_cases L (k * n)) as [H|H].
  - rewrite !Z.min_r by lia. rewrite Z.sub_diag. simpl.
    assert (E1 : skipn (k * n) xs = []) by (apply skipn_all2; lia).
    rewrite E1, firstn_nil. reflexivity.
  - rewrite (Z.min_l (Z.of_nat (k * n))) by lia. rewrite Nat2Z.id.
    destruct (Nat.le_gt_cases (k * n + n) L) as [H2|H2].
    + rewrite Z.min_l by lia. f_equal. lia.
    + rewrite Z.min_r by lia.
      rewrite firstn_all2 by (rewrite length_skipn; lia).
      rewrite firstn_all2 by (rewrite length_skipn; lia). reflexivity.
Qed.

(** The batches of [chunked] for a positive size, as slices. *)
Lemma chunked_pos {A} (xs : list A) (n : nat) :
  (0 < n)%nat ->
  chunked xs (Z.of_nat n)
  = Ok (map (fun k => firstn n (skipn (k * n) xs))
            (seq 0 (Z.to_nat ((Z.of_nat (List.length xs) + Z.of_nat n - 1) / Z.of_nat n)))).
Proof.
  intros Hn. unfold chunked, py_range.
  replace (Z.of_nat n =? 0) with false by (symmetry; apply Z.eqb_neq; lia).
  replace (0 <? Z.of_nat n) with true by (symmetry; apply Z.ltb_lt; lia).
  cbn [bind]. rewrite map_map. f_equal.
  replace (if 0 <? Z.of_nat (List.length xs)
           then 1 + (Z.of_nat (List.length xs) - 1 - 0) / Z.of_nat n else 0)
    with ((Z.of_nat (List.length xs) + Z.of_nat n - 1) / Z.of_nat n).
  2:{ destruct (Z.ltb_spec 0 (Z.of_nat (List.length xs))) as [H|H].
      - replace (Z.of_nat (List.length xs) + Z.of_nat n - 1)
          with ((Z.of_nat (List.length xs) - 1 - 0) + 1 * Z.of_nat n) by lia.
        rewrite Z.div_add by lia. lia.
      - replace (List.length xs) with 0%nat by lia. simpl.
        apply Z.div_small. lia. }
  apply map_ext. intros k. simpl.
  rewrite <- (py_slice_chunk xs n k Hn). f_equal; lia.
Qed.

Lemma concat_chunks {A} (xs : list A) (n : nat) :
  forall c j, List.concat (map (fun k => firstn n (skipn (k * n) xs)) (seq j c))
              = firstn (c * n) (skipn (j * n) xs).
Proof.
  induction c as [|c IH]; intros j; [reflexivity|].
  simpl. rewrite IH, firstn_add, skipn_skipn. do 3 f_equal; lia.
Qed.

Lemma chunk_count_bound (L n c : nat) :
  (0 < n)%nat -> Z.of_nat c = (Z.of_nat L + Z.of_nat n - 1) / Z.of_nat n ->
  (L <= c * n)%nat /\ (c * n <= L + n - 1)%nat.
Proof.
  intros Hn Hc.
  pose proof (Z.mul_div_le (Z.of_nat L + Z.of_nat n - 1) (Z.of_nat n) ltac:(lia)) as H1.
  pose proof (Z.mul_succ_div_gt (Z.of_nat L + Z.of_nat n - 1) (Z.of_nat n) ltac:(lia)) as H2.
  rewrite <- Hc in H1, H2. split; nia.
Qed.

(** [chunked] with a positive size succeeds, and its batches put back
    together give the input. *)
Theorem chunked_concat {A} (xs : list A) (n : Z) :
  0 < n -> exists cs, chunked xs n = Ok cs /\ List.concat cs = xs.
Proof.
  intros Hn. replace n with (Z.of_nat (Z.to_nat n)) by lia.
  set (n' := Z.to_nat n). assert (Hn' : (0 < n')%nat) by lia. clearbody n'.
  rewrite (chunked_pos xs n' Hn'). eexists; split; [reflexivity|].
  rewrite concat_chunks. simpl.
  set (c := Z.to_nat _).
  destruct (chunk_count_bound (List.length xs) n' c Hn') as [H1 _].
  { unfold c. rewrite Z2Nat.id; [reflexivity|]. apply Z.div_pos; lia. }
  apply firstn_all2. lia.
Qed.

(** [chunked] with a positive size [n] gives ceil(len/n) batches, each
    non-empty and of at most [n] elements, all but the last of exactly [n]. *)
Theorem chunked_sizes {A} (xs : list A) (n : Z) (cs : list (list A)) :
  0 < n -> chunked xs n = Ok cs ->
  Z.of_nat (List.length cs) = (Z.of_nat (List.length xs) + n - 1) / n
  /\ Forall (fun c => (0 < List.length c)%nat /\ Z.of_nat (List.length c) <= n) cs
  /\ Forall (fun c => Z.of_nat (List.length c) = n) (removelast cs).
Proof.
  intros Hn. replace n with (Z.of_nat (Z.to_nat n)) by lia.
  set (n' := Z.to_nat n). assert (Hn' : (0 < n')%nat) by lia. clearbody n'.
  rewrite (chunked_pos xs n' Hn'). intros E. injection E as <-.
  set (c := Z.to_nat _).
  assert (Hc : Z.of_nat c = (Z.of_nat (List.length xs) + Z.of_nat n' - 1) / Z.of_nat n').
  { unfold c. rewrite Z2Nat.id; [reflexivity|]. apply Z.div_pos; lia. }
  destruct (chunk_count_bound (List.length xs) n' c Hn' Hc) as [H1 H2].
  split; [rewrite length_map, length_seq; exact Hc|split].
  - apply Forall_forall. intros ch Hin. apply in_map_iff in Hin as (k & <- & Hk).
    apply in_seq in Hk. rewrite length_firstn, length_skipn. nia.
  - destruct c as [|c'].
    + constructor.
    + rewrite seq_S, map_app. cbn [map]. rewrite removelast_last.
      apply Forall_forall. intros ch Hin. apply in_map_iff in Hin as (k & <- & Hk).
      apply in_seq in Hk. rewrite length_firstn, length_skipn. nia.
Qed.

Lemma civil_of_doe_inverse_check :
  all_from (fun doe => let '(yoe, m, d) := civil_of_doe doe in
                       (0 <=? yoe) && (yoe <=? 399) && (doe_of yoe m d =? doe))
    0 (Z.to_nat 146097) = true.
Proof. vm_compute. reflexivity. Qed.

Lemma days_from_civil_of_days (z : Z) :
  let '(y, m, d) := civil_from_days z in days_from_civil y m d = z.
Proof.
  unfold civil_from_days.
  set (z' := z + 719468).
  assert (Hdoe : 0 <= z' - z' / 146097 * 146097 < 146097).
  { pose proof (Z.mod_pos_bound z' 146097 ltac:(lia)).
    rewrite (Z.mod_eq z' 146097) in H by lia. lia. }
  pose proof (all_from_Z _ 0 146097 ltac:(lia) civil_of_doe_inverse_check _ Hdoe) as H.
  cbn beta in H.
  set (era := z' / 146097) in *.
  set (doe := z' - era * 146097) in *.
  destruct (civil_of_doe doe) as [[yoe m] d].
  cbn beta iota in H |- *.
  repeat rewrite andb_true_iff in H. destruct H as [[H1 H2] H3].
  apply Z.leb_le in H1, H2. apply Z.eqb_eq in H3. unfold doe_of in H3.
  assert (Hy : forall y, (if m <=? 2 then y - 1 else y) = yoe + era * 400 ->
                         days_from_civil y m d = z).
  { intros y Hy. unfold days_from_civil. cbv zeta. rewrite Hy.
    rewrite Z.div_add by lia. rewrite (Z.div_small yoe 400) by lia.
    replace (yoe + era * 400 - (0 + era) * 400) with yoe by lia.
    unfold doe, z' in *. lia. }
  destruct (Z.leb_spec m 2) as [Hm|Hm]; apply Hy.
  - replace (m <=? 2) with true by (symmetry; apply Z.leb_le; lia). lia.
  - replace (m <=? 2) with false by (symmetry; apply Z.leb_gt; lia). lia.
Qed.

Lemma hms_recompose (s : Z) :
  0 <= s -> s / 3600 * 3600 + s mod 3600 / 60 * 60 + s mod 60 = s.
Proof.
  intros Hs.
  pose proof (Z.div_mod s 3600 ltac:(lia)).
  pose proof (Z.div_mod (s mod 3600) 60 ltac:(lia)).
  rewrite <- (Z.mod_mod_divide s 3600 60) by (exists 60; reflexivity).
  lia.
Qed.

Lemma astimezone_utc_spec (lo : Z) (dt u : datetime) :
  astimezone_utc lo dt = Ok u ->
  epoch_seconds u = epoch_seconds dt - offset_of lo dt
  /\ dt_microsecond u = dt_microsecond dt /\ dt_utcoffset u = Some 0
  /\ 1 <= dt_year u <= 9999
  /\ civil_from_days (epoch_seconds u / 86400) = (dt_year u, dt_month u, dt_day u)
  /\ epoch_seconds u mod 86400 = dt_hour u * 3600 + dt_minute u * 60 + dt_second u.
Proof.
  unfold astimezone_utc.
  change (match dt_utcoffset dt with Some o => o | None => lo end) with (offset_of lo dt).
  change (days_from_civil (dt_year dt) (dt_month dt) (dt_day dt) * 86400 + dt_hour dt * 3600
          + dt_minute dt * 60 + dt_second dt) with (epoch_seconds dt).
  set (t := epoch_seconds dt - offset_of lo dt).
  pose proof (days_from_civil_of_days (t / 86400)) as Hd.
  destruct (civil_from_days (t / 86400)) as [[y m] d] eqn:Hc.
  destruct ((1 <=? y) && (y <=? 9999)) eqn:Hy; [|discriminate].
  intros Heq; injection Heq as <-.
  apply andb_true_iff in Hy as [Hy1 Hy2]. apply Z.leb_le in Hy1, Hy2.
  pose proof (Z.mod_pos_bound t 86400 ltac:(lia)) as Hs.
  pose proof (hms_recompose (t mod 86400) ltac:(lia)) as Hr.
  assert (He : epoch_seconds (mkdt y m d (t mod 86400 / 3600) (t mod 86400 mod 3600 / 60)
                                  (t mod 86400 mod 60) (dt_microsecond dt) (Some 0)) = t).
  { unfold epoch_seconds. cbn [dt_year dt_month dt_day dt_hour dt_minute dt_second].
    rewrite Hd. pose proof (Z.div_mod t 86400 ltac:(lia)). lia. }
  rewrite He. cbn [dt_year dt_month dt_day dt_hour dt_minute dt_second dt_microsecond dt_utcoffset].
  split; [reflexivity|split; [reflexivity|split; [reflexivity|split; [lia|split]]]].
  - exact Hc.
  - lia.
Qed.

(** Converting a value [astimezone(UTC)] returned converts it to itself. *)
Lemma astimezone_utc_fixed (lo lo' : Z) (dt u : datetime) :
  astimezone_utc lo dt = Ok u -> astimezone_utc lo' u = Ok u.
Proof.
  intros H. destruct (astimezone_utc_spec lo dt u H) as (_ & _ & Hoff & Hy & Hc & Hs).
  pose proof (astimezone_utc_range lo dt u H) as (_ & _ & _ & Hh & Hmi & Hsec).
  unfold astimezone_utc. rewrite Hoff.
  change (days_from_civil (dt_year u) (dt_month u) (dt_day u) * 86400 + dt_hour u * 3600
          + dt_minute u * 60 + dt_second u - 0) with (epoch_seconds u - 0).
  rewrite Z.sub_0_r, Hc.
  replace ((1 <=? dt_year u) && (dt_year u <=? 9999)) with true
    by (symmetry; apply andb_true_iff; split; apply Z.leb_le; lia).
  rewrite Hs.
  replace ((dt_hour u * 3600 + dt_minute u * 60 + dt_second u) / 3600) with (dt_hour u)
    by (apply Z.div_unique with (dt_minute u * 60 + dt_second u); lia).
  replace ((dt_hour u * 3600 + dt_minute u * 60 + dt_second u) mod 3600)
    with (dt_minute u * 60 + dt_second u)
    by (apply Z.mod_unique with (dt_hour u); lia).
  replace ((dt_minute u * 60 + dt_second u) / 60) with (dt_minute u)
    by (apply Z.div_unique with (dt_second u); lia).
  replace ((dt_hour u * 3600 + dt_minute u * 60 + dt_second u) mod 60) with (dt_second u)
    by (apply Z.mod_unique with (dt_hour u * 60 + dt_minute u); lia).
  clear H. destruct u as [y m d h mi s us off]; cbn in Hoff |- *. subst off. reflexivity.
Qed.

Lemma list_ascii_of_string_app (a b : string) :
  list_ascii_of_string (a ++ b) = list_ascii_of_string a ++ list_ascii_of_string b.
Proof. induction a as [|c a IH]; simpl; congruence. Qed.

Lemma string_of_list_ascii_app (l1 l2 : list ascii) :
  string_of_list_ascii (l1 ++ l2) = (string_of_list_ascii l1 ++ string_of_list_ascii l2)%string.
Proof. induction l1 as [|c l1 IH]; simpl; congruence. Qed.

Lemma string_app_assoc (a b c : string) : ((a ++ b) ++ c = a ++ (b ++ c))%string.
Proof. induction a as [|x a IH]; simpl; congruence. Qed.

Definition no_space (s : string) : bool :=
  forallb (fun c => negb (Ascii.eqb c " "%char)) (list_ascii_of_string s).

Lemma year_no_space_check : all_from (fun n => no_space (strftime_Y n)) 1 (Z.to_nat 9999) = true.
Proof. vm_compute. reflexivity. Qed.

Lemma map_sp_to_T_id (l : list ascii) :
  forallb (fun c => negb (Ascii.eqb c " "%char)) l = true -> map sp_to_T l = l.
Proof.
  induction l as [|c l IH]; simpl; auto.
  intros H. apply andb_true_iff in H as [Hc Hl]. rewrite IH by assumption.
  unfold sp_to_T. destruct (Ascii.eqb c " "%char); [discriminate|reflexivity].
Qed.

Lemma digit_sp_to_T (c : ascii) : is_digit c = true -> sp_to_T c = c.
Proof.
  unfold sp_to_T. destruct (Ascii.eqb_spec c " "%char) as [->|]; [discriminate|reflexivity].
Qed.

(** [to_rfc3339_z] fails exactly when [to_sql_utc_string] does, and its
    text is the same instant with a [T] between date and time and a
    final [Z]. *)
Theorem to_rfc3339_z_of_sql (lo : Z) (dt : datetime) :
  to_rfc3339_z lo dt
  = match to_sql_utc_string lo dt with Ok s => Ok (rfc_of_sql s) | Err e => Err e end.
Proof.
  unfold to_rfc3339_z, to_sql_utc_string, bind.
  destruct (astimezone_utc lo dt) as [u|e] eqn:Hu; [|reflexivity].
  f_equal.
  destruct (astimezone_utc_range lo dt u Hu) as (Hy & Hm & Hd & Hh & Hmi & Hs).
  destruct (zpad2_shape (dt_month u) ltac:(lia)) as (m1 & m2 & Em & Dm1 & Dm2).
  destruct (zpad2_shape (dt_day u) ltac:(lia)) as (d1 & d2 & Ed & Dd1 & Dd2).
  destruct (zpad2_shape (dt_hour u) ltac:(lia)) as (h1 & h2 & Eh & Dh1 & Dh2).
  destruct (zpad2_shape (dt_minute u) ltac:(lia)) as (i1 & i2 & Ei & Di1 & Di2).
  destruct (zpad2_shape (dt_second u) ltac:(lia)) as (s1 & s2 & Es & Ds1 & Ds2).
  assert (HY : map sp_to_T (list_ascii_of_string (strftime_Y (dt_year u)))
               = list_ascii_of_string (strftime_Y (dt_year u))).
  { apply map_sp_to_T_id.
    exact (all_from_Z _ 1 9999 ltac:(lia) year_no_space_check (dt_year u) ltac:(lia)). }
  unfold strftime_rfc, rfc_of_sql, strftime_sql. rewrite Em, Ed, Eh, Ei, Es.
  rewrite list_ascii_of_string_app, map_app, HY, string_of_list_ascii_app,
    string_of_list_ascii_of_string, string_app_assoc.
  f_equal.
  cbn [list_ascii_of_string map string_of_list_ascii String.append].
  rewrite (digit_sp_to_T m1 Dm1), (digit_sp_to_T m2 Dm2), (digit_sp_to_T d1 Dd1),
    (digit_sp_to_T d2 Dd2), (digit_sp_to_T h1 Dh1), (digit_sp_to_T h2 Dh2),
    (digit_sp_to_T i1 Di1), (digit_sp_to_T i2 Di2), (digit_sp_to_T s1 Ds1),
    (digit_sp_to_T s2 Ds2).
  reflexivity.
Qed.

(** The text of [to_sql_utc_string] is the wall clock, with fields in
    range, of the same instant in UTC: its epoch seconds are those of the
    input minus the input's UTC offset. Formatting that UTC datetime again
    gives the same text, whatever the local offset. *)
Theorem to_sql_utc_string_instant (lo : Z) (dt : datetime) (s : string) :
  to_sql_utc_string lo dt = Ok s ->
  exists u, s = strftime_sql u /\ utc_fields_in_range u
            /\ epoch_seconds u = epoch_seconds dt - offset_of lo dt
            /\ forall lo', to_sql_utc_string lo' u = Ok s.
Proof.
  unfold to_sql_utc_string, bind.
  destruct (astimezone_utc lo dt) as [u|e] eqn:Hu; [|discriminate].
  intros E; injection E as <-.
  exists u. split; [reflexivity|split; [exact (astimezone_utc_range lo dt u Hu)|split]].
  - apply (astimezone_utc_spec lo dt u Hu).
  - intros lo'. rewrite (astimezone_utc_fixed lo lo' dt u Hu). reflexivity.
Qed.

Lemma star_digits_run (ds rest : list Z) :
  forallb is_decimal ds = true ->
  match rest with x :: _ => is_decimal x = false | [] => True end ->
  exists l, star_digits (ds ++ rest) = (ds, rest) :: l
            /\ Forall (fun p => exists y r, snd p = y :: r /\ is_decimal y = true) l.
Proof.
  intros Hds Hr. induction ds as [|x ds IH].
  - exists []. split; [|constructor].
    destruct rest as [|y r]; [reflexivity|]. simpl. rewrite Hr. reflexivity.
  - simpl in Hds. apply andb_true_iff in Hds as [Hx Hds].
    destruct (IH Hds) as (l & E & Hl).
    exists (map (fun p => (x :: fst p, snd p)) l ++ [([], x :: ds ++ rest)]).
    split.
    + simpl. rewrite Hx, E. reflexivity.
    + apply Forall_app. split.
      * apply Forall_map. eapply Forall_impl; [|exact Hl]. intros p Hp. exact Hp.
      * constructor; [|constructor]. simpl. eauto.
Qed.

Lemma opt_group_run (c : Z) (ds rest : list Z) :
  is_decimal c = false -> forallb is_decimal ds = true ->
  match rest with x :: _ => is_decimal x = false | [] => True end ->
  opt_group c (ds ++ rest)
  = match ds, rest with
    | _ :: _, y :: r => if y =? c then [(Some ds, r)] else []
    | _, _ => []
    end ++ [(None, ds ++ rest)].
Proof.
  intros Hc Hds Hr. unfold opt_group. f_equal.
  destruct ds as [|x ds'].
  - destruct rest as [|y r]; [reflexivity|]. simpl. rewrite Hr. reflexivity.
  - simpl in Hds. apply andb_true_iff in Hds as [Hx Hds'].
    destruct (star_digits_run ds' rest Hds' Hr) as (l & E & Hl).
    simpl. rewrite Hx, E. simpl.
    assert (Hnil : flat_map (fun p => match snd p with
                                      | y :: r => if y =? c then [(Some (fst p), r)] else []
                                      | [] => [] end)
                     (map (fun p => (x :: fst p, snd p)) l) = []).
    { clear E. induction Hl as [|p l (y & r & Hy & Dy) Hl IHl]; [reflexivity|].
      simpl. rewrite Hy. destruct (Z.eqb_spec y c) as [->|_]; [congruence|].
      exact IHl. }
    destruct rest as [|y r]; simpl in Hnil |- *; rewrite Hnil; [reflexivity|].
    rewrite app_nil_r. reflexivity.
Qed.

Lemma digits_ok_decimal (ds : list Z) : digits_ok (Some ds) = true -> forallb is_decimal ds = true.
Proof. simpl. intros H. apply andb_true_iff in H as [_ H]. exact H. Qed.

Lemma opt_group_head (c : Z) (g : option (list Z)) (t : list Z) :
  is_decimal c = false -> digits_ok g = true -> after_ok c t ->
  exists l, opt_group c (dur_part g c ++ t) = (g, t) :: l.
Proof.
  intros Hc Hg Ht. destruct g as [ds|].
  - pose proof (digits_ok_decimal ds Hg) as Hds.
    simpl in Hg. apply andb_true_iff in Hg as [Hn _]. apply andb_true_iff in Hn as [Hn _].
    destruct ds as [|x ds']; [discriminate Hn|].
    unfold dur_part. rewrite <- app_assoc. change ([c] ++ t) with (c :: t).
    rewrite (opt_group_run c (x :: ds') (c :: t) Hc Hds Hc).
    rewrite Z.eqb_refl. eexists. reflexivity.
  - simpl. destruct Ht as [->|(ds & y & r & -> & Hds & Hy & Hyc)].
    + eexists. reflexivity.
    + rewrite (opt_group_run c ds (y :: r) Hc Hds Hy).
      destruct ds as [|x ds']; [eexists; reflexivity|].
      destruct (Z.eqb_spec y c) as [E|_]; [contradiction|].
      eexists. reflexivity.
Qed.

Lemma after_ok_part (c c' : Z) (g : option (list Z)) (t : list Z) :
  digits_ok g = true -> is_decimal c' = false -> c' <> c -> after_ok c t ->
  after_ok c (dur_part g c' ++ t).
Proof.
  intros Hg Hc' Hne Ht. destruct g as [ds|]; [|exact Ht].
  apply digits_ok_decimal in Hg.
  right. exists ds, c', t. unfold dur_part. rewrite <- app_assoc. auto.
Qed.

(** The value of a decimal digit is the offset from the zero of its run. *)
Lemma py_decimal_spec (c d : Z) :
  py_decimal c = Some d -> exists z, In z decimal_zeros /\ z <= c < z + 10 /\ d = c - z.
Proof.
  unfold py_decimal.
  destruct (find (fun z => (z <=? c) && (c <? z + 10)) decimal_zeros) as [z|] eqn:E;
    [|discriminate].
  intros Hd; injection Hd as <-.
  apply find_some in E as [Hin Hz]. apply andb_true_iff in Hz as [H1 H2].
  apply Z.leb_le in H1. apply Z.ltb_lt in H2. eauto.
Qed.

Lemma decimal_zeros_check1 : forallb (fun z => (z =? 48) || (1632 <=? z)) decimal_zeros = true.
Proof. vm_compute. reflexivity. Qed.

Lemma decimal_zeros_check2 :
  forallb (fun z => all_from (fun x => negb (py_isspace x)) z 10) decimal_zeros = true.
Proof. vm_compute. reflexivity. Qed.

Definition decval (c : Z) : Z := match py_decimal c with Some d => d | None => 0 end.

Lemma to_ascii_decimal (c : Z) :
  is_decimal c = true -> to_ascii_for_int c = 48 + decval c /\ 0 <= decval c < 10.
Proof.
  unfold is_decimal, decval. destruct (py_decimal c) as [d|] eqn:E; [|discriminate].
  intros _. destruct (py_decimal_spec c d E) as (z & Hin & Hz & ->).
  split; [|lia].
  unfold to_ascii_for_int.
  destruct (c <? 127) eqn:Hc.
  - apply Z.ltb_lt in Hc.
    pose proof (proj1 (forallb_forall _ _) decimal_zeros_check1 z Hin) as H.
    apply orb_true_iff in H as [H|H]; [apply Z.eqb_eq in H|apply Z.leb_le in H]; lia.
  - pose proof (proj1 (forallb_forall _ _) decimal_zeros_check2 z Hin) as H.
    pose proof (all_from_Z _ z 10 ltac:(lia) H c Hz) as Hs. cbn beta in Hs.
    apply negb_true_iff in Hs. rewrite Hs, E. reflexivity.
Qed.

Lemma scan_digits_run (prev : Z) (l : list Z) :
  prev <> 95 -> forallb ascii_digit l = true ->
  scan_digits prev l = Some (map (fun c => c - 48) l, []).
Proof.
  revert prev. induction l as [|c l IH]; intros prev Hp Hl; simpl.
  - apply Z.eqb_neq in Hp. rewrite Hp. reflexivity.
  - apply andb_true_iff in Hl as [Hc Hl]. rewrite Hc.
    rewrite IH; [reflexivity| |exact Hl].
    unfold ascii_digit in Hc. apply andb_true_iff in Hc as [H1 H2].
    apply Z.leb_le in H1, H2. lia.
Qed.

(** [int(...)] of a run of 1 to 4300 decimal digits is their value. *)
Lemma group_value_ok (g : option (list Z)) : digits_ok g = true -> group_value g = Ok (dec_value g).
Proof.
  destruct g as [ds|]; [|reflexivity].
  intros Hg. pose proof (digits_ok_decimal ds Hg) as Hds.
  simpl in Hg. apply andb_true_iff in Hg as [Hg _]. apply andb_true_iff in Hg as [Hn Hle].
  apply Nat.leb_le in Hle.
  assert (HL : map to_ascii_for_int ds = map (fun c => 48 + decval c) ds).
  { apply map_ext_in. intros c Hc.
    apply (proj1 (to_ascii_decimal c (proj1 (forallb_forall _ _) Hds c Hc))). }
  assert (HA : forallb ascii_digit (map (fun c => 48 + decval c) ds) = true).
  { apply forallb_forall. intros x Hx. apply in_map_iff in Hx as (c & <- & Hc).
    pose proof (proj2 (to_ascii_decimal c (proj1 (forallb_forall _ _) Hds c Hc))).
    unfold ascii_digit. apply andb_true_iff. split; apply Z.leb_le; lia. }
  unfold group_value, int_of_code_points. rewrite HL.
  destruct ds as [|c ds']; [discriminate Hn|].
  pose proof (to_ascii_decimal c (proj1 (forallb_forall _ _) Hds c (or_introl eq_refl))) as [_ Hc].
  cbn [map skip_c_space].
  replace (c_isspace (48 + decval c)) with false
    by (symmetry; unfold c_isspace; apply orb_false_iff; split;
        [apply Z.eqb_neq; lia|apply andb_false_iff; right; apply Z.leb_gt; lia]).
  replace (48 + decval c =? 43) with false by (symmetry; apply Z.eqb_neq; lia).
  replace (48 + decval c =? 45) with false by (symmetry; apply Z.eqb_neq; lia).
  replace (48 + decval c =? 95) with false by (symmetry; apply Z.eqb_neq; lia).
  change (48 + decval c :: map (fun c0 => 48 + decval c0) ds')
    with (map (fun c0 => 48 + decval c0) (c :: ds')).
  rewrite (scan_digits_run 0 _ ltac:(lia) HA).
  rewrite !length_map, map_map.
  replace (Nat.eqb (List.length (c :: ds')) 0) with false by reflexivity.
  replace (int_max_str_digits <? List.length (c :: ds'))%nat with false
    by (symmetry; apply Nat.ltb_ge; exact Hle).
  cbn [orb skip_c_space].
  f_equal. unfold dec_value. rewrite Z.mul_1_l. f_equal.
  apply map_ext. intros x. unfold decval. lia.
Qed.

(** A duration [PT[hH][mM][sS]] (each part an optional run of 1 to 4300
    Unicode decimal digits) is parsed to [h*3600 + m*60 + s], with each
    part read as the number its digits' values spell. *)
Theorem parse_duration_iso8601_grammar (duration : string) (h m s : option (list Z)) :
  digits_ok h = true -> digits_ok m = true -> digits_ok s = true ->
  utf8_decode (list_ascii_of_string duration)
  = 80 :: 84 :: dur_part h 72 ++ dur_part m 77 ++ dur_part s 83 ->
  parse_duration_iso8601 (Some duration)
  = Ok (dec_value h * 3600 + dec_value m * 60 + dec_value s).
Proof.
  intros Hh Hm Hs Hd.
  assert (HS : exists l, opt_group 83 (dur_part s 83 ++ []) = (s, []) :: l)
    by (apply opt_group_head; [reflexivity|exact Hs|left; reflexivity]).
  rewrite app_nil_r in HS. destruct HS as (lS & ES).
  assert (HM : exists l, opt_group 77 (dur_part m 77 ++ dur_part s 83)
                         = (m, dur_part s 83) :: l).
  { apply opt_group_head; [reflexivity|exact Hm|].
    rewrite <- (app_nil_r (dur_part s 83)).
    apply after_ok_part; [exact Hs|reflexivity|discriminate|left; reflexivity]. }
  destruct HM as (lM & EM).
  assert (HH : exists l, opt_group 72 (dur_part h 72 ++ dur_part m 77 ++ dur_part s 83)
                         = (h, dur_part m 77 ++ dur_part s 83) :: l).
  { apply opt_group_head; [reflexivity|exact Hh|].
    apply after_ok_part; [exact Hm|reflexivity|discriminate|].
    rewrite <- (app_nil_r (dur_part s 83)).
    apply after_ok_part; [exact Hs|reflexivity|discriminate|left; reflexivity]. }
  destruct HH as (lH & EH).
  unfold parse_duration_iso8601. rewrite Hd.
  cbn [duration_matches]. rewrite !Z.eqb_refl. cbn [andb].
  rewrite EH. cbn [flat_map snd fst]. rewrite EM. cbn [flat_map snd fst]. rewrite ES.
  cbn [flat_map snd fst dollar app].
  rewrite (group_value_ok h Hh), (group_value_ok m Hm), (group_value_ok s Hs).
  reflexivity.
Qed.

Lemma lstrip_head (s : text) c : hd_error (lstrip s) = Some c -> py_isspace c = false.
Proof.
  induction s as [|x s IH]; simpl; [discriminate|].
  destruct (py_isspace x) eqn:E; auto. simpl. congruence.
Qed.

Lemma lstrip_suffix (s : text) : exists p, s = p ++ lstrip s.
Proof.
  induction s as [|x s IH]; simpl; [exists []; reflexivity|].
  destruct (py_isspace x); [destruct IH as [p Hp]; exists (x :: p); simpl; congruence|].
  exists []; reflexivity.
Qed.

Lemma lstrip_idem (s : text) : lstrip (lstrip s) = lstrip s.
Proof.
  induction s as [|x s IH]; simpl; auto. destruct (py_isspace x) eqn:E; auto.
  simpl. rewrite E. reflexivity.
Qed.

Lemma split_on_no_sep (sep : Z) (s : text) : Forall (fun p => ~ In sep p) (split_on sep s).
Proof.
  induction s as [|c s IH]; simpl; [constructor; [simpl; tauto | constructor]|].
  destruct (c =? sep) eqn:E; [constructor; [simpl; tauto | exact IH]|].
  destruct (split_on sep s) as [|p ps] eqn:Es.
  - constructor; [|constructor]. simpl. intros [H|[]]. apply Z.eqb_neq in E. congruence.
  - inversion IH; subst. constructor; auto. simpl. intros [H|H]; [apply Z.eqb_neq in E; congruence|tauto].
Qed.

Lemma lstrip_in (s : text) x : In x (lstrip s) -> In x s.
Proof. destruct (lstrip_suffix s) as [p Hp]. intros H. rewrite Hp. apply in_or_app. auto. Qed.

Lemma strip_in (s : text) x : In x (strip s) -> In x s.
Proof.
  unfold strip. intros H. apply in_rev in H. apply lstrip_in in H.
  apply in_rev in H. apply lstrip_in in H. exact H.
Qed.

Lemma lstrip_strip (s : text) : lstrip (strip s) = strip s.
Proof.
  unfold strip. set (X := lstrip s).
  destruct (lstrip_suffix (rev X)) as [p Hp].
  destruct (lstrip (rev X)) as [|y Y] eqn:EY; [reflexivity|].
  destruct (exists_last (l := y :: Y) ltac:(discriminate)) as [Y' [c Hc]].
  rewrite Hc. rewrite rev_app_distr. simpl.
  assert (Hx : hd_error X = Some c).
  { assert (E : X = rev (rev X)) by (rewrite rev_involutive; reflexivity).
    rewrite E, Hp, Hc, app_assoc, rev_app_distr. reflexivity. }
  apply lstrip_head in Hx. rewrite Hx. reflexivity.
Qed.

Lemma strip_idem (s : text) : strip (strip s) = strip s.
Proof.
  unfold strip at 1. rewrite lstrip_strip. unfold strip at 1.
  rewrite rev_involutive, lstrip_idem. reflexivity.
Qed.

(** [parse_queries] yields non-empty queries, each equal to its own
    [strip()] and free of commas. *)
Theorem parse_queries_clean (queries : text) :
  Forall (fun q => q <> [] /\ strip q = q /\ ~ In 44 q) (parse_queries queries).
Proof.
  unfold parse_queries. apply Forall_map.
  pose proof (split_on_no_sep 44 queries) as H.
  induction H as [|p ps Hp Hps IH]; simpl; [constructor|].
  destruct (negb (List.length (strip p) =? 0)%nat) eqn:E; [|exact IH].
  constructor; [|exact IH].
  split; [intros Hn; rewrite Hn in E; discriminate|].
  split; [apply strip_idem|]. intros Hin. apply strip_in in Hin. contradiction.
Qed.

Lemma unique_latest_fresh (seen : list string) (objs : list tagged) o :
  In o (unique_latest seen objs) -> ~ In (tag_videoId o) seen.
Proof.
  revert seen. induction objs as [|x objs IH]; intros seen; simpl; [tauto|].
  destruct (existsb (String.eqb (tag_videoId x)) seen) eqn:E; [apply IH|].
  intros [<-|H].
  - intros Hin. assert (existsb (String.eqb (tag_videoId x)) seen = true).
    { apply existsb_exists. exists (tag_videoId x). split; [exact Hin|apply String.eqb_refl]. }
    congruence.
  - intros Hin. apply (IH _ H). simpl. auto.
Qed.

Lemma unique_latest_ids (seen : list string) (objs : list tagged) v :
  In v (map tag_videoId (unique_latest seen objs))
  <-> In v (map tag_videoId objs) /\ ~ In v seen.
Proof.
  revert seen. induction objs as [|x objs IH]; intros seen; simpl; [tauto|].
  destruct (existsb (String.eqb (tag_videoId x)) seen) eqn:E.
  - rewrite IH. apply existsb_exists in E. destruct E as [w [Hw Ew]].
    apply String.eqb_eq in Ew. subst w. split; [tauto|].
    intros [[<-|H] Hn]; [contradiction|tauto].
  - simpl. rewrite IH. simpl. split.
    + intros [<-|[H Hn]]; split; auto.
      intros Hin. assert (existsb (String.eqb (tag_videoId x)) seen = true).
      { apply existsb_exists. exists (tag_videoId x). split; [exact Hin|apply String.eqb_refl]. }
      congruence.
    + intros [[<-|H] Hn]; [auto|].
      destruct (String.eqb_spec (tag_videoId x) v); [auto|]. right. split; [exact H|].
      intros [Hv|Hv]; [congruence|contradiction].
Qed.

Lemma unique_latest_nodup (seen : list string) (objs : list tagged) :
  NoDup (map tag_videoId (unique_latest seen objs)).
Proof.
  revert seen. induction objs as [|x objs IH]; intros seen; simpl; [constructor|].
  destruct (existsb (String.eqb (tag_videoId x)) seen); [apply IH|].
  simpl. constructor; [|apply IH].
  rewrite unique_latest_ids. simpl. tauto.
Qed.

Lemma unique_latest_subseq (seen : list string) (objs : list tagged) :
  subseq (unique_latest seen objs) objs.
Proof.
  revert seen. induction objs as [|x objs IH]; intros seen; simpl; [constructor|].
  destruct (existsb (String.eqb (tag_videoId x)) seen); constructor; apply IH.
Qed.

Lemma unique_latest_first (seen : list string) (objs : list tagged) :
  Forall (fun o => find (fun x => String.eqb (tag_videoId x) (tag_videoId o)) objs = Some o)
    (unique_latest seen objs).
Proof.
  apply Forall_forall. revert seen. induction objs as [|x objs IH]; intros seen o; simpl; [tauto|].
  destruct (existsb (String.eqb (tag_videoId x)) seen) eqn:E.
  - intros H. pose proof (unique_latest_fresh _ _ _ H) as Hf.
    destruct (String.eqb_spec (tag_videoId x) (tag_videoId o)) as [Heq|]; [|eapply IH; eauto].
    exfalso. apply Hf. apply existsb_exists in E. destruct E as [w [Hw Ew]].
    apply String.eqb_eq in Ew. congruence.
  - intros [<-|H]; [rewrite String.eqb_refl; reflexivity|].
    pose proof (unique_latest_fresh _ _ _ H) as Hf.
    destruct (String.eqb_spec (tag_videoId x) (tag_videoId o)) as [Heq|]; [|eapply IH; eauto].
    exfalso. apply Hf. simpl. auto.
Qed.

(** The Quick Update's de-duplication keeps, in their order, the first
    object of each video id: the ids it keeps are distinct and are all the
    ids of the input. *)
Theorem unique_latest_objs_spec (latest_video_objs : list tagged) :
  let u := unique_latest [] latest_video_objs in
  NoDup (map tag_videoId u) /\ subseq u latest_video_objs
  /\ (forall v, In v (map tag_videoId u) <-> In v (map tag_videoId latest_video_objs))
  /\ Forall (fun o => find (fun x => String.eqb (tag_videoId x) (tag_videoId o))
                        latest_video_objs = Some o) u.
Proof.
  simpl. split; [apply unique_latest_nodup|]. split; [apply unique_latest_subseq|].
  split; [|apply unique_latest_first].
  intros v. rewrite unique_latest_ids. simpl. tauto.
Qed.

Lemma text_eqb_eq (a b : text) : text_eqb a b = true <-> a = b.
Proof. unfold text_eqb. destruct (list_eq_dec Z.eq_dec a b); split; congruence. Qed.

Lemma set_add_in (x y : text) (s : list text) : In y (set_add x s) <-> y = x \/ In y s.
Proof.
  unfold set_add. destruct (existsb (text_eqb x) s) eqn:E.
  - apply existsb_exists in E. destruct E as [w [Hw Ew]]. apply text_eqb_eq in Ew. subst w.
    split; [auto|]. intros [->|H]; auto.
  - rewrite in_app_iff. simpl. split; [intros [H|[H|[]]]; auto|intros [H|H]; auto].
Qed.

Lemma set_add_nodup (x : text) (s : list text) : NoDup s -> NoDup (set_add x s).
Proof.
  unfold set_add. destruct (existsb (text_eqb x) s) eqn:E; [auto|]. intros H.
  apply NoDup_app; [exact H|constructor; [simpl; tauto|constructor]|].
  intros y Hy [<-|[]]. assert (existsb (text_eqb x) s = true).
  { apply existsb_exists. exists x. split; [exact Hy|]. apply text_eqb_eq. reflexivity. }
  congruence.
Qed.

Lemma set_add_forall (P : text -> Prop) (x : text) (s : list text) :
  P x -> Forall P s -> Forall P (set_add x s).
Proof.
  intros Hx Hs. apply Forall_forall. intros y Hy. apply set_add_in in Hy.
  destruct Hy as [->|Hy]; [exact Hx|]. rewrite Forall_forall in Hs. auto.
Qed.

Lemma is_channel_id_uc (s : text) : is_channel_id s = true -> uc_search s = Some s.
Proof.
  intros H. destruct s as [|a [|b r]]; [discriminate|discriminate|].
  unfold is_channel_id, starts_UC in H. cbn [skipn] in H.
  apply andb_prop in H as [H Hr]. apply andb_prop in H as [Hl Hab].
  apply andb_prop in Hab as [Ha Hb]. apply Z.eqb_eq in Ha, Hb. subst a b.
  apply Nat.eqb_eq in Hl. cbn [List.length] in Hl.
  assert (Hrun : id_run 22 r = true).
  { unfold id_run. rewrite firstn_all2 by lia. rewrite Hr, andb_true_r. apply Nat.leb_le. lia. }
  cbn [uc_search]. rewrite Hrun. cbn [Z.eqb andb].
  change (firstn 24 (85 :: 67 :: r)) with (85 :: 67 :: firstn 22 r).
  rewrite firstn_all2 by lia. reflexivity.
Qed.

Lemma uc_search_sound (s g : text) :
  uc_search s = Some g -> is_channel_id g = true /\ exists p q, s = p ++ g ++ q.
Proof.
  induction s as [|c s IH]; cbn [uc_search]; [discriminate|].
  destruct ((c =? 85) && match s with d :: r => (d =? 67) && id_run 22 r | [] => false end) eqn:E.
  - intros Hg. assert (Eg : firstn 24 (c :: s) = g) by congruence. subst g. clear Hg.
    apply andb_prop in E as [Ec E]. destruct s as [|d r]; [discriminate|].
    apply andb_prop in E as [Ed Er]. unfold id_run in Er. apply andb_prop in Er as [Hl Hr].
    apply Nat.leb_le in Hl.
    change (firstn 24 (c :: d :: r)) with (c :: d :: firstn 22 r). split.
    + unfold is_channel_id, starts_UC. cbn [skipn List.length]. rewrite Ec, Ed, Hr.
      rewrite length_firstn, Nat.min_l by exact Hl. reflexivity.
    + exists [], (skipn 22 r). cbn [app]. rewrite firstn_skipn. reflexivity.
  - intros H. destruct (IH H) as [Hg [p [q Hs]]]. split; [exact Hg|].
    exists (c :: p), q. rewrite Hs. reflexivity.
Qed.

Lemma pin_search_sound (s g : text) :
  pin_search s = Some g -> List.length g = 11%nat /\ exists p q, s = p ++ g ++ q.
Proof.
  induction s as [|c s IH]; cbn [pin_search]; [discriminate|].
  destruct ((c =? 118) && match s with d :: r => (d =? 61) && id_run 11 r | [] => false end) eqn:E.
  - intros Hg. assert (Eg : firstn 11 (tl s) = g) by congruence. subst g. clear Hg.
    apply andb_prop in E as [_ E]. destruct s as [|d r]; [discriminate|].
    apply andb_prop in E as [_ Er]. unfold id_run in Er. apply andb_prop in Er as [Hl _].
    apply Nat.leb_le in Hl. cbn [tl]. split; [rewrite length_firstn; lia|].
    exists [c; d], (skipn 11 r). cbn [app]. rewrite firstn_skipn. reflexivity.
  - destruct ((c =? 47) && id_run 11 s) eqn:E2.
    + intros Hg. assert (Eg : firstn 11 s = g) by congruence. subst g. clear Hg.
      apply andb_prop in E2 as [_ Er]. unfold id_run in Er.
      apply andb_prop in Er as [Hl _]. apply Nat.leb_le in Hl.
      split; [rewrite length_firstn; lia|].
      exists [c], (skipn 11 s). cbn [app]. rewrite firstn_skipn. reflexivity.
    + intros H. destruct (IH H) as [Hg [p [q Hs]]]. split; [exact Hg|].
      exists (c :: p), q. rewrite Hs. reflexivity.
Qed.

Section WatchlistProofs.

Variable R : text -> pres (option text).

Lemma watch_loop_app (acc : list text * list text) (l1 l2 : list text) :
  watch_loop R acc (l1 ++ l2) = let% a := watch_loop R acc l1 in watch_loop R a l2.
Proof.
  revert acc. induction l1 as [|e l1 IH]; intros acc; simpl; [reflexivity|].
  destruct (watch_entry R acc e); simpl; [apply IH|reflexivity].
Qed.

Lemma watch_entry_inv (E : list text) (acc acc' : list text * list text) (e : text) :
  In e E -> watch_inv R E acc -> watch_entry R acc e = POk acc' -> watch_inv R E acc'.
Proof.
  intros He [Hn [Hi Hu]]. destruct acc as [ids un]. simpl in Hn, Hi, Hu.
  unfold watch_entry.
  assert (Hun : strip e <> [] -> Forall (unparsed_source E) (un ++ [strip e])).
  { intros Hne. apply Forall_app. split; [exact Hu|]. constructor; [|constructor].
    split; [exact Hne|]. exists e. auto. }
  destruct (List.length (strip e) =? 0)%nat eqn:El; [intros [= <-]; split; auto|].
  assert (Hne : strip e <> []) by (intros Hs; rewrite Hs in El; discriminate).
  destruct (uc_search (strip e)) as [g|] eqn:Eu.
  - intros [= <-]. split; [apply set_add_nodup; exact Hn|]. simpl. split; [|exact Hu].
    apply set_add_forall; [|exact Hi]. exists e. split; [exact He|]. left.
    split; [exact Eu|]. apply (uc_search_sound _ _ Eu).
  - destruct (handle_search (strip e)) as [h|] eqn:Eh.
    + destruct (R h) as [[c|]|x] eqn:ER; simpl; [|intros [= <-]; split; auto|discriminate].
      destruct (negb (List.length c =? 0)%nat) eqn:Ec; intros [= <-]; [|split; auto].
      split; [apply set_add_nodup; exact Hn|]. simpl. split; [|exact Hu].
      apply set_add_forall; [|exact Hi]. exists e. split; [exact He|]. right. left.
      split; [exact Eu|]. exists h. split; [exact Eh|]. split; [exact ER|].
      intros Hc. rewrite Hc in Ec. discriminate.
    + destruct ((List.length (strip e) =? 24)%nat && starts_UC (strip e)) eqn:E24;
        intros [= <-]; [|split; auto].
      split; [apply set_add_nodup; exact Hn|]. simpl. split; [|exact Hu].
      apply set_add_forall; [|exact Hi]. exists e. split; [exact He|]. right. right.
      apply andb_prop in E24 as [E1 E2]. apply Nat.eqb_eq in E1.
      repeat split; auto.
      destruct (is_channel_id (strip e)) eqn:Ec; [|reflexivity].
      apply is_channel_id_uc in Ec. congruence.
Qed.

Lemma watch_loop_inv (E : list text) (acc acc' : list text * list text) (l : list text) :
  incl l E -> watch_inv R E acc -> watch_loop R acc l = POk acc' -> watch_inv R E acc'.
Proof.
  revert acc. induction l as [|e l IH]; intros acc Hl Hi; simpl; [congruence|].
  destruct (watch_entry R acc e) as [a|x] eqn:Ee; simpl; [|discriminate].
  apply IH; [intros y Hy; apply Hl; simpl; auto|].
  eapply watch_entry_inv; [apply Hl; simpl; auto|exact Hi|exact Ee].
Qed.

End WatchlistProofs.

(** Each channel id the watch list tab collects is distinct and comes from
    one entry: the leftmost [UC...] id in it (which has the shape of a
    channel id), or the id the handle lookup returned for the entry's
    [@handle], or the whole stripped entry when it is 24 characters long
    and starts with [UC] without having the shape of a channel id; every
    unparsed entry is a non-empty stripped entry. *)
Theorem parse_watchlist_sound (get_channel_id_from_handle : text -> pres (option text))
    (entries watchlist_ids unparsed_entries : list text) :
  parse_watchlist get_channel_id_from_handle entries = POk (watchlist_ids, unparsed_entries) ->
  NoDup watchlist_ids
  /\ Forall (id_source get_channel_id_from_handle entries) watchlist_ids
  /\ Forall (unparsed_source entries) unparsed_entries.
Proof.
  intros H. apply (watch_loop_inv get_channel_id_from_handle entries ([], []) _ entries)
    in H; [exact H|apply incl_refl|].
  split; [constructor|]. split; constructor.
Qed.

(** A blank entry anywhere in the watch list changes nothing. *)
Theorem parse_watchlist_blank (get_channel_id_from_handle : text -> pres (option text))
    (l1 l2 : list text) (blank : text) :
  strip blank = [] ->
  parse_watchlist get_channel_id_from_handle (l1 ++ blank :: l2)
  = parse_watchlist get_channel_id_from_handle (l1 ++ l2).
Proof.
  intros Hb. unfold parse_watchlist. rewrite !watch_loop_app.
  destruct (watch_loop get_channel_id_from_handle ([], []) l1) as [a|x]; simpl; [|reflexivity].
  unfold watch_entry. destruct a as [ids un]. rewrite Hb. reflexivity.
Qed.

Lemma set_of_fold (xs s : list text) :
  NoDup s -> NoDup (fold_left (fun s x => set_add x s) xs s)
  /\ forall v, In v (fold_left (fun s x => set_add x s) xs s) <-> In v s \/ In v xs.
Proof.
  revert s. induction xs as [|x xs IH]; intros s Hs; simpl.
  - split; [exact Hs|tauto].
  - destruct (IH (set_add x s) (set_add_nodup _ _ Hs)) as [H1 H2]. split; [exact H1|].
    intros v. rewrite H2, set_add_in. intuition (subst; auto).
Qed.

Lemma pin_part_inv (P I : list text) (acc : list text) (part : text) :
  In part I -> NoDup acc -> (forall v, In v P -> In v acc)
  -> (forall v, In v acc -> In v P \/ pin_from I v)
  -> NoDup (pin_part acc part) /\ (forall v, In v P -> In v (pin_part acc part))
     /\ (forall v, In v (pin_part acc part) -> In v P \/ pin_from I v).
Proof.
  intros Hp Hn Hsub Hsrc. unfold pin_part.
  destruct (List.length (strip part) =? 0)%nat; [auto|].
  assert (Hadd : forall v, pin_from I v ->
            NoDup (set_add v acc) /\ (forall w, In w P -> In w (set_add v acc))
            /\ (forall w, In w (set_add v acc) -> In w P \/ pin_from I w)).
  { intros v Hv. split; [apply set_add_nodup; exact Hn|]. split.
    - intros w Hw. apply set_add_in. right. auto.
    - intros w Hw. apply set_add_in in Hw. destruct Hw as [->|Hw]; auto. }
  destruct (pin_search (strip part)) as [g|] eqn:Eg.
  - destruct (negb (List.length g =? 0)%nat); [|auto]. apply Hadd.
    destruct (pin_search_sound _ _ Eg) as [Hl [p [q Hs]]].
    split; [exact Hl|]. exists part. split; [exact Hp|]. exists p, q. exact Hs.
  - destruct (List.length (strip part) =? 11)%nat eqn:E11; [|auto].
    destruct (negb (List.length (strip part) =? 0)%nat); [|auto]. apply Hadd.
    split; [apply Nat.eqb_eq; exact E11|]. exists part. split; [exact Hp|].
    exists [], []. rewrite app_nil_r. reflexivity.
Qed.

Lemma pins_fold (P I : list text) (I0 : list text) (acc : list text) :
  incl I0 I -> NoDup acc -> (forall v, In v P -> In v acc)
  -> (forall v, In v acc -> In v P \/ pin_from I v)
  -> NoDup (fold_left pin_part I0 acc) /\ (forall v, In v P -> In v (fold_left pin_part I0 acc))
     /\ (forall v, In v (fold_left pin_part I0 acc) -> In v P \/ pin_from I v).
Proof.
  revert acc. induction I0 as [|part I0 IH]; intros acc Hincl Hn H0 H1; simpl; [auto|].
  destruct (pin_part_inv P I acc part) as [Hn' [H0' H1']]; auto; [apply Hincl; simpl; auto|].
  apply IH; auto. intros y Hy. apply Hincl. simpl. auto.
Qed.

(** The pins after the consolidation are distinct; they keep every pin
    there was, and each new one is 11 characters of one stripped input. *)
Theorem consolidate_pins_spec (pinned_video_ids pinned_inputs : list text) :
  let r := consolidate_pins pinned_video_ids pinned_inputs in
  NoDup r /\ (forall v, In v pinned_video_ids -> In v r)
  /\ (forall v, In v r -> In v pinned_video_ids \/ pin_from pinned_inputs v).
Proof.
  simpl. unfold consolidate_pins, set_of.
  destruct (set_of_fold pinned_video_ids [] (NoDup_nil _)) as [Hn Hin].
  apply pins_fold; [apply incl_refl|exact Hn| |].
  - intros v Hv. apply Hin. auto.
  - intros v Hv. apply Hin in Hv. destruct Hv as [[]|Hv]. auto.
Qed.

(** A positive batch size cuts a list into batches of 1 to [n] elements
    that concatenate back to it. *)
Lemma chunked_batches {A} (xs : list A) (n : Z) (cs : list (list A)) :
  0 < n -> chunked xs n = Ok cs ->
  List.concat cs = xs /\ Forall (fun c => (0 < List.length c)%nat /\ Z.of_nat (List.length c) <= n) cs.
Proof.
  intros Hn. replace n with (Z.of_nat (Z.to_nat n)) by lia.
  set (n' := Z.to_nat n). assert (Hn' : (0 < n')%nat) by lia. clearbody n'.
  rewrite (chunked_pos xs n' Hn'). intros E. injection E as <-.
  set (c := Z.to_nat _).
  assert (Hc : Z.of_nat c = (Z.of_nat (List.length xs) + Z.of_nat n' - 1) / Z.of_nat n').
  { unfold c. rewrite Z2Nat.id; [reflexivity|]. apply Z.div_pos; lia. }
  destruct (chunk_count_bound (List.length xs) n' c Hn' Hc) as [H1 H2]. split.
  - rewrite concat_chunks. simpl. apply firstn_all2. lia.
  - apply Forall_forall. intros ch Hin. apply in_map_iff in Hin as (k & <- & Hk).
    apply in_seq in Hk. rewrite length_firstn, length_skipn. nia.
Qed.

Section BatchProofs.

Variable F : string -> list (string * pyval) -> option api_response.

Lemma api_batches_log {D} (url : string) (P : list string -> list (string * pyval))
    (I : json -> pres D) (bs : list (list string)) (results : list D) :
  let '(res, log) := api_batches F url P I bs results in
  (exists k, log = firstn k (map P bs)) /\ (forall x, res = POk x -> log = map P bs).
Proof.
  revert results. induction bs as [|b bs IH]; intros results; simpl.
  - split; [exists 0%nat; reflexivity|auto].
  - destruct (api_ok (F url (P b))) as [r|].
    + destruct (append_response I r results) as [results'|e].
      * specialize (IH results'). destruct (api_batches F url P I bs results') as [res log].
        destruct IH as [[k Hk] H2]. split; [exists (S k); simpl; congruence|].
        intros x Hx. rewrite (H2 x Hx). reflexivity.
      * split; [exists 1%nat; reflexivity|discriminate].
    + specialize (IH results). destruct (api_batches F url P I bs results) as [res log].
      destruct IH as [[k Hk] H2]. split; [exists (S k); simpl; congruence|].
      intros x Hx. rewrite (H2 x Hx). reflexivity.
Qed.

Lemma api_batches_all_fail {D} (url : string) (P : list string -> list (string * pyval))
    (I : json -> pres D) (bs : list (list string)) (results : list D) :
  (forall p, api_ok (F url p) = None) ->
  api_batches F url P I bs results = (POk results, map P bs).
Proof.
  intros Hf. induction bs as [|b bs IH]; simpl; [reflexivity|].
  rewrite Hf, IH. reflexivity.
Qed.

Lemma append_items_forall {D} (Q : D -> Prop) (I : json -> pres D) (items : list json)
    (results r : list D) :
  (forall item d, I item = POk d -> Q d) -> Forall Q results ->
  append_items I items results = POk r -> Forall Q r.
Proof.
  intros HI. revert results. induction items as [|it items IH]; intros results Hr; simpl.
  - congruence.
  - destruct (I it) as [d|e] eqn:E; simpl; [|discriminate].
    apply IH. apply Forall_app. split; [exact Hr|]. constructor; [eapply HI; eauto|constructor].
Qed.

Lemma api_batches_forall {D} (Q : D -> Prop) (url : string)
    (P : list string -> list (string * pyval)) (I : json -> pres D)
    (bs : list (list string)) (results r : list D) :
  (forall item d, I item = POk d -> Q d) -> Forall Q results ->
  fst (api_batches F url P I bs results) = POk r -> Forall Q r.
Proof.
  intros HI. revert results. induction bs as [|b bs IH]; intros results Hr; simpl.
  - congruence.
  - destruct (api_ok (F url (P b))) as [resp|].
    + destruct (append_response I resp results) as [results'|e] eqn:Ea.
      * pose proof (IH results') as IH'. destruct (api_batches F url P I bs results') as [res log].
        apply IH'. unfold append_response in Ea.
        destruct (response_json resp); simpl in Ea; [|discriminate].
        destruct (jget a "items" (JArr [])); simpl in Ea; [|discriminate].
        destruct (json_iter a0); simpl in Ea; [|discriminate].
        eapply append_items_forall; eauto.
      * simpl. discriminate.
    + pose proof (IH results Hr) as IH'. destruct (api_batches F url P I bs results) as [res log].
      exact IH'.
Qed.

End BatchProofs.

(** The keyword [source_keywords] holds for [v]: the one of the last
    object with id [v]. *)
Lemma source_keywords_last (objs : list video_obj) (v : string) :
  source_keywords objs v
  = option_map vo_sourceKeyword (find (fun o => String.eqb (vo_videoId o) v) (rev objs)).
Proof.
  unfold source_keywords. induction objs as [|o objs IH] using rev_ind; [reflexivity|].
  rewrite fold_left_app, rev_app_distr. simpl. rewrite IH.
  destruct (String.eqb (vo_videoId o) v); reflexivity.
Qed.

Ltac pstep :=
  match goal with
  | |- pbind ?c _ = POk _ -> _ =>
      let E := fresh "E" in destruct c eqn:E; cbn [pbind]; [|discriminate]
  end.

Lemma video_item_ok (video_objs : list video_obj) (item : json) (d : video_detail) :
  video_item video_objs item = POk d -> video_detail_ok video_objs d.
Proof.
  unfold video_item. repeat pstep. intros [= <-]. unfold video_detail_ok.
  cbn [vd_category vd_duration vd_likes vd_comments vd_sentiment vd_liveStatus
       vd_sourceKeyword vd_videoId].
  split; [destruct (Z.leb_spec a4 SHORTS_MAX_DURATION); split; intros; auto; try discriminate; lia|].
  split.
  { match goal with H : lift (simulate_sentiment_analysis _ _) = POk _ |- _ =>
      unfold lift in H; destruct (simulate_sentiment_analysis _ _); congruence end. }
  split.
  { match goal with H : (if ?b then POk "LIVE" else _) = POk _ |- _ =>
      destruct b; [injection H as <-; auto|];
      destruct (jcontains _ "scheduledStartTime") as [[|]|]; cbn [pbind] in H;
      try discriminate; injection H as <-; auto end. }
  match goal with H : source_keywords_get video_objs ?x = POk _ |- _ =>
    unfold source_keywords_get in H; destruct x; try discriminate; injection H as <-;
    try reflexivity end.
  rewrite source_keywords_last. destruct (find _ _); reflexivity.
Qed.

Lemma chunked_50 {A} (xs : list A) :
  exists cs, chunked xs 50 = Ok cs /\ List.concat cs = xs
  /\ Forall (fun c => (0 < List.length c)%nat /\ Z.of_nat (List.length c) <= 50) cs.
Proof.
  pose proof (chunked_pos xs 50 ltac:(lia)) as H. change (Z.of_nat 50) with 50 in H.
  eexists. split; [exact H|]. apply (chunked_batches xs 50); [lia|exact H].
Qed.

(** [get_video_details] requests the ids in batches of 1 to 50, in order:
    the batches concatenate to the ids given; it stops after a prefix of
    them only when it raises. *)
Theorem get_video_details_requests
    (try_request_api : string -> list (string * pyval) -> option api_response)
    (video_objs : list video_obj) :
  exists cs,
    List.concat cs = map vo_videoId video_objs
    /\ Forall (fun c => (0 < List.length c)%nat /\ Z.of_nat (List.length c) <= 50) cs
    /\ (exists k, snd (get_video_details try_request_api video_objs)
                  = firstn k (map video_params cs))
    /\ (forall ds, fst (get_video_details try_request_api video_objs) = POk ds
                   -> snd (get_video_details try_request_api video_objs) = map video_params cs).
Proof.
  destruct (chunked_50 (map vo_videoId video_objs)) as (cs & Hc & Hcat & Hsz).
  exists cs. split; [exact Hcat|]. split; [exact Hsz|].
  unfold get_video_details. rewrite Hc.
  pose proof (api_batches_log try_request_api YOUTUBE_VIDEO_URL video_params
                (video_item video_objs) cs []) as H.
  destruct (api_batches _ _ _ _ cs []) as [res log]. exact H.
Qed.

(** Every record [get_video_details] returns is a Short exactly when its
    duration is at most 60 seconds, carries the sentiment of its likes and
    comments, a live status among LIVE, UPCOMING and NORMAL, and the
    keyword of the last input object with its id. *)
Theorem get_video_details_records
    (try_request_api : string -> list (string * pyval) -> option api_response)
    (video_objs : list video_obj) (ds : list video_detail) :
  fst (get_video_details try_request_api video_objs) = POk ds ->
  Forall (video_detail_ok video_objs) ds.
Proof.
  unfold get_video_details.
  destruct (chunked_50 (map vo_videoId video_objs)) as (cs & Hc & _). rewrite Hc.
  intros H. eapply api_batches_forall; [| |exact H]; [|constructor].
  intros item d. apply video_item_ok.
Qed.

(** When no request gets a response with status 200, [get_video_details]
    returns an empty list and raises nothing. *)
Theorem get_video_details_all_fail
    (try_request_api : string -> list (string * pyval) -> option api_response)
    (video_objs : list video_obj) :
  (forall params, api_ok (try_request_api YOUTUBE_VIDEO_URL params) = None) ->
  fst (get_video_details try_request_api video_objs) = POk [].
Proof.
  intros Hf. unfold get_video_details.
  destruct (chunked_50 (map vo_videoId video_objs)) as (cs & Hc & _). rewrite Hc.
  rewrite api_batches_all_fail by exact Hf. reflexivity.
Qed.

(** [get_channel_details] makes no request for an empty list; otherwise
    it requests each distinct id exactly once, in batches of 1 to 50, and
    stops after a prefix of the batches only when it raises. *)
Theorem get_channel_details_requests
    (try_request_api : string -> list (string * pyval) -> option api_response)
    (list_of_set : list string -> list string) (channel_ids : list string) :
  NoDup (list_of_set channel_ids) ->
  (forall x, In x (list_of_set channel_ids) <-> In x channel_ids) ->
  (channel_ids = [] -> get_channel_details try_request_api list_of_set channel_ids = (POk [], []))
  /\ exists cs,
    NoDup (List.concat cs) /\ (forall x, In x (List.concat cs) <-> In x channel_ids)
    /\ Forall (fun c => (0 < List.length c)%nat /\ Z.of_nat (List.length c) <= 50) cs
    /\ (exists k, snd (get_channel_details try_request_api list_of_set channel_ids)
                  = firstn k (map channel_params cs))
    /\ (forall r, fst (get_channel_details try_request_api list_of_set channel_ids) = POk r
                  -> snd (get_channel_details try_request_api list_of_set channel_ids)
                     = map channel_params cs).
Proof.
  intros Hnd Hin. split; [intros ->; reflexivity|].
  destruct channel_ids as [|c0 ids0] eqn:Eids.
  - exists []. simpl. split; [constructor|]. split; [tauto|]. split; [constructor|].
    split; [exists 0%nat; reflexivity|auto].
  - rewrite <- Eids in *.
    destruct (chunked_50 (list_of_set channel_ids)) as (cs & Hc & Hcat & Hsz).
    exists cs. rewrite Hcat. split; [exact Hnd|]. split; [exact Hin|]. split; [exact Hsz|].
    unfold get_channel_details. rewrite Eids. rewrite <- Eids. rewrite Hc.
    pose proof (api_batches_log try_request_api YOUTUBE_CHANNEL_URL channel_params
                  channel_item cs []) as H.
    destruct (api_batches _ _ _ _ cs []) as [res log]. exact H.
Qed.

Lemma placeholders_app (a b : string) : placeholders (a ++ b) = (placeholders a + placeholders b)%nat.
Proof.
  unfold placeholders. induction a as [|c a IH]; simpl; [reflexivity|].
  destruct (Ascii.eqb c "?"%char); simpl; lia.
Qed.

(** The query of [db_get_video_ids] has exactly one placeholder per
    parameter, and a [limit] of 0 is the same as no limit. *)
Theorem db_get_video_ids_query_params (local_offset : Z) (published_after : option datetime)
    (limit : option Z) (order_by_published : bool) :
  match db_get_video_ids_query local_offset published_after limit order_by_published with
  | Ok (query, params) => placeholders query = List.length params
  | Err e => True
  end
  /\ db_get_video_ids_query local_offset published_after (Some 0) order_by_published
     = db_get_video_ids_query local_offset published_after None order_by_published.
Proof.
  split.
  - unfold db_get_video_ids_query.
    destruct published_after as [dt|]; cbn [bind].
    + destruct (to_sql_utc_string local_offset dt) as [s|e]; cbn [bind]; [|exact I].
      destruct order_by_published, limit as [l|]; try destruct (negb (l =? 0));
        cbn [List.length app]; rewrite ?placeholders_app; reflexivity.
    + destruct order_by_published, limit as [l|]; try destruct (negb (l =? 0));
        cbn [List.length app]; rewrite ?placeholders_app; reflexivity.
  - unfold db_get_video_ids_query. destruct published_after as [dt|]; cbn [bind]; [|reflexivity].
    destruct (to_sql_utc_string local_offset dt); reflexivity.
Qed.

Lemma upsert_one_untouched (lo : Z) (now : datetime) (now_str : string) (existing : list string)
    (t : table) (r : video_in) (t' : table) (i : nat) (x : row) :
  upsert_one lo now now_str existing t r = Ok t' ->
  nth_error t i = Some x -> videoId x <> in_videoId r -> nth_error t' i = Some x.
Proof.
  intros H Hx Hne.
  destruct (upsert_one_cases _ _ _ _ _ _ _ H) as (w & _ & [(_ & ->) | (_ & _ & _ & ->)]).
  - rewrite nth_error_map, Hx. simpl. unfold update_row.
    destruct (String.eqb_spec (videoId x) (in_videoId r)); [contradiction|reflexivity].
  - rewrite nth_error_app1; [exact Hx|]. apply nth_error_Some. congruence.
Qed.

Lemma upsert_loop_untouched (lo : Z) (now : datetime) (now_str : string) (existing : list string) :
  forall rows t t' i x, upsert_loop lo now now_str existing t rows = Ok t' ->
  nth_error t i = Some x -> ~ In (videoId x) (map in_videoId rows) -> nth_error t' i = Some x.
Proof.
  induction rows as [|r rows IH]; intros t t' i x H Hx Hn; simpl in H.
  - congruence.
  - unfold bind in H. destruct (upsert_one lo now now_str existing t r) as [t1|e] eqn:H1;
      [|discriminate].
    eapply IH; [exact H| |intros Hin; apply Hn; simpl; auto].
    eapply upsert_one_untouched; [exact H1|exact Hx|]. intros He. apply Hn. simpl. auto.
Qed.

(** A row whose [videoId] is not in the batch keeps its position and all
    its values. *)
Theorem db_upsert_videos_untouched (local_offset : Z) (now : datetime) (t : table)
    (rows : list video_in) (t' : table) (i : nat) (x : row) :
  db_upsert_videos local_offset now t rows = Ok t' ->
  nth_error t i = Some x -> ~ In (videoId x) (map in_videoId rows) ->
  nth_error t' i = Some x.
Proof.
  unfold db_upsert_videos, bind.
  destruct (to_sql_utc_string local_offset now) as [now_str|e]; [|discriminate].
  apply upsert_loop_untouched.
Qed.

Lemma upsert_one_ids (lo : Z) (now : datetime) (now_str : string) (existing : list string)
    (t : table) (r : video_in) (t' : table) :
  (forall v, existsb (String.eqb v) existing = true -> In v (map videoId t)) ->
  upsert_one lo now now_str existing t r = Ok t' ->
  (NoDup (map videoId t) -> NoDup (map videoId t'))
  /\ (forall v, In v (map videoId t') <-> In v (map videoId t) \/ v = in_videoId r).
Proof.
  intros Hex H.
  destruct (upsert_one_cases _ _ _ _ _ _ _ H) as (w & _ & [(He & ->) | (_ & Ht & _ & ->)]).
  - rewrite map_map.
    rewrite (map_ext _ videoId (update_row_videoId (in_videoId r) now_str w)).
    split; [auto|]. intros v. split; [auto|]. intros [Hv| ->]; [exact Hv|].
    apply Hex. exact He.
  - rewrite map_app. cbn [map]. unfold insert_values. cbn [videoId]. split.
    + intros Hn. apply NoDup_app; [exact Hn|constructor; [simpl; tauto|constructor]|].
      intros v Hv [<-|[]]. apply in_map_iff in Hv as (y & Hy & Hyt).
      assert (existsb (fun y => String.eqb (videoId y) (in_videoId r)) t = true).
      { apply existsb_exists. exists y. split; [exact Hyt|]. apply String.eqb_eq. exact Hy. }
      congruence.
    + intros v. rewrite in_app_iff. simpl. split; [intros [H1|[H1|[]]]; auto|intros [H1|H1]; auto].
Qed.

Lemma upsert_loop_ids (lo : Z) (now : datetime) (now_str : string) (existing : list string) :
  forall rows t t',
  (forall v, existsb (String.eqb v) existing = true -> In v (map videoId t)) ->
  upsert_loop lo now now_str existing t rows = Ok t' ->
  (NoDup (map videoId t) -> NoDup (map videoId t'))
  /\ (forall v, In v (map videoId t') <-> In v (map videoId t) \/ In v (map in_videoId rows)).
Proof.
  induction rows as [|r rows IH]; intros t t' Hex H; simpl in H.
  - injection H as <-. simpl. split; [auto|tauto].
  - unfold bind in H. destruct (upsert_one lo now now_str existing t r) as [t1|e] eqn:H1;
      [|discriminate].
    destruct (upsert_one_ids _ _ _ _ _ _ _ Hex H1) as [Hn1 Hi1].
    destruct (IH t1 t') as [Hn2 Hi2]; [intros v Hv; apply Hi1; left; apply Hex; exact Hv|exact H|].
    split; [auto|]. intros v. rewrite Hi2, Hi1. simpl. split; intros; intuition (subst; auto).
Qed.

(** After the upsert, the table's ids are the ids it had and the ids of
    the batch; ids that were distinct stay distinct. *)
Theorem db_upsert_videos_ids (local_offset : Z) (now : datetime) (t : table)
    (rows : list video_in) (t' : table) :
  db_upsert_videos local_offset now t rows = Ok t' ->
  (forall v, In v (map videoId t') <-> In v (map videoId t) \/ In v (map in_videoId rows))
  /\ (NoDup (map videoId t) -> NoDup (map videoId t')).
Proof.
  unfold db_upsert_videos, bind.
  destruct (to_sql_utc_string local_offset now) as [now_str|e]; [|discriminate].
  intros H. destruct (upsert_loop_ids local_offset now now_str (existing_ids_of t rows) rows t t') as [H1 H2];
    [intros v Hv; apply (existing_ids_of_sub t rows v Hv)|exact H|]. auto.
Qed.

Lemma upsert_one_stamp (lo : Z) (now : datetime) (now_str : string) (existing : list string)
    (t : table) (r : video_in) (t' : table) (S : string -> Prop) :
  upsert_one lo now now_str existing t r = Ok t' ->
  (forall x, In x t -> S (videoId x) -> lastUpdated x = SText now_str) ->
  forall x, In x t' -> (videoId x = in_videoId r \/ S (videoId x)) -> lastUpdated x = SText now_str.
Proof.
  intros H Hinv x Hx Hid.
  destruct (upsert_one_cases _ _ _ _ _ _ _ H) as (w & _ & [(_ & ->) | (_ & Ht & _ & ->)]).
  - apply in_map_iff in Hx as (y & <- & Hy). rewrite update_row_videoId in Hid.
    unfold update_row.
    destruct (String.eqb_spec (videoId y) (in_videoId r)); [reflexivity|].
    apply Hinv; [exact Hy|]. destruct Hid as [Hid|Hid]; [contradiction|exact Hid].
  - apply in_app_iff in Hx as [Hx|[<-|[]]]; [|reflexivity].
    apply Hinv; [exact Hx|]. destruct Hid as [Hid|Hid]; [|exact Hid].
    assert (existsb (fun y => String.eqb (videoId y) (in_videoId r)) t = true).
    { apply existsb_exists. exists x. split; [exact Hx|]. apply String.eqb_eq. exact Hid. }
    congruence.
Qed.

Lemma upsert_loop_stamp (lo : Z) (now : datetime) (now_str : string) (existing : list string) :
  forall rows t t' (S : string -> Prop),
  upsert_loop lo now now_str existing t rows = Ok t' ->
  (forall x, In x t -> S (videoId x) -> lastUpdated x = SText now_str) ->
  forall x, In x t' -> (In (videoId x) (map in_videoId rows) \/ S (videoId x))
  -> lastUpdated x = SText now_str.
Proof.
  induction rows as [|r rows IH]; intros t t' S H Hinv; simpl in H.
  - injection H as <-. intros x Hx [[]|Hs]. auto.
  - unfold bind in H. destruct (upsert_one lo now now_str existing t r) as [t1|e] eqn:H1;
      [|discriminate].
    intros x Hx Hid.
    apply (IH t1 t' (fun v => v = in_videoId r \/ S v) H); [|exact Hx|].
    + intros y Hy Hs. eapply upsert_one_stamp; eauto.
    + simpl in Hid. destruct Hid as [[Hid|Hid]|Hid]; auto.
Qed.

(** Every row of the batch ends up stamped with the same [lastUpdated]:
    the time of the call. *)
Theorem db_upsert_videos_lastUpdated (local_offset : Z) (now : datetime) (t : table)
    (rows : list video_in) (t' : table) (now_str : string) :
  to_sql_utc_string local_offset now = Ok now_str ->
  db_upsert_videos local_offset now t rows = Ok t' ->
  forall x, In x t' -> In (videoId x) (map in_videoId rows) -> lastUpdated x = SText now_str.
Proof.
  intros Hn. unfold db_upsert_videos. rewrite Hn. cbn [bind]. intros H x Hx Hid.
  apply (upsert_loop_stamp _ _ _ _ rows t t' (fun _ => False) H); [|exact Hx|auto].
  intros y _ [].
Qed.

(** * Examples of the properties above *)

Lemma chunked_concat_witness :
  0 < 2 /\ exists cs, chunked [1; 2; 3] 2 = Ok cs /\ List.concat cs = [1; 2; 3].
Proof. split; [lia|]. apply (chunked_concat [1; 2; 3] 2). lia. Defined.

Lemma chunked_sizes_witness :
  0 < 2 /\ chunked [1; 2; 3] 2 = Ok [[1; 2]; [3]]
  /\ Z.of_nat (List.length [[1; 2]; [3]]) = (Z.of_nat (List.length [1; 2; 3]) + 2 - 1) / 2
  /\ Forall (fun c => (0 < List.length c)%nat /\ Z.of_nat (List.length c) <= 2) [[1; 2]; [3]]
  /\ Forall (fun c => Z.of_nat (List.length c) = 2) (removelast [[1; 2]; [3]]).
Proof.
  assert (H : chunked [1; 2; 3] 2 = Ok [[1; 2]; [3]]) by (vm_compute; reflexivity).
  split; [lia|]. split; [exact H|]. apply (chunked_sizes [1; 2; 3] 2); [lia|exact H].
Defined.

Lemma to_sql_utc_string_instant_witness :
  to_sql_utc_string 0 dt_ex = Ok "2024-03-04 19:32:03"
  /\ exists u, "2024-03-04 19:32:03" = strftime_sql u /\ utc_fields_in_range u
     /\ epoch_seconds u = epoch_seconds dt_ex - offset_of 0 dt_ex
     /\ forall lo', to_sql_utc_string lo' u = Ok "2024-03-04 19:32:03".
Proof.
  assert (H : to_sql_utc_string 0 dt_ex = Ok "2024-03-04 19:32:03") by (vm_compute; reflexivity).
  split; [exact H|]. exact (to_sql_utc_string_instant 0 dt_ex _ H).
Defined.

Lemma parse_duration_iso8601_grammar_witness :
  digits_ok (Some [1633]) = true /\ digits_ok None = true
  /\ digits_ok (Some [51; 48]) = true
  /\ utf8_decode (list_ascii_of_string ("PT" ++ String "217"%char (String "161"%char "H30S"))%string)
     = 80 :: 84 :: dur_part (Some [1633]) 72 ++ dur_part None 77 ++ dur_part (Some [51; 48]) 83
  /\ parse_duration_iso8601 (Some ("PT" ++ String "217"%char (String "161"%char "H30S"))%string)
     = Ok (dec_value (Some [1633]) * 3600 + dec_value None * 60 + dec_value (Some [51; 48]))
  /\ parse_duration_iso8601 (Some ("PT" ++ String "217"%char (String "161"%char "H30S"))%string) = Ok 3630.
Proof.
  assert (H : utf8_decode (list_ascii_of_string ("PT" ++ String "217"%char (String "161"%char "H30S"))%string)
              = 80 :: 84 :: dur_part (Some [1633]) 72 ++ dur_part None 77
                ++ dur_part (Some [51; 48]) 83) by (vm_compute; reflexivity).
  split; [reflexivity|]. split; [reflexivity|]. split; [reflexivity|].
  split; [exact H|]. split; [|vm_compute; reflexivity].
  apply parse_duration_iso8601_grammar; [reflexivity|reflexivity|reflexivity|exact H].
Defined.

Lemma parse_watchlist_sound_witness :
  parse_watchlist resolver_ex entries_ex = POk ([uc_a; uc_b; uc_bang], [[64; 122; 122]])
  /\ NoDup [uc_a; uc_b; uc_bang]
  /\ Forall (id_source resolver_ex entries_ex) [uc_a; uc_b; uc_bang]
  /\ Forall (unparsed_source entries_ex) [[64; 122; 122]].
Proof.
  assert (H : parse_watchlist resolver_ex entries_ex
              = POk ([uc_a; uc_b; uc_bang], [[64; 122; 122]])) by (vm_compute; reflexivity).
  split; [exact H|]. exact (parse_watchlist_sound resolver_ex entries_ex _ _ H).
Defined.

Lemma parse_watchlist_blank_witness :
  strip [9; 32] = []
  /\ parse_watchlist resolver_ex ([32 :: uc_a; [64; 104; 105]] ++ [9; 32] :: [uc_bang])
     = parse_watchlist resolver_ex ([32 :: uc_a; [64; 104; 105]] ++ [uc_bang]).
Proof.
  assert (H : strip [9; 32] = []) by (vm_compute; reflexivity).
  split; [exact H|]. apply parse_watchlist_blank. exact H.
Defined.

Lemma get_video_details_records_witness :
  fst (get_video_details videos_api_ex video_objs_ex) = POk video_details_ex
  /\ video_details_ex <> []
  /\ Forall (video_detail_ok video_objs_ex) video_details_ex.
Proof.
  assert (H : fst (get_video_details videos_api_ex video_objs_ex) = POk video_details_ex)
    by (vm_compute; reflexivity).
  split; [exact H|]. split; [discriminate|].
  exact (get_video_details_records videos_api_ex video_objs_ex _ H).
Defined.

Lemma get_video_details_all_fail_witness :
  (forall params, api_ok (no_api_ex YOUTUBE_VIDEO_URL params) = None)
  /\ fst (get_video_details no_api_ex video_objs_ex) = POk [].
Proof.
  assert (H : forall params, api_ok (no_api_ex YOUTUBE_VIDEO_URL params) = None)
    by reflexivity.
  split; [exact H|]. exact (get_video_details_all_fail no_api_ex video_objs_ex H).
Defined.

Lemma get_channel_details_requests_witness :
  let ids := ["c1"; "c2"; "c1"] in
  NoDup (nodup string_dec ids) /\ (forall x, In x (nodup string_dec ids) <-> In x ids)
  /\ (ids = [] -> get_channel_details no_api_ex (nodup string_dec) ids = (POk [], []))
  /\ exists cs,
    NoDup (List.concat cs) /\ (forall x, In x (List.concat cs) <-> In x ids)
    /\ Forall (fun c => (0 < List.length c)%nat /\ Z.of_nat (List.length c) <= 50) cs
    /\ (exists k, snd (get_channel_details no_api_ex (nodup string_dec) ids)
                  = firstn k (map channel_params cs))
    /\ (forall r, fst (get_channel_details no_api_ex (nodup string_dec) ids) = POk r
                  -> snd (get_channel_details no_api_ex (nodup string_dec) ids)
                     = map channel_params cs).
Proof.
  intros ids.
  assert (H1 : NoDup (nodup string_dec ids)) by apply NoDup_nodup.
  assert (H2 : forall x, In x (nodup string_dec ids) <-> In x ids) by (intros x; apply nodup_In).
  split; [exact H1|]. split; [exact H2|].
  exact (get_channel_details_requests no_api_ex (nodup string_dec) ids H1 H2).
Defined.

Lemma db_upsert_videos_untouched_witness :
  db_upsert_videos 0 now_ex2 table_ex batch_ex2 = Ok table_ex2
  /\ nth_error table_ex 1 = Some row_B /\ ~ In (videoId row_B) (map in_videoId batch_ex2)
  /\ nth_error table_ex2 1 = Some row_B.
Proof.
  assert (H1 : db_upsert_videos 0 now_ex2 table_ex batch_ex2 = Ok table_ex2)
    by (vm_compute; reflexivity).
  assert (H2 : nth_error table_ex 1 = Some row_B) by (vm_compute; reflexivity).
  assert (H3 : ~ In (videoId row_B) (map in_videoId batch_ex2))
    by (vm_compute; intros [H|[H|[]]]; discriminate).
  split; [exact H1|]. split; [exact H2|]. split; [exact H3|].
  exact (db_upsert_videos_untouched 0 now_ex2 table_ex batch_ex2 table_ex2 1 row_B H1 H2 H3).
Defined.

Lemma db_upsert_videos_ids_witness :
  db_upsert_videos 0 now_ex2 table_ex batch_ex2 = Ok table_ex2
  /\ (forall v, In v (map videoId table_ex2)
                <-> In v (map videoId table_ex) \/ In v (map in_videoId batch_ex2))
  /\ (NoDup (map videoId table_ex) -> NoDup (map videoId table_ex2)).
Proof.
  assert (H : db_upsert_videos 0 now_ex2 table_ex batch_ex2 = Ok table_ex2)
    by (vm_compute; reflexivity).
  split; [exact H|]. exact (db_upsert_videos_ids 0 now_ex2 table_ex batch_ex2 table_ex2 H).
Defined.

Lemma db_upsert_videos_lastUpdated_witness :
  to_sql_utc_string 0 now_ex2 = Ok "2025-02-03 04:05:06"
  /\ db_upsert_videos 0 now_ex2 table_ex batch_ex2 = Ok table_ex2
  /\ (forall x, In x table_ex2 -> In (videoId x) (map in_videoId batch_ex2)
                -> lastUpdated x = SText "2025-02-03 04:05:06").
Proof.
  assert (H1 : to_sql_utc_string 0 now_ex2 = Ok "2025-02-03 04:05:06")
    by (vm_compute; reflexivity).
  assert (H2 : db_upsert_videos 0 now_ex2 table_ex batch_ex2 = Ok table_ex2)
    by (vm_compute; reflexivity).
  split; [exact H1|]. split; [exact H2|].
  exact (db_upsert_videos_lastUpdated 0 now_ex2 table_ex batch_ex2 table_ex2 _ H1 H2).
Defined.
